(** * Enterprise: configuration resolution and chain-load handoff

    A shallow embedding of [src/main.c] (the EFI program that reads the
    boot configuration, builds the list of bootable distributions and
    chain-loads the second-stage loader) together with the properties of
    the Boot Option Store builder and of the Boot Launcher.

    Conventions of the model.
    - A [CHAR8 *] that points at a string is a [string] holding the buffer
      contents; the C string it denotes ends at the first NUL character or
      at the end of the buffer, whichever comes first.  A possibly-NULL
      [CHAR8 *] is an [option string].
    - Pool memory is a list of cells; the address of the cell at position
      [i] is [S i] and address [0] is [NULL].  [AllocateZeroPool] appends a
      cell, so it always succeeds and always returns a fresh address.
    - [UINTN] and [EFI_STATUS] are 64-bit: values are [Z] and arithmetic
      on them is reduced modulo [2^64].
    - What the program shows or asks of the firmware is appended to a
      trace of events, oldest first.
    - Dereferencing [NULL] or an address that does not hold an object of
      the expected type is undefined behaviour in C; the model stops there
      with the outcome [Trap]. *)

From Stdlib Require Import ZArith Lia Ascii.
From stdpp Require Import base list strings.

Local Open Scope string_scope.
Local Open Scope list_scope.
Local Open Scope Z_scope.

(** ** NUL-terminated strings (gnu-efi [strlena], [strcmpa], [strcpya]) *)

Definition is_nul (c : ascii) : bool := Ascii.eqb c Ascii.zero.

Definition char_code (c : ascii) : Z := Z.of_N (Ascii.N_of_ascii c).

(** [*s]: the character a [CHAR8 *] points at; reading at the end of the
    buffer contents yields the terminator. *)
Definition deref_char (s : string) : ascii :=
  match s with
  | EmptyString => Ascii.zero
  | String c _ => c
  end.

Fixpoint strlena (s : string) : nat :=
  match s with
  | EmptyString => 0%nat
  | String c r => if is_nul c then 0%nat else S (strlena r)
  end.

(** The characters [strcpya] copies before the terminator. *)
Fixpoint strcpya (s : string) : string :=
  match s with
  | EmptyString => EmptyString
  | String c r => if is_nul c then EmptyString else String c (strcpya r)
  end.

(** [while ( *s1 ) { if ( *s1 != *s2 ) break; s1 += 1; s2 += 1; }
    return *s1 - *s2;] *)
Fixpoint strcmpa (s1 s2 : string) : Z :=
  match s1 with
  | EmptyString => 0 - char_code (deref_char s2)
  | String c1 r1 =>
      if is_nul c1 then 0 - char_code (deref_char s2)
      else if Ascii.eqb c1 (deref_char s2)
           then strcmpa r1 (match s2 with EmptyString => EmptyString | String _ r2 => r2 end)
           else char_code c1 - char_code (deref_char s2)
  end.

(** [StrLen] on a [CHAR16] string, given as its code units. *)
Fixpoint StrLen (s : list Z) : nat :=
  match s with
  | [] => 0%nat
  | c :: r => if c =? 0 then 0%nat else S (StrLen r)
  end.

(** ** 64-bit firmware integers *)

Definition UINTN_modulus : Z := 2 ^ 64.
Definition to_UINTN (z : Z) : Z := z mod UINTN_modulus.

Definition EFI_STATUS := Z.
Definition EFI_SUCCESS : EFI_STATUS := 0.
(** [EFIERR(1)]: the high bit set, code 1. *)
Definition EFI_LOAD_ERROR : EFI_STATUS := 2 ^ 63 + 1.
(** [#define EFI_ERROR(a) (((INTN) a) < 0)] *)
Definition EFI_ERROR (a : EFI_STATUS) : bool := 2 ^ 63 <=? to_UINTN a.

(** ** Data model *)

Definition ptr := nat.
Definition NULL : ptr := 0%nat.

(** Modelled from the spec: the struct [LinuxBootOption] is declared in
    [main.h], which is not among the sources.  It is the BootOption of the
    data model, five owned strings, with the field names [main.c] uses;
    every field is NULL after [AllocateZeroPool]. *)
Record LinuxBootOption := mkLinuxBootOption {
  name : option string;
  distro_family : option string;
  kernel_path : option string;
  initrd_path : option string;
  boot_folder : option string
}.

(** Modelled from the spec: the struct [BootableLinuxDistro] is declared
    in [main.h], which is not among the sources.  It is a node of the
    singly linked store: the payload ([NULL] in the sentinel) and the next
    node, with the field names [main.c] uses. *)
Record BootableLinuxDistro := mkBootableLinuxDistro {
  bootOption : ptr;
  next : ptr
}.

Definition zero_option : LinuxBootOption := mkLinuxBootOption None None None None None.
Definition zero_distro : BootableLinuxDistro := mkBootableLinuxDistro NULL NULL.

Definition set_name (v : string) (o : LinuxBootOption) : LinuxBootOption :=
  mkLinuxBootOption (Some v) (distro_family o) (kernel_path o) (initrd_path o) (boot_folder o).
Definition set_distro_family (v : string) (o : LinuxBootOption) : LinuxBootOption :=
  mkLinuxBootOption (name o) (Some v) (kernel_path o) (initrd_path o) (boot_folder o).
Definition set_kernel_path (v : string) (o : LinuxBootOption) : LinuxBootOption :=
  mkLinuxBootOption (name o) (distro_family o) (Some v) (initrd_path o) (boot_folder o).
Definition set_initrd_path (v : string) (o : LinuxBootOption) : LinuxBootOption :=
  mkLinuxBootOption (name o) (distro_family o) (kernel_path o) (Some v) (boot_folder o).
Definition set_boot_folder (v : string) (o : LinuxBootOption) : LinuxBootOption :=
  mkLinuxBootOption (name o) (distro_family o) (kernel_path o) (initrd_path o) (Some v).

Inductive cell :=
| CellDistro (d : BootableLinuxDistro)
| CellOption (o : LinuxBootOption)
| CellDevicePath
| CellFreed.

Abbreviation pool := (list cell).

Definition load (h : pool) (p : ptr) : option cell :=
  match p with
  | O => None
  | S i => h !! i
  end.

Definition store (h : pool) (p : ptr) (c : cell) : pool :=
  match p with
  | O => h
  | S i => <[i:=c]> h
  end.

(** ** Events *)

Inductive print_arg :=
| ArgA (s : string)   (* %a: an ASCII string *)
| ArgD (n : Z)        (* %d *)
| ArgR (status : Z).  (* %r: a status code *)

Inductive variable_name :=
| Enterprise_LinuxBootOptions
| Enterprise_LinuxKernelPath
| Enterprise_InitRDPath
| Enterprise_BootFolder.

Inductive event :=
| EvPrint (fmt : string) (args : list print_arg)
| EvDisplayErrorText (msg : string)
| EvDisplayColoredText (msg : string)
| EvStall (microseconds : Z)
| EvSetVariable (var : variable_name) (buf : string) (size : Z) (persistent : bool)
| EvLoadImage (path : ptr)
| EvClearScreen
| EvStartImage
| EvDisplayMenu.

(** ** The machine: pool memory, the globals of [main.c], the trace *)

Record machine := mkMachine {
  heap : pool;
  distributionListRoot : ptr;
  preset_options_array : list bool;
  trace : list event;
  (** Ghost: the nodes whose [bootOption] field was accessed, oldest first. *)
  payload_accesses : list ptr
}.

Definition with_heap (h : pool) (m : machine) : machine :=
  mkMachine h (distributionListRoot m) (preset_options_array m) (trace m) (payload_accesses m).
Definition with_root (r : ptr) (m : machine) : machine :=
  mkMachine (heap m) r (preset_options_array m) (trace m) (payload_accesses m).
Definition with_presets (a : list bool) (m : machine) : machine :=
  mkMachine (heap m) (distributionListRoot m) a (trace m) (payload_accesses m).
Definition with_event (e : event) (m : machine) : machine :=
  mkMachine (heap m) (distributionListRoot m) (preset_options_array m) (trace m ++ [e]) (payload_accesses m).
Definition with_access (p : ptr) (m : machine) : machine :=
  mkMachine (heap m) (distributionListRoot m) (preset_options_array m) (trace m) (payload_accesses m ++ [p]).

(** ** Outcomes and the monad of the program *)

Inductive outcome (A : Type) :=
| Val (a : A)     (* the computation went on with value [a] *)
| Trap            (* undefined behaviour: an invalid pointer was dereferenced *)
| Handoff.        (* control was transferred to the started image for good *)
Arguments Val {A} a.
Arguments Trap {A}.
Arguments Handoff {A}.

Definition M (A : Type) : Type := machine -> outcome A * machine.

Definition ret {A} (a : A) : M A := fun m => (Val a, m).

Definition bind {A B} (c : M A) (k : A -> M B) : M B :=
  fun m =>
    match c m with
    | (Val a, m') => k a m'
    | (Trap, m') => (Trap, m')
    | (Handoff, m') => (Handoff, m')
    end.

Notation "x <- c ;; k" := (bind c (fun x => k))
  (at level 100, c at next level, right associativity).
Notation "c ;; k" := (bind c (fun _ => k))
  (at level 100, right associativity).

Definition trap {A} : M A := fun m => (Trap, m).
Definition emit (e : event) : M unit := fun m => (Val tt, with_event e m).

(** What the operator is shown.  [Print] is gnu-efi's; the texts are kept
    as the source spells them, escape sequences included. *)
Definition Print (fmt : string) (args : list print_arg) : M unit := emit (EvPrint fmt args).
(** Modelled from the spec: [DisplayErrorText] and [DisplayColoredText] are
    defined in [utils.c], which is not among the sources; each shows its
    message to the operator. *)
Definition DisplayErrorText (msg : string) : M unit := emit (EvDisplayErrorText msg).
Definition DisplayColoredText (msg : string) : M unit := emit (EvDisplayColoredText msg).
Definition Stall (microseconds : Z) : M unit := emit (EvStall microseconds).

(** [AllocateZeroPool(sizeof(T))], with the zeroed object of type [T]. *)
Definition AllocateZeroPool (zeroed : cell) : M ptr :=
  fun m => (Val (S (length (heap m))), with_heap (heap m ++ [zeroed]) m).

Definition FreePool (p : ptr) : M unit :=
  fun m =>
    match load (heap m) p with
    | Some _ => (Val tt, with_heap (store (heap m) p CellFreed) m)
    | None => (Trap, m)
    end.

Definition read_distro (p : ptr) : M BootableLinuxDistro :=
  fun m =>
    match load (heap m) p with
    | Some (CellDistro d) => (Val d, m)
    | _ => (Trap, m)
    end.

Definition write_distro (p : ptr) (d : BootableLinuxDistro) : M unit :=
  fun m => (Val tt, with_heap (store (heap m) p (CellDistro d)) m).

Definition read_option (p : ptr) : M LinuxBootOption :=
  fun m =>
    match load (heap m) p with
    | Some (CellOption o) => (Val o, m)
    | _ => (Trap, m)
    end.

Definition write_option (p : ptr) (o : LinuxBootOption) : M unit :=
  fun m => (Val tt, with_heap (store (heap m) p (CellOption o)) m).

(** [node->next] *)
Definition get_next (node : ptr) : M ptr :=
  d <- read_distro node ;; ret (next d).

(** [node->next = p] *)
Definition put_next (node p : ptr) : M unit :=
  d <- read_distro node ;; write_distro node (mkBootableLinuxDistro (bootOption d) p).

(** [node->bootOption] *)
Definition get_bootOption (node : ptr) : M ptr :=
  d <- read_distro node ;;
  (fun m => (Val (bootOption d), with_access node m)).

(** [node->bootOption = p] *)
Definition put_bootOption (node p : ptr) : M unit :=
  d <- read_distro node ;;
  write_distro node (mkBootableLinuxDistro p (next d)) ;;
  (fun m => (Val tt, with_access node m)).

(** Modelled from the spec: the macro [AllocateMemoryAndCopyChar8String]
    is defined in [utils.h], which is not among the sources.  It is the
    copy-and-allocate helper of the design:
    [AllocateMemoryAndCopyChar8String(node->bootOption->FIELD, src)] makes
    the field an owned copy of the C string [src]. *)
Definition copy_to_field (setter : string -> LinuxBootOption -> LinuxBootOption)
    (node : ptr) (src : string) : M unit :=
  q <- get_bootOption node ;;
  o <- read_option q ;;
  write_option q (setter (strcpya src) o).

(** [node->bootOption->FIELD], read as a pointer. *)
Definition field_of (getter : LinuxBootOption -> option string) (node : ptr) : M (option string) :=
  q <- get_bootOption node ;;
  o <- read_option q ;;
  ret (getter o).

(** A string function applied to a possibly-NULL pointer. *)
Definition on_string {A} (f : string -> A) (s : option string) : M A :=
  match s with
  | Some s => ret (f s)
  | None => trap
  end.

Definition get_root : M ptr := fun m => (Val (distributionListRoot m), m).
Definition put_root (r : ptr) : M unit := fun m => (Val tt, with_root r m).

(** Modelled from the spec: [efi_set_variable] is defined in [utils.c],
    which is not among the sources.
    [efi_set_variable(&grub_variable_guid, name, buf, size, persistent)]
    hands the [size] bytes at [buf] to the firmware under the name [name]
    of the vendor namespace. *)
Definition efi_set_variable (var : variable_name) (buf : option string) (size : Z)
    (persistent : bool) : M unit :=
  match buf with
  | Some b => emit (EvSetVariable var b size persistent)
  | None => trap
  end.

(** The bytes found at [buf]: the buffer contents, then the terminator
    that ends every string buffer. *)
Definition buffer_bytes (buf : string) : list ascii :=
  String.list_ascii_of_string buf ++ [Ascii.zero].

(** What the firmware stores for a [SetVariable] of [size] bytes at [buf]. *)
Definition stored_bytes (buf : string) (size : Z) : list ascii :=
  take (Z.to_nat size) (buffer_bytes buf).

(** ** The outside world *)

(** What the firmware and the volume answer.  [FileExists] and [FileRead]
    are the file helpers of [utils.c], which is not among the sources;
    here they are part of the environment. *)
Record Firmware := mkFirmware {
  (** status of [BS->HandleProtocol] for the loaded image protocol *)
  HandleProtocol_status : EFI_STATUS;
  (** whether [LibOpenRoot] returns a directory *)
  LibOpenRoot_ok : bool;
  FileExists : string -> bool;
  (** [FileRead(root_dir, name, &contents)]: bytes read and the buffer *)
  FileRead : string -> Z * string;
  (** status of [BS->LoadImage] *)
  LoadImage_status : EFI_STATUS;
  (** status of [BS->StartImage]; [None] when the started image keeps
      control and the call never returns *)
  StartImage_status : option EFI_STATUS
}.

(** ** The store as a linked structure in pool memory *)

(** The payload a node's [bootOption] field designates: none for [NULL]. *)
Definition payload_at (h : pool) (q : ptr) (x : option LinuxBootOption) : Prop :=
  match x with
  | None => q = NULL
  | Some o => q <> NULL /\ load h q = Some (CellOption o)
  end.

(** [rep h p l]: following [next] from [p] visits exactly [length l] nodes
    and then [NULL]; the payloads of the nodes are [l], in order. *)
Fixpoint rep (h : pool) (p : ptr) (l : list (option LinuxBootOption)) : Prop :=
  match l with
  | [] => p = NULL
  | x :: l' =>
      exists d, load h p = Some (CellDistro d) /\
                payload_at h (bootOption d) x /\
                rep h (next d) l'
  end.

(** A Boot Option Store: a sentinel head without payload, then one node
    with a payload for each of [os]. *)
Definition is_store (h : pool) (root : ptr) (os : list LinuxBootOption) : Prop :=
  rep h root (None :: map Some os).

Definition is_set_variable (e : event) : bool :=
  match e with
  | EvSetVariable _ _ _ _ => true
  | _ => false
  end.

(** The firmware variable writes of a trace, in order. *)
Definition variable_writes (t : list event) : list event := List.filter is_set_variable t.

Definition is_load_image (e : event) : bool :=
  match e with
  | EvLoadImage _ => true
  | _ => false
  end.

(** ** A sample environment, to run the model on concrete inputs *)

(** Modelled from the spec: the Distribution Registry of [distribution.c],
    which is not among the sources, reduced to the one family that the
    scenarios of the spec name; every other family resolves to the empty
    path. *)
Definition sample_KernelLocation (family : string) : string * string :=
  if String.eqb family "ubuntu" then ("/casper/vmlinuz", "casper") else ("", "").

(** Modelled from the spec: the initrd half of the same registry. *)
Definition sample_InitRDLocation (family : string) : string :=
  if String.eqb family "ubuntu" then "/casper/initrd.lz" else "".

(** Modelled from the spec: [UTF16toASCII] of [utils.c], which is not among
    the sources, as the conversion that keeps the low byte of each of the
    first [len - 1] code units. *)
Definition sample_UTF16toASCII (s : list Z) (len : Z) : string :=
  String.string_of_list_ascii
    (map (fun c => Ascii.ascii_of_N (Z.to_N (c mod 256))) (take (Z.to_nat len - 1) s)).

(** A firmware whose volume has every file, whose configuration file reads
    as [read_bytes] bytes, and whose image services answer [load] and
    [start]. *)
Definition sample_firmware (read_bytes : Z) (load start : EFI_STATUS) : Firmware :=
  mkFirmware EFI_SUCCESS true (fun _ => true) (fun _ => (read_bytes, "")) load (Some start).

(** The machine before anything ran. *)
Definition initial_machine : machine := mkMachine [] NULL [] [] [].

(** The configuration of the two-entry scenario. *)
Definition sample_pairs : list (string * string) :=
  [("entry", "A"); ("kernel", "/a/vmlinuz"); ("initrd", "/a/initrd.img"); ("root", "/a");
   ("entry", "B"); ("family", "ubuntu")].

Section Enterprise.

(** The parts of the repository that [main.c] calls but that live in other
    files ([distribution.c], [utils.c], [main.h], [menu.h]). *)

(** [KernelLocationForDistributionName(name, &boot_folder)]: the returned
    path and the string stored through the output parameter. *)
Variable KernelLocationForDistributionName : string -> string * string.
Variable InitRDLocationForDistributionName : string -> string.
(** The (key, value) pairs that the successive calls of
    [GetConfigurationKeyAndValue(contents, &position, &key, &value)] yield
    on a buffer before the call that returns false. *)
Variable config_pairs : string -> list (string * string).
(** [UTF16toASCII(str, length)] *)
Variable UTF16toASCII : list Z -> Z -> string.
Variable fw : Firmware.

(** *** [ReadConfigurationFile] *)

(** The [entry] branch; the result is the new [conductor]. *)
Definition entry_branch (conductor : ptr) (value : string) : M ptr :=
  new <- AllocateZeroPool (CellDistro zero_distro) ;;
  opt <- AllocateZeroPool (CellOption zero_option) ;;
  put_bootOption new opt ;;
  copy_to_field set_name new value ;;
  put_next conductor new ;;
  put_next new NULL ;;
  get_next conductor.

(** The body of the unsupported-family test; [true] when the function
    returns from there. *)
Definition reject_family (conductor : ptr) (value : string) : M bool :=
  Print "Distribution family %a is not supported.\n" [ArgA value] ;;
  q <- get_bootOption conductor ;;
  FreePool q ;;
  put_root NULL ;;
  ret true.

(** The [family] branch; [true] when the function returns early. *)
Definition family_branch (conductor : ptr) (value : string) : M bool :=
  let distribution := strcpya value in
  copy_to_field set_distro_family conductor value ;;
  let '(kernel, boot_folder) := KernelLocationForDistributionName distribution in
  copy_to_field set_kernel_path conductor kernel ;;
  copy_to_field set_initrd_path conductor (InitRDLocationForDistributionName distribution) ;;
  copy_to_field set_boot_folder conductor boot_folder ;;
  k <- field_of kernel_path conductor ;;
  ck <- on_string (strcmpa "") k ;;
  if ck =? 0 then reject_family conductor value
  else
    i <- field_of initrd_path conductor ;;
    ci <- on_string (strcmpa "") i ;;
    if ci =? 0 then reject_family conductor value
    else ret false.

(** The [while] loop, over the pairs the tokenizer yields. *)
Fixpoint config_loop (pairs : list (string * string)) (conductor : ptr) : M unit :=
  match pairs with
  | [] => ret tt
  | (key, value) :: rest =>
      if strcmpa "entry" key =? 0 then
        conductor' <- entry_branch conductor value ;;
        config_loop rest conductor'
      else if strcmpa "family" key =? 0 then
        returned <- family_branch conductor value ;;
        if (returned : bool) then ret tt else config_loop rest conductor
      else if strcmpa "kernel" key =? 0 then
        copy_to_field set_kernel_path conductor value ;;
        config_loop rest conductor
      else if strcmpa "initrd" key =? 0 then
        copy_to_field set_initrd_path conductor value ;;
        config_loop rest conductor
      else if strcmpa "root" key =? 0 then
        copy_to_field set_boot_folder conductor value ;;
        config_loop rest conductor
      else
        Print "Unrecognized configuration option: %a.\n" [ArgA key] ;;
        config_loop rest conductor
  end.

Definition ReadConfigurationFile (name : string) : M unit :=
  root <- AllocateZeroPool (CellDistro zero_distro) ;;
  put_root root ;;
  conductor <- get_root ;;
  let '(read_bytes, contents) := FileRead fw name in
  (if read_bytes =? 0
   then DisplayErrorText "Error: Couldn't read configuration information.\n"
   else ret tt) ;;
  config_loop (config_pairs contents) conductor.

(** *** [BootLinuxWithOptions] *)

(** [for (i = 0; i < distribution && conductor != NULL; i++, conductor = conductor->next);]
    with [n] the number of values of [i] still below [distribution]. *)
Fixpoint advance (n : nat) (conductor : ptr) : M ptr :=
  match n with
  | O => ret conductor
  | S n' =>
      if (conductor =? NULL)%nat then ret conductor
      else conductor' <- get_next conductor ;; advance n' conductor'
  end.

(** The walk to the chosen node: [conductor = distributionListRoot->next]
    and the [for] loop. *)
Definition find_distribution (distribution : Z) : M ptr :=
  root <- get_root ;;
  first <- get_next root ;;
  advance (Z.to_nat distribution) first.

(** [efi_set_variable(&grub_variable_guid, var, s, sizeof(s[0]) * strlena(s) + 1, FALSE)] *)
Definition persist (var : variable_name) (s : option string) : M unit :=
  len <- on_string strlena s ;;
  efi_set_variable var s (to_UINTN (1 * Z.of_nat len + 1)) false.

(** [FileDevicePath] allocates the device path from pool memory. *)
Definition FileDevicePath : M ptr := AllocateZeroPool CellDevicePath.

Definition LoadImage (path : ptr) : M EFI_STATUS :=
  emit (EvLoadImage path) ;; ret (LoadImage_status fw).

Definition StartImage : M EFI_STATUS :=
  emit EvStartImage ;;
  match StartImage_status fw with
  | Some err => ret err
  | None => fun m => (Handoff, m)
  end.

(** The second half of [BootLinuxWithOptions]: load the boot loader
    image into memory and start it. *)
Definition chain_load : M EFI_STATUS :=
  path <- FileDevicePath ;;
  err <- LoadImage path ;;
  if EFI_ERROR err then
    DisplayErrorText "Error loading image: " ;;
    Print "%r\n" [ArgR err] ;;
    Stall (3 * 1000 * 1000) ;;
    FreePool path ;;
    ret EFI_LOAD_ERROR
  else
    emit EvClearScreen ;;
    err <- StartImage ;;
    if EFI_ERROR err then
      DisplayErrorText "Error starting image: " ;;
      Print "%r\n" [ArgR err] ;;
      Stall (3 * 1000 * 1000) ;;
      FreePool path ;;
      ret EFI_LOAD_ERROR
    else
      Stall (3 * 1000 * 1000) ;;
      ret EFI_SUCCESS.

Definition BootLinuxWithOptions (params : list Z) (distribution : Z) : M EFI_STATUS :=
  let sized_str := UTF16toASCII params (to_UINTN (Z.of_nat (StrLen params) + 1)) in
  persist Enterprise_LinuxBootOptions (Some sized_str) ;;
  conductor <- find_distribution distribution ;;
  boot_params <- get_bootOption conductor ;;
  if (boot_params =? NULL)%nat then
    DisplayErrorText "Error: couldn't get Linux distribution boot settings.\n" ;;
    ret EFI_LOAD_ERROR
  else
    o <- read_option boot_params ;;
    persist Enterprise_LinuxKernelPath (kernel_path o) ;;
    persist Enterprise_InitRDPath (initrd_path o) ;;
    persist Enterprise_BootFolder (boot_folder o) ;;
    chain_load.

(** *** [efi_main] *)

Definition config_file : string := "\efi\boot\.MLUL-Live-USB".

(** The first check of required files: the configuration file. *)
Definition check_configuration : M bool :=
  if negb (FileExists fw config_file) then
    DisplayErrorText "Error: can't find configuration file.\n" ;;
    ret false
  else
    ReadConfigurationFile config_file ;;
    root <- get_root ;;
    if (root =? NULL)%nat then
      DisplayErrorText "Error: configuration file parsing error.\n" ;;
      ret false
    else ret true.

(** A later check: [can_continue] is cleared when the file is missing. *)
Definition require_file (path msg : string) (can_continue : bool) : M bool :=
  if negb (FileExists fw path) then DisplayErrorText msg ;; ret false
  else ret can_continue.

Section Startup.

(** From [menu.h] and [main.h], which are not among the sources. *)
Variable PRESET_OPTIONS_SIZE : nat.
Variable banner : string.
Variables VERSION_MAJOR VERSION_MINOR VERSION_PATCH : Z.
(** What [DisplayMenu] does once it is called.  [DisplayMenu] is defined
    in [menu.c], which is not among the sources, so nothing is assumed of
    it: it is any computation on the machine.  By the design it lets the
    operator choose an entry and calls the launcher, so that it may
    return, fault, or never return because the started image keeps
    control. *)
Variable menu : M unit.

(** [DisplayMenu()]: the call is recorded in the trace, then the menu
    runs. *)
Definition DisplayMenu : M unit := emit EvDisplayMenu ;; menu.

(** [efi_main], from the lookup of the loaded image on.  The calls before
    it ([InitializeLib], [console_text_mode], [SetupDisplay]) and the
    console attribute calls only set up the display. *)
Definition efi_main : M EFI_STATUS :=
  let err := HandleProtocol_status fw in
  if EFI_ERROR err then
    Print "Error: could not find loaded image: %d\n" [ArgD err] ;;
    Stall (3 * 1000 * 1000) ;;
    ret err
  else if negb (LibOpenRoot_ok fw) then
    DisplayErrorText "Unable to open root directory.\n" ;;
    Stall (3 * 1000 * 1000) ;;
    ret EFI_LOAD_ERROR
  else
    (fun m => (Val tt, with_presets (replicate PRESET_OPTIONS_SIZE false) m)) ;;
    emit EvClearScreen ;;
    Print banner [ArgD VERSION_MAJOR; ArgD VERSION_MINOR; ArgD VERSION_PATCH] ;;
    can_continue <- check_configuration ;;
    can_continue <- require_file "\efi\boot\boot.efi" "Error: can't find GRUB bootloader!.\n" can_continue ;;
    can_continue <- require_file "\efi\boot\boot.iso" "Error: can't find ISO file to boot!.\n" can_continue ;;
    (if FileExists fw "\casper-rw" && (can_continue : bool) then
       DisplayColoredText "Found a persistence file! You can enable persistence by selecting it in the Modify Boot Settings screen.\n" ;;
       (fun m => (Val tt, with_presets (<[4%nat:=true]> (preset_options_array m)) m))
     else ret tt) ;;
    if can_continue then
      DisplayMenu ;;
      ret EFI_SUCCESS
    else
      DisplayErrorText "Cannot continue because core files are missing or damaged.\nRestarting...\n" ;;
      Stall (1000 * 1000) ;;
      ret EFI_LOAD_ERROR.

End Startup.

(** *** The builder, by the processing rules of the design

    The rules of the Boot Option Store builder, read as a function from
    the pairs to the list of options: no pool memory, no cursor.  It is
    compared with [config_loop] below. *)

Inductive directive := DEntry | DFamily | DKernel | DInitrd | DRoot | DOther.

Definition classify (key : string) : directive :=
  if strcmpa "entry" key =? 0 then DEntry
  else if strcmpa "family" key =? 0 then DFamily
  else if strcmpa "kernel" key =? 0 then DKernel
  else if strcmpa "initrd" key =? 0 then DInitrd
  else if strcmpa "root" key =? 0 then DRoot
  else DOther.

(** [strcmpa("", s) == 0] *)
Definition is_empty (s : string) : bool := strcmpa "" s =? 0.

Definition kernel_of (family : string) : string :=
  fst (KernelLocationForDistributionName (strcpya family)).
Definition folder_of (family : string) : string :=
  snd (KernelLocationForDistributionName (strcpya family)).
Definition initrd_of (family : string) : string :=
  InitRDLocationForDistributionName (strcpya family).

(** Both resolved paths are non-empty. *)
Definition family_supported (family : string) : bool :=
  negb (is_empty (kernel_of family)) && negb (is_empty (initrd_of family)).

Definition resolve_family (family : string) (o : LinuxBootOption) : LinuxBootOption :=
  set_boot_folder (strcpya (folder_of family))
    (set_initrd_path (strcpya (initrd_of family))
       (set_kernel_path (strcpya (kernel_of family))
          (set_distro_family (strcpya family) o))).

Definition new_option (value : string) : LinuxBootOption :=
  set_name (strcpya value) zero_option.

Inductive verdict :=
| Built (os : list LinuxBootOption)   (* the options, in file order *)
| Unsupported (family : string)       (* the build was abandoned at this family *)
| NoActiveEntry.                      (* a directive came before any entry *)

Definition keep (cur : option LinuxBootOption) (v : verdict) : verdict :=
  match v with
  | Built os => Built (option_list cur ++ os)
  | _ => v
  end.

Definition say (e : event) (r : verdict * list event) : verdict * list event :=
  (fst r, e :: snd r).

(** [spec_build pairs cur]: the options from the active one ([cur], none
    before the first entry) on, and the diagnostics shown. *)
Fixpoint spec_build (pairs : list (string * string)) (cur : option LinuxBootOption)
    : verdict * list event :=
  match pairs with
  | [] => (Built (option_list cur), [])
  | (key, value) :: rest =>
      match classify key, cur with
      | DEntry, _ =>
          let r := spec_build rest (Some (new_option value)) in
          (keep cur (fst r), snd r)
      | DOther, _ =>
          say (EvPrint "Unrecognized configuration option: %a.\n" [ArgA key])
              (spec_build rest cur)
      | _, None => (NoActiveEntry, [])
      | DFamily, Some o =>
          if family_supported value
          then spec_build rest (Some (resolve_family value o))
          else (Unsupported value,
                [EvPrint "Distribution family %a is not supported.\n" [ArgA value]])
      | DKernel, Some o => spec_build rest (Some (set_kernel_path (strcpya value) o))
      | DInitrd, Some o => spec_build rest (Some (set_initrd_path (strcpya value) o))
      | DRoot, Some o => spec_build rest (Some (set_boot_folder (strcpya value) o))
      end
  end.

(** The payloads from the conductor on, once the pairs are consumed. *)
Definition expected (cur : option LinuxBootOption) (os : list LinuxBootOption)
    : list (option LinuxBootOption) :=
  match cur with
  | None => None :: map Some os
  | Some _ => map Some os
  end.

(** Every [family], [kernel], [initrd] or [root] directive has an [entry]
    directive before it. *)
Fixpoint entry_first (pairs : list (string * string)) : bool :=
  match pairs with
  | [] => true
  | (key, _) :: rest =>
      match classify key with
      | DEntry => true
      | DOther => entry_first rest
      | _ => false
      end
  end.

(** Every [family] directive names a family with both paths non-empty. *)
Fixpoint families_supported (pairs : list (string * string)) : bool :=
  match pairs with
  | [] => true
  | (key, value) :: rest =>
      match classify key with
      | DFamily => family_supported value && families_supported rest
      | _ => families_supported rest
      end
  end.

(** The values of the [entry] directives, as stored, in file order. *)
Fixpoint entry_names (pairs : list (string * string)) : list string :=
  match pairs with
  | [] => []
  | (key, value) :: rest =>
      match classify key with
      | DEntry => strcpya value :: entry_names rest
      | _ => entry_names rest
      end
  end.

(** The cells of the node at [S n] and, right after it, of its payload
    [cur], if it has one; [nx] is the node's [next]. *)
Definition node_shape (n : nat) (cur : option LinuxBootOption) (nx : ptr) : list cell :=
  match cur with
  | None => [CellDistro (mkBootableLinuxDistro NULL nx)]
  | Some o => [CellDistro (mkBootableLinuxDistro (S (S n)) nx); CellOption o]
  end.

(** What the loop has done when it stops, against the verdict and the
    diagnostics [r] of the rules: [m] is the machine before, [pre] the pool
    below the conductor, [cur] the payload of the conductor. *)
Definition post (r : verdict * list event) (cur : option LinuxBootOption)
    (m : machine) (pre : pool) (res : outcome unit * machine) : Prop :=
  let c := S (length pre) in
  trace (snd res) = trace m ++ snd r /\
  preset_options_array (snd res) = preset_options_array m /\
  (exists lg, payload_accesses (snd res) = payload_accesses m ++ lg /\
              (fst res <> Trap -> Forall (fun a => (c <= a)%nat /\ (cur = None -> (c < a)%nat)) lg)) /\
  match fst r with
  | Built os =>
      fst res = Val tt /\
      distributionListRoot (snd res) = distributionListRoot m /\
      (exists ext, heap (snd res) = pre ++ ext) /\
      rep (heap (snd res)) c (expected cur os)
  | Unsupported _ =>
      fst res = Val tt /\ distributionListRoot (snd res) = NULL
  | NoActiveEntry =>
      fst res = Trap /\ distributionListRoot (snd res) = distributionListRoot m
  end.

Definition loop_post (pairs : list (string * string)) (cur : option LinuxBootOption)
    (m : machine) (pre : pool) (res : outcome unit * machine) : Prop :=
  post (spec_build pairs cur) cur m pre res.

(** What [ReadConfigurationFile] shows when [FileRead] read nothing. *)
Definition read_error (read_bytes : Z) : list event :=
  if read_bytes =? 0
  then [EvDisplayErrorText "Error: Couldn't read configuration information.\n"]
  else [].

(** The field a manual directive overrides. *)
Definition overridden_field (d : directive) : LinuxBootOption -> option string :=
  match d with
  | DKernel => kernel_path
  | DInitrd => initrd_path
  | DRoot => boot_folder
  | DEntry => name
  | DFamily => distro_family
  | DOther => fun _ => None
  end.

Definition is_override (d : directive) : bool :=
  match d with
  | DKernel | DInitrd | DRoot => true
  | _ => false
  end.

Definition directive_eqb (a b : directive) : bool :=
  match a, b with
  | DEntry, DEntry | DFamily, DFamily | DKernel, DKernel
  | DInitrd, DInitrd | DRoot, DRoot | DOther, DOther => true
  | _, _ => false
  end.

(** Up to the next [entry] directive (or the end), no [family] directive
    and no directive of class [d]: nothing writes the field of [d] again. *)
Fixpoint last_write (d : directive) (rest : list (string * string)) : bool :=
  match rest with
  | [] => true
  | (key, _) :: rest' =>
      match classify key with
      | DEntry => true
      | DFamily => false
      | d' => negb (directive_eqb d' d) && last_write d rest'
      end
  end.

(** [sizeof(s[0]) * strlena(s) + 1], as a [UINTN]. *)
Definition size_with_nul (s : string) : Z := to_UINTN (1 * Z.of_nat (strlena s) + 1).

(** The string [BootLinuxWithOptions] makes of its [params]. *)
Definition sized_str (params : list Z) : string :=
  UTF16toASCII params (to_UINTN (Z.of_nat (StrLen params) + 1)).

Definition write_of (var : variable_name) (s : string) : event :=
  EvSetVariable var s (size_with_nul s) false.

(** The four variables of the handoff to the second-stage loader. *)
Definition handoff_writes (params : list Z) (kernel initrd folder : string) : list event :=
  [write_of Enterprise_LinuxBootOptions (sized_str params);
   write_of Enterprise_LinuxKernelPath kernel;
   write_of Enterprise_InitRDPath initrd;
   write_of Enterprise_BootFolder folder].

(** The machine when [BootLinuxWithOptions] reaches the image load for the
    node at [q]. *)
Definition at_image_load (m : machine) (q : ptr) (writes : list event) : machine :=
  mkMachine (heap m) (distributionListRoot m) (preset_options_array m)
    (trace m ++ writes) (payload_accesses m ++ [q]).

(** The address [FileDevicePath] returns on machine [m]. *)
Definition device_path_of (m : machine) : ptr := S (length (heap m)).

(** The machine [chain_load] leaves: the device path cell is [c], the
    trace grew by [evs]. *)
Definition after_chain_load (m : machine) (c : cell) (evs : list event) : machine :=
  mkMachine (heap m ++ [c]) (distributionListRoot m) (preset_options_array m)
    (trace m ++ evs) (payload_accesses m).

(** ** Properties *)

(** *** Strings *)

Lemma char_code_zero (c : ascii) : char_code c = 0 <-> c = Ascii.zero.
Proof.
  unfold char_code. split.
  - intros H. rewrite <- (Ascii.ascii_N_embedding c).
    replace (Ascii.N_of_ascii c) with 0%N by lia. reflexivity.
  - intros ->. reflexivity.
Qed.

Lemma is_nul_true (c : ascii) : is_nul c = true <-> c = Ascii.zero.
Proof. unfold is_nul. apply Ascii.eqb_eq. Qed.

Lemma strlena_strcpya (s : string) : strlena (strcpya s) = strlena s.
Proof.
  induction s as [|c r IH]; simpl; [reflexivity|].
  destruct (is_nul c) eqn:E; simpl; [reflexivity|]. rewrite E. congruence.
Qed.

Lemma strcpya_idem (s : string) : strcpya (strcpya s) = strcpya s.
Proof.
  induction s as [|c r IH]; simpl; [reflexivity|].
  destruct (is_nul c) eqn:E; simpl; [reflexivity|]. rewrite E. congruence.
Qed.

Lemma length_strcpya (s : string) : String.length (strcpya s) = strlena s.
Proof.
  induction s as [|c r IH]; simpl; [reflexivity|].
  destruct (is_nul c); simpl; congruence.
Qed.

Lemma is_empty_strlena (s : string) : is_empty s = true <-> strlena s = 0%nat.
Proof.
  unfold is_empty. simpl. rewrite Z.eqb_eq.
  destruct s as [|c r]; simpl.
  - split; reflexivity.
  - destruct (is_nul c) eqn:E.
    + apply is_nul_true in E. subst c. split; reflexivity.
    + split; [|discriminate]. intros H.
      assert (char_code c = 0) as Hc by lia.
      apply char_code_zero in Hc. apply is_nul_true in Hc. congruence.
Qed.

Lemma is_empty_strcpya (s : string) : is_empty (strcpya s) = is_empty s.
Proof.
  apply eq_true_iff_eq. rewrite !is_empty_strlena, strlena_strcpya. reflexivity.
Qed.

(** *** Pool memory *)

Lemma lookup_mid (pre tl : pool) (x : cell) : (pre ++ x :: tl) !! length pre = Some x.
Proof. by apply list_lookup_middle. Qed.

Lemma lookup_mid1 (pre tl : pool) (x y : cell) :
  (pre ++ x :: y :: tl) !! S (length pre) = Some y.
Proof.
  replace (pre ++ x :: y :: tl) with ((pre ++ [x]) ++ y :: tl) by by rewrite <- app_assoc.
  apply list_lookup_middle. rewrite length_app. simpl. lia.
Qed.

Lemma insert_mid (pre tl : pool) (x z : cell) :
  <[length pre:=z]> (pre ++ x :: tl) = pre ++ z :: tl.
Proof.
  replace (length pre) with (length pre + 0)%nat at 1 by lia.
  by rewrite insert_app_r.
Qed.

Lemma insert_mid1 (pre tl : pool) (x y z : cell) :
  <[S (length pre):=z]> (pre ++ x :: y :: tl) = pre ++ x :: z :: tl.
Proof.
  replace (S (length pre)) with (length pre + 1)%nat by lia.
  by rewrite insert_app_r.
Qed.

Lemma load_app (h ext : pool) (p : ptr) (c : cell) :
  load h p = Some c -> load (h ++ ext) p = Some c.
Proof. destruct p; simpl; [discriminate|]. apply lookup_app_l_Some. Qed.

Lemma payload_at_app (h ext : pool) (q : ptr) (x : option LinuxBootOption) :
  payload_at h q x -> payload_at (h ++ ext) q x.
Proof.
  destruct x; simpl; [|trivial]. intros [? ?]. split; [assumption|by apply load_app].
Qed.

Lemma rep_app (h ext : pool) (l : list (option LinuxBootOption)) :
  forall p, rep h p l -> rep (h ++ ext) p l.
Proof.
  induction l as [|x l IH]; simpl; intros p; [trivial|].
  intros (d & Hd & Hx & Hl). exists d. repeat split.
  - by apply load_app.
  - by apply payload_at_app.
  - by apply IH.
Qed.

(** *** One step of the builder *)

Arguments strcmpa : simpl never.

Lemma config_loop_cons (key value : string) (rest : list (string * string)) (c : ptr) :
  config_loop ((key, value) :: rest) c =
  match classify key with
  | DEntry => c' <- entry_branch c value ;; config_loop rest c'
  | DFamily =>
      returned <- family_branch c value ;;
      if (returned : bool) then ret tt else config_loop rest c
  | DKernel => copy_to_field set_kernel_path c value ;; config_loop rest c
  | DInitrd => copy_to_field set_initrd_path c value ;; config_loop rest c
  | DRoot => copy_to_field set_boot_folder c value ;; config_loop rest c
  | DOther =>
      Print "Unrecognized configuration option: %a.\n" [ArgA key] ;;
      config_loop rest c
  end.
Proof.
  unfold classify. simpl.
  repeat match goal with |- context [if ?b then _ else _] => destruct b end;
    reflexivity.
Qed.

Lemma copy_to_field_active setter (v : string) (pre : pool) (o : LinuxBootOption)
    (nx : ptr) (m : machine) :
  heap m = pre ++ node_shape (length pre) (Some o) nx ->
  copy_to_field setter (S (length pre)) v m =
  (Val tt, with_heap (pre ++ node_shape (length pre) (Some (setter (strcpya v) o)) nx)
             (with_access (S (length pre)) m)).
Proof.
  destruct m as [h r ps t a]. simpl. intros ->.
  unfold copy_to_field, get_bootOption, read_option, write_option, read_distro, bind, ret.
  simpl. rewrite lookup_mid. simpl. rewrite lookup_mid1.
  unfold with_heap, with_access. simpl. by rewrite insert_mid1.
Qed.

Lemma copy_to_field_sentinel setter (v : string) (pre : pool) (nx : ptr) (m : machine) :
  heap m = pre ++ node_shape (length pre) None nx ->
  copy_to_field setter (S (length pre)) v m = (Trap, with_access (S (length pre)) m).
Proof.
  destruct m as [h r ps t a]. simpl. intros ->.
  unfold copy_to_field, get_bootOption, read_option, write_option, read_distro, bind, ret.
  simpl. rewrite lookup_mid. reflexivity.
Qed.

Lemma field_of_active getter (pre : pool) (o : LinuxBootOption) (nx : ptr) (m : machine) :
  heap m = pre ++ node_shape (length pre) (Some o) nx ->
  field_of getter (S (length pre)) m = (Val (getter o), with_access (S (length pre)) m).
Proof.
  destruct m as [h r ps t a]. simpl. intros ->.
  unfold field_of, get_bootOption, read_option, read_distro, bind, ret.
  simpl. rewrite lookup_mid. simpl. rewrite lookup_mid1. reflexivity.
Qed.

Lemma reject_family_active (v : string) (pre : pool) (o : LinuxBootOption) (m : machine) :
  heap m = pre ++ node_shape (length pre) (Some o) NULL ->
  reject_family (S (length pre)) v m =
  (Val true,
   with_root NULL
     (with_heap (pre ++ [CellDistro (mkBootableLinuxDistro (S (S (length pre))) NULL); CellFreed])
        (with_access (S (length pre))
           (with_event (EvPrint "Distribution family %a is not supported.\n" [ArgA v]) m)))).
Proof.
  destruct m as [h r ps t a]. simpl. intros ->.
  unfold reject_family, Print, emit, get_bootOption, FreePool, put_root, read_distro, bind, ret.
  simpl. rewrite lookup_mid. simpl. rewrite lookup_mid1.
  unfold with_root, with_heap, with_access, with_event. simpl. by rewrite insert_mid1.
Qed.

Lemma entry_branch_at (v : string) (i : nat) (d0 : BootableLinuxDistro) (m : machine) :
  heap m !! i = Some (CellDistro d0) ->
  let new := S (length (heap m)) in
  entry_branch (S i) v m =
  (Val new,
   with_heap (<[i:=CellDistro (mkBootableLinuxDistro (bootOption d0) new)]> (heap m)
                ++ [CellDistro (mkBootableLinuxDistro (S new) NULL);
                    CellOption (new_option v)])
     (with_access new (with_access new m))).
Proof.
  destruct m as [h r ps t a]. simpl. intros Hi.
  assert (i < length h)%nat as Hlt by (by eapply lookup_lt_Some).
  unfold entry_branch, AllocateZeroPool, put_bootOption, copy_to_field, get_bootOption,
    put_next, get_next, read_option, write_option, read_distro, write_distro, bind, ret.
  cbn [heap with_heap with_access load store distributionListRoot preset_options_array trace payload_accesses fst snd].
  rewrite <- !app_assoc, length_app. cbn [app length]. rewrite Nat.add_1_r.
  rewrite lookup_mid.
  cbn [heap with_heap with_access load store distributionListRoot preset_options_array trace payload_accesses fst snd next bootOption zero_distro].
  rewrite insert_mid, lookup_mid.
  cbn [heap with_heap with_access load store distributionListRoot preset_options_array trace payload_accesses fst snd next bootOption zero_distro].
  rewrite lookup_mid1.
  cbn [heap with_heap with_access load store distributionListRoot preset_options_array trace payload_accesses fst snd next bootOption zero_distro].
  rewrite insert_mid1.
  rewrite (lookup_app_l_Some _ _ _ _ Hi).
  cbn [heap with_heap with_access load store distributionListRoot preset_options_array trace payload_accesses fst snd next bootOption zero_distro].
  rewrite insert_app_l by assumption.
  rewrite (list_lookup_middle _ _ _ (length h)) by (by rewrite length_insert).
  cbn [heap with_heap with_access load store distributionListRoot preset_options_array trace payload_accesses fst snd next bootOption zero_distro].
  rewrite insert_app_r_alt by (rewrite length_insert; lia).
  rewrite length_insert, Nat.sub_diag.
  rewrite (lookup_app_l_Some _ _ i (CellDistro (mkBootableLinuxDistro (bootOption d0) (S (length h)))))
    by (by apply list_lookup_insert_eq).
  reflexivity.
Qed.

Lemma entry_branch_spec (v : string) (pre : pool) (cur : option LinuxBootOption) (m : machine) :
  heap m = pre ++ node_shape (length pre) cur NULL ->
  let new := S (length (heap m)) in
  entry_branch (S (length pre)) v m =
  (Val new,
   with_heap ((pre ++ node_shape (length pre) cur new)
                ++ node_shape (length (heap m)) (Some (new_option v)) NULL)
     (with_access new (with_access new m))).
Proof.
  intros Hm new.
  assert (exists d0, heap m !! length pre = Some (CellDistro d0) /\
            <[length pre:=CellDistro (mkBootableLinuxDistro (bootOption d0) new)]> (heap m)
            = pre ++ node_shape (length pre) cur new) as (d0 & Hd0 & Hins).
  { rewrite Hm. destruct cur as [o|]; simpl; eexists; (split; [apply lookup_mid|]);
      by rewrite insert_mid. }
  rewrite (entry_branch_at v _ d0 m Hd0). fold new. by rewrite Hins.
Qed.

(** *** The loop against the rules *)

Lemma rep_expected_cons (h : pool) (pre ext : pool) (cur : option LinuxBootOption)
    (nx : ptr) (os : list LinuxBootOption) :
  h = (pre ++ node_shape (length pre) cur nx) ++ ext ->
  rep h nx (map Some os) ->
  rep h (S (length pre)) (expected cur (option_list cur ++ os)).
Proof.
  intros -> Hrep. destruct cur as [o|]; simpl.
  - exists (mkBootableLinuxDistro (S (S (length pre))) nx). repeat split.
    + rewrite <- app_assoc. simpl. apply lookup_mid.
    + discriminate.
    + rewrite <- app_assoc. simpl. apply lookup_mid1.
    + exact Hrep.
  - exists (mkBootableLinuxDistro NULL nx). repeat split.
    + rewrite <- app_assoc. simpl. apply lookup_mid.
    + exact Hrep.
Qed.

Lemma family_branch_active (v : string) (pre : pool) (o : LinuxBootOption) (m : machine) :
  heap m = pre ++ node_shape (length pre) (Some o) NULL ->
  exists m1 k,
    family_branch (S (length pre)) v m = (Val (negb (family_supported v)), m1) /\
    payload_accesses m1 = payload_accesses m ++ replicate k (S (length pre)) /\
    preset_options_array m1 = preset_options_array m /\
    if family_supported v
    then heap m1 = pre ++ node_shape (length pre) (Some (resolve_family v o)) NULL /\
         trace m1 = trace m /\
         distributionListRoot m1 = distributionListRoot m
    else trace m1 = trace m ++ [EvPrint "Distribution family %a is not supported.\n" [ArgA v]] /\
         distributionListRoot m1 = NULL.
Proof.
  intros Hm.
  unfold family_branch, family_supported, resolve_family, kernel_of, initrd_of, folder_of.
  destruct (KernelLocationForDistributionName (strcpya v)) as [kernel folder].
  cbn [fst snd]. unfold bind.
  erewrite copy_to_field_active by exact Hm. cbv beta iota.
  do 3 (erewrite copy_to_field_active by reflexivity; cbv beta iota).
  erewrite field_of_active by reflexivity. cbv beta iota.
  cbn [kernel_path set_boot_folder set_initrd_path set_kernel_path set_distro_family on_string ret].
  fold (is_empty (strcpya kernel)). rewrite is_empty_strcpya.
  destruct (is_empty kernel) eqn:Ek; cbn [negb andb].
  - erewrite reject_family_active by reflexivity.
    eexists _, 6%nat. split; [reflexivity|]. destruct m as [h r ps t a]. simpl.
    repeat split. by rewrite <- !app_assoc.
  - erewrite field_of_active by reflexivity. cbv beta iota.
    cbn [initrd_path set_boot_folder set_initrd_path set_kernel_path set_distro_family on_string ret].
    fold (is_empty (strcpya (InitRDLocationForDistributionName (strcpya v)))).
    rewrite is_empty_strcpya.
    destruct (is_empty (InitRDLocationForDistributionName (strcpya v))) eqn:Ei; cbn [negb].
    + erewrite reject_family_active by reflexivity.
      eexists _, 7%nat. split; [reflexivity|]. destruct m as [h r ps t a]. simpl.
      repeat split. by rewrite <- !app_assoc.
    + eexists _, 6%nat. split; [reflexivity|]. destruct m as [h r ps t a]. simpl.
      repeat split. by rewrite <- !app_assoc.
Qed.

Lemma length_node_shape (n : nat) (cur : option LinuxBootOption) (nx nx' : ptr) :
  length (node_shape n cur nx) = length (node_shape n cur nx').
Proof. by destruct cur. Qed.

Lemma length_node_shape_pos (n : nat) (cur : option LinuxBootOption) (nx : ptr) :
  (1 <= length (node_shape n cur nx))%nat.
Proof. destruct cur; simpl; lia. Qed.

Lemma post_update (r : verdict * list event) (o o' : LinuxBootOption) (m m1 : machine)
    (pre : pool) (res : outcome unit * machine) (k : nat) :
  trace m1 = trace m ->
  preset_options_array m1 = preset_options_array m ->
  distributionListRoot m1 = distributionListRoot m ->
  payload_accesses m1 = payload_accesses m ++ replicate k (S (length pre)) ->
  post r (Some o') m1 pre res -> post r (Some o) m pre res.
Proof.
  unfold post. intros Ht Hp Hr Ha (Ht' & Hp' & (lg & Hlg & Hall) & Hv).
  split; [congruence|]. split; [congruence|]. split.
  - exists (replicate k (S (length pre)) ++ lg). split.
    + by rewrite Hlg, Ha, <- app_assoc.
    + intros Hne. apply Forall_app. split.
      * apply Forall_replicate. split; [lia|discriminate].
      * eapply Forall_impl; [exact (Hall Hne)|]. simpl. intros a [? _]. split; [lia|discriminate].
  - destruct (fst r); simpl in *; try rewrite <- Hr; exact Hv.
Qed.

Lemma post_say (e : event) (r : verdict * list event) (cur : option LinuxBootOption)
    (m : machine) (pre : pool) (res : outcome unit * machine) :
  post r cur (with_event e m) pre res -> post (say e r) cur m pre res.
Proof.
  unfold post, say. destruct m as [h rt ps t a]. simpl.
  intros (Ht & Hp & Hlg & Hv). repeat split; try assumption.
  by rewrite Ht, <- app_assoc.
Qed.

Lemma post_entry (r : verdict * list event) (cur : option LinuxBootOption) (o1 : LinuxBootOption)
    (m : machine) (pre : pool) (res : outcome unit * machine) :
  heap m = pre ++ node_shape (length pre) cur NULL ->
  let new := S (length (heap m)) in
  post r (Some o1)
    (with_heap ((pre ++ node_shape (length pre) cur new)
                  ++ node_shape (length (heap m)) (Some o1) NULL)
       (with_access new (with_access new m)))
    (pre ++ node_shape (length pre) cur new) res ->
  post (keep cur (fst r), snd r) cur m pre res.
Proof.
  intros Hm new.
  assert (length (pre ++ node_shape (length pre) cur new) = length (heap m)) as Hlen.
  { rewrite Hm, !length_app. f_equal. apply length_node_shape. }
  assert (S (length pre) < new)%nat as Hnew.
  { unfold new. rewrite Hm, length_app.
    pose proof (length_node_shape_pos (length pre) cur NULL). lia. }
  unfold post. rewrite Hlen. fold new. destruct m as [h rt ps t a]. cbn [fst snd].
  cbn [trace preset_options_array payload_accesses distributionListRoot heap with_heap with_access].
  intros (Ht & Hp & (lg & Hlg & Hall) & Hv).
  split; [exact Ht|]. split; [exact Hp|]. split.
  - exists ([new; new] ++ lg). split.
    + rewrite Hlg, <- !app_assoc. reflexivity.
    + intros Hne. apply Forall_app. split.
      * repeat (apply Forall_cons_2; [split; [lia|intros _; lia]|]). apply Forall_nil_2.
      * eapply Forall_impl; [exact (Hall Hne)|]. simpl. intros x [? _]. split; lia.
  - destruct (fst r) as [os| |]; simpl in *.
    + destruct Hv as (Hres & Hroot & (ext & Hext) & Hrep).
      split; [exact Hres|]. split; [exact Hroot|]. split.
      * exists (node_shape (length pre) cur new ++ ext). by rewrite Hext, <- app_assoc.
      * eapply rep_expected_cons; [exact Hext|exact Hrep].
    + exact Hv.
    + exact Hv.
Qed.

Lemma post_trap (pre : pool) (m : machine) :
  post (NoActiveEntry, []) None m pre (Trap, with_access (S (length pre)) m).
Proof.
  unfold post. destruct m as [h rt ps t a]. simpl. repeat split.
  - by rewrite app_nil_r.
  - eexists. split; [reflexivity|]. intros Hne. by destruct Hne.
Qed.

Lemma family_branch_sentinel (v : string) (pre : pool) (m : machine) :
  heap m = pre ++ node_shape (length pre) None NULL ->
  family_branch (S (length pre)) v m = (Trap, with_access (S (length pre)) m).
Proof.
  intros Hm. unfold family_branch.
  destruct (KernelLocationForDistributionName (strcpya v)) as [kernel folder].
  unfold bind. by rewrite (copy_to_field_sentinel _ _ pre NULL m Hm).
Qed.

Lemma config_loop_refines (pairs : list (string * string)) :
  forall (cur : option LinuxBootOption) (m : machine) (pre : pool),
    heap m = pre ++ node_shape (length pre) cur NULL ->
    loop_post pairs cur m pre (config_loop pairs (S (length pre)) m).
Proof.
  unfold loop_post.
  induction pairs as [|[key value] rest IH]; intros cur m pre Hm.
  - (* the tokenizer is done *)
    simpl. unfold post, ret. cbn [fst snd]. repeat split.
    + by rewrite app_nil_r.
    + exists []. split; [by rewrite app_nil_r|]. intros _. constructor.
    + eexists. exact Hm.
    + rewrite <- (app_nil_r (option_list cur)).
      eapply (rep_expected_cons _ pre [] cur NULL []); [|reflexivity].
      by rewrite app_nil_r.
  - rewrite config_loop_cons. simpl spec_build.
    destruct (classify key) eqn:Hk.
    + (* entry *)
      unfold bind. rewrite (entry_branch_spec value pre cur m Hm). cbv beta iota.
      apply (post_entry _ cur (new_option value)); [exact Hm|].
      set (new := S (length (heap m))).
      set (pre' := pre ++ node_shape (length pre) cur new).
      assert (length (heap m) = length pre') as Hlen.
      { unfold pre'. rewrite Hm, !length_app. f_equal. apply length_node_shape. }
      assert (new = S (length pre')) as Hnew by (unfold new; by rewrite Hlen).
      rewrite Hlen, Hnew. apply IH. reflexivity.
    + (* family *)
      destruct cur as [o|]; unfold bind.
      * destruct (family_branch_active value pre o m Hm) as (m1 & k & Hrun & Hacc & Hps & Hrest).
        rewrite Hrun. destruct (family_supported value); cbn [negb]; cbv beta iota.
        -- destruct Hrest as (Hheap & Htrace & Hroot).
           eapply (post_update _ o _ m m1 pre _ k); [assumption..|]. by apply IH.
        -- destruct Hrest as (Htrace & Hroot).
           unfold post, ret. cbn [fst snd]. repeat split; try assumption.
           exists (replicate k (S (length pre))). split; [assumption|].
           intros _. apply Forall_replicate. split; [lia|discriminate].
      * rewrite (family_branch_sentinel value pre m Hm). apply post_trap.
    + (* kernel *)
      destruct cur as [o|]; unfold bind.
      * rewrite (copy_to_field_active _ value pre o NULL m Hm). cbv beta iota.
        eapply (post_update _ o _ m _ pre _ 1); [..|apply IH; reflexivity];
          destruct m; reflexivity.
      * rewrite (copy_to_field_sentinel _ value pre NULL m Hm). apply post_trap.
    + (* initrd *)
      destruct cur as [o|]; unfold bind.
      * rewrite (copy_to_field_active _ value pre o NULL m Hm). cbv beta iota.
        eapply (post_update _ o _ m _ pre _ 1); [..|apply IH; reflexivity];
          destruct m; reflexivity.
      * rewrite (copy_to_field_sentinel _ value pre NULL m Hm). apply post_trap.
    + (* root *)
      destruct cur as [o|]; unfold bind.
      * rewrite (copy_to_field_active _ value pre o NULL m Hm). cbv beta iota.
        eapply (post_update _ o _ m _ pre _ 1); [..|apply IH; reflexivity];
          destruct m; reflexivity.
      * rewrite (copy_to_field_sentinel _ value pre NULL m Hm). apply post_trap.
    + (* another key *)
      unfold bind, Print, emit. cbv beta iota.
      apply post_say. apply IH. destruct m; exact Hm.
Qed.

(** *** [ReadConfigurationFile] against the rules *)

Lemma ReadConfigurationFile_refines (file : string) (m : machine) :
  let read := FileRead fw file in
  let r := spec_build (config_pairs (snd read)) None in
  let res := ReadConfigurationFile file m in
  let sentinel := S (length (heap m)) in
  trace (snd res) = trace m ++ read_error (fst read) ++ snd r /\
  preset_options_array (snd res) = preset_options_array m /\
  (exists lg, payload_accesses (snd res) = payload_accesses m ++ lg /\
              (fst res <> Trap -> Forall (fun a => (sentinel < a)%nat) lg)) /\
  match fst r with
  | Built os =>
      fst res = Val tt /\
      distributionListRoot (snd res) = sentinel /\
      (exists ext, heap (snd res) = heap m ++ ext) /\
      is_store (heap (snd res)) sentinel os
  | Unsupported _ =>
      fst res = Val tt /\ distributionListRoot (snd res) = NULL
  | NoActiveEntry =>
      fst res = Trap /\ distributionListRoot (snd res) = sentinel
  end.
Proof.
  unfold ReadConfigurationFile, read_error.
  destruct (FileRead fw file) as [read_bytes contents]. cbn [fst snd].
  set (pairs := config_pairs contents).
  unfold bind, AllocateZeroPool, put_root, get_root. cbv beta iota.
  cbn [distributionListRoot with_root with_heap].
  set (m0 := with_root (S (length (heap m))) (with_heap (heap m ++ [CellDistro zero_distro]) m)).
  assert (forall m1 : machine,
             heap m1 = heap m0 -> distributionListRoot m1 = distributionListRoot m0 ->
             preset_options_array m1 = preset_options_array m0 ->
             payload_accesses m1 = payload_accesses m0 ->
             let res := config_loop pairs (S (length (heap m))) m1 in
             trace (snd res) = trace m1 ++ snd (spec_build pairs None) /\
             preset_options_array (snd res) = preset_options_array m /\
             (exists lg, payload_accesses (snd res) = payload_accesses m ++ lg /\
                (fst res <> Trap -> Forall (fun a => (S (length (heap m)) < a)%nat) lg)) /\
             match fst (spec_build pairs None) with
             | Built os =>
                 fst res = Val tt /\
                 distributionListRoot (snd res) = S (length (heap m)) /\
                 (exists ext, heap (snd res) = heap m ++ ext) /\
                 is_store (heap (snd res)) (S (length (heap m))) os
             | Unsupported _ =>
                 fst res = Val tt /\ distributionListRoot (snd res) = NULL
             | NoActiveEntry =>
                 fst res = Trap /\ distributionListRoot (snd res) = S (length (heap m))
             end) as Hloop.
  { intros m1 Hh Hr Hp Ha res.
    pose proof (config_loop_refines pairs None m1 (heap m) Hh) as Hpost.
    unfold loop_post, post in Hpost. fold res in Hpost.
    destruct Hpost as (Ht & Hps & (lg & Hlg & Hall) & Hv).
    split; [exact Ht|]. split; [by rewrite Hps, Hp; destruct m|]. split.
    - exists lg. split; [by rewrite Hlg, Ha; destruct m|].
      intros Hne. eapply Forall_impl; [exact (Hall Hne)|]. simpl. intros a [_ Hlt].
      by apply Hlt.
    - destruct (fst (spec_build pairs None)); rewrite ?Hr in Hv; exact Hv. }
  destruct (read_bytes =? 0).
  - unfold DisplayErrorText, emit. cbv beta iota.
    match goal with |- context [config_loop pairs _ ?m1] => specialize (Hloop m1) end.
    destruct m as [h rt ps t a].
    specialize (Hloop eq_refl eq_refl eq_refl eq_refl).
    cbn [trace with_event] in Hloop. cbn [trace]. rewrite <- app_assoc in Hloop. exact Hloop.
  - unfold ret. cbv beta iota.
    destruct m as [h rt ps t a].
    specialize (Hloop _ eq_refl eq_refl eq_refl eq_refl). exact Hloop.
Qed.

(** *** The rules on well-formed input *)

Lemma spec_build_active (pairs : list (string * string)) :
  forall cur, (cur = None -> entry_first pairs = true) ->
              fst (spec_build pairs cur) <> NoActiveEntry.
Proof.
  induction pairs as [|[key value] rest IH]; intros cur Hcur; simpl; [discriminate|].
  simpl in Hcur.
  destruct (classify key), cur as [o|]; simpl;
    try (specialize (Hcur eq_refl); discriminate);
    try (apply IH; intros; discriminate);
    try (apply IH; exact Hcur).
  - specialize (IH (Some (new_option value)) ltac:(discriminate)).
    destruct (fst (spec_build rest (Some (new_option value)))); simpl; congruence.
  - specialize (IH (Some (new_option value)) ltac:(discriminate)).
    destruct (fst (spec_build rest (Some (new_option value)))); simpl; congruence.
  - destruct (family_supported value); [|discriminate]. apply IH. discriminate.
Qed.

Lemma spec_build_built (pairs : list (string * string)) :
  forall cur, families_supported pairs = true ->
              (cur = None -> entry_first pairs = true) ->
              exists os, fst (spec_build pairs cur) = Built os /\
                         map name os = map name (option_list cur) ++ map Some (entry_names pairs).
Proof.
  induction pairs as [|[key value] rest IH]; intros cur Hsup Hcur; simpl.
  - exists (option_list cur). by rewrite app_nil_r.
  - simpl in Hcur, Hsup.
    destruct (classify key) eqn:Hk.
    + destruct (IH (Some (new_option value)) Hsup ltac:(discriminate)) as (os & Hos & Hnames).
      exists (option_list cur ++ os). simpl. rewrite Hos. split; [reflexivity|].
      rewrite map_app, Hnames. reflexivity.
    + apply andb_true_iff in Hsup as [Hv Hrest].
      destruct cur as [o|]; [|specialize (Hcur eq_refl); discriminate].
      rewrite Hv.
      destruct (IH (Some (resolve_family value o)) Hrest ltac:(discriminate)) as (os & Hos & Hnames).
      exists os. split; [exact Hos|exact Hnames].
    + destruct cur as [o|]; [|specialize (Hcur eq_refl); discriminate].
      destruct (IH (Some (set_kernel_path (strcpya value) o)) Hsup ltac:(discriminate))
        as (os & Hos & Hnames).
      exists os. split; [exact Hos|exact Hnames].
    + destruct cur as [o|]; [|specialize (Hcur eq_refl); discriminate].
      destruct (IH (Some (set_initrd_path (strcpya value) o)) Hsup ltac:(discriminate))
        as (os & Hos & Hnames).
      exists os. split; [exact Hos|exact Hnames].
    + destruct cur as [o|]; [|specialize (Hcur eq_refl); discriminate].
      destruct (IH (Some (set_boot_folder (strcpya value) o)) Hsup ltac:(discriminate))
        as (os & Hos & Hnames).
      exists os. split; [exact Hos|exact Hnames].
    + destruct (IH cur Hsup Hcur) as (os & Hos & Hnames).
      exists os. destruct cur; simpl; (split; [exact Hos|exact Hnames]).
Qed.

Lemma spec_build_unsupported (pairs : list (string * string)) :
  forall cur, families_supported pairs = false ->
              (cur = None -> entry_first pairs = true) ->
              exists key family,
                fst (spec_build pairs cur) = Unsupported family /\
                In (key, family) pairs /\ classify key = DFamily /\
                family_supported family = false /\
                last (snd (spec_build pairs cur))
                = Some (EvPrint "Distribution family %a is not supported.\n" [ArgA family]).
Proof.
  induction pairs as [|[key value] rest IH]; intros cur Hsup Hcur; simpl in *; [discriminate|].
  assert (forall cur', (cur' = None -> entry_first rest = true) ->
            families_supported rest = false ->
            exists key0 family,
              fst (spec_build rest cur') = Unsupported family /\
              ((key, value) = (key0, family) \/ In (key0, family) rest) /\
              classify key0 = DFamily /\ family_supported family = false /\
              last (snd (spec_build rest cur'))
              = Some (EvPrint "Distribution family %a is not supported.\n" [ArgA family]))
    as IH'.
  { intros cur' Hc Hs. destruct (IH cur' Hs Hc) as (k & f & ? & ? & ? & ? & ?).
    exists k, f. auto. }
  destruct (classify key) eqn:Hk.
  - destruct (IH' (Some (new_option value)) ltac:(discriminate) Hsup)
      as (k & f & Hv & Hin & Hc & Hf & Hl).
    exists k, f. simpl. rewrite Hv. auto.
  - destruct cur as [o|]; [|specialize (Hcur eq_refl); discriminate].
    destruct (family_supported value) eqn:Hv.
    + simpl in Hsup. apply (IH' (Some (resolve_family value o)) ltac:(discriminate) Hsup).
    + exists key, value. simpl. auto.
  - destruct cur as [o|]; [|specialize (Hcur eq_refl); discriminate].
    apply (IH' (Some (set_kernel_path (strcpya value) o)) ltac:(discriminate) Hsup).
  - destruct cur as [o|]; [|specialize (Hcur eq_refl); discriminate].
    apply (IH' (Some (set_initrd_path (strcpya value) o)) ltac:(discriminate) Hsup).
  - destruct cur as [o|]; [|specialize (Hcur eq_refl); discriminate].
    apply (IH' (Some (set_boot_folder (strcpya value) o)) ltac:(discriminate) Hsup).
  - destruct (IH' cur Hcur Hsup) as (k & f & Hv & Hin & Hc & Hf & Hl).
    exists k, f. unfold say. simpl. repeat split; try assumption.
    destruct (snd (spec_build rest cur)); [discriminate|]. destruct cur; exact Hl.
Qed.

(** *** The launcher *)

Lemma load_not_NULL (h : pool) (p : ptr) (c : cell) : load h p = Some c -> p <> NULL.
Proof. destruct p; [discriminate|]. discriminate. Qed.

Lemma get_next_at (p : ptr) (d : BootableLinuxDistro) (m : machine) :
  load (heap m) p = Some (CellDistro d) -> get_next p m = (Val (next d), m).
Proof. intros H. unfold get_next, read_distro, bind, ret. by rewrite H. Qed.

Lemma advance_rep (l : list (option LinuxBootOption)) (m : machine) :
  forall (i : nat) (p : ptr) (x : option LinuxBootOption),
    rep (heap m) p l -> l !! i = Some x ->
    exists q d, advance i p m = (Val q, m) /\
                load (heap m) q = Some (CellDistro d) /\
                payload_at (heap m) (bootOption d) x.
Proof.
  induction l as [|y l IH]; intros i p x Hrep Hi; [discriminate|].
  destruct Hrep as (d & Hd & Hy & Hl).
  destruct i as [|i]; simpl in *.
  - injection Hi as <-. exists p, d. auto.
  - pose proof (load_not_NULL _ _ _ Hd) as Hp.
    destruct (Nat.eqb_spec p NULL) as [|_]; [contradiction|].
    unfold bind. rewrite (get_next_at p d m Hd). by apply IH.
Qed.

Lemma advance_past (l : list (option LinuxBootOption)) (m : machine) :
  forall (i : nat) (p : ptr),
    rep (heap m) p l -> (length l <= i)%nat -> advance i p m = (Val NULL, m).
Proof.
  induction l as [|y l IH]; intros i p Hrep Hi; simpl in *.
  - subst p. by destruct i.
  - destruct Hrep as (d & Hd & Hy & Hl).
    destruct i as [|i]; [lia|]. simpl.
    pose proof (load_not_NULL _ _ _ Hd) as Hp.
    destruct (Nat.eqb_spec p NULL) as [|_]; [contradiction|].
    unfold bind. rewrite (get_next_at p d m Hd). apply IH; [assumption|lia].
Qed.

Lemma find_distribution_rep (m : machine) (s : option LinuxBootOption)
    (l : list (option LinuxBootOption)) (i : nat) (x : option LinuxBootOption) :
  rep (heap m) (distributionListRoot m) (s :: l) -> l !! i = Some x ->
  exists q d, find_distribution (Z.of_nat i) m = (Val q, m) /\
              load (heap m) q = Some (CellDistro d) /\
              payload_at (heap m) (bootOption d) x.
Proof.
  intros (d0 & Hd0 & _ & Hl) Hi.
  unfold find_distribution, bind, get_root. cbv beta iota.
  rewrite (get_next_at _ d0 m Hd0), Nat2Z.id. by eapply advance_rep.
Qed.

Lemma find_distribution_past (m : machine) (s : option LinuxBootOption)
    (l : list (option LinuxBootOption)) (distribution : Z) :
  rep (heap m) (distributionListRoot m) (s :: l) -> Z.of_nat (length l) <= distribution ->
  find_distribution distribution m = (Val NULL, m).
Proof.
  intros (d0 & Hd0 & _ & Hl) Hi.
  unfold find_distribution, bind, get_root. cbv beta iota.
  rewrite (get_next_at _ d0 m Hd0). eapply advance_past; [exact Hl|lia].
Qed.

Lemma launch_reaches_image_load (params : list Z) (m : machine) (s : option LinuxBootOption)
    (l : list (option LinuxBootOption)) (i : nat) (o : LinuxBootOption)
    (kernel initrd folder : string) :
  rep (heap m) (distributionListRoot m) (s :: l) ->
  l !! i = Some (Some o) ->
  kernel_path o = Some kernel -> initrd_path o = Some initrd -> boot_folder o = Some folder ->
  exists q,
    BootLinuxWithOptions params (Z.of_nat i) m
    = chain_load (at_image_load m q (handoff_writes params kernel initrd folder)).
Proof.
  intros Hrep Hi Hk Hin Hf.
  set (m1 := with_event (write_of Enterprise_LinuxBootOptions (sized_str params)) m).
  assert (rep (heap m1) (distributionListRoot m1) (s :: l)) as Hrep1 by (by destruct m).
  destruct (find_distribution_rep m1 s l i (Some o) Hrep1 Hi) as (q & d & Hfind & Hq & Hnn & Ho).
  exists q. unfold BootLinuxWithOptions, persist at 1, on_string, efi_set_variable, bind, ret, emit.
  cbv beta iota. fold (sized_str params). fold (size_with_nul (sized_str params)).
  fold (write_of Enterprise_LinuxBootOptions (sized_str params)). fold m1.
  rewrite Hfind. unfold get_bootOption, read_distro, bind, ret. rewrite Hq.
  destruct (Nat.eqb_spec (bootOption d) NULL) as [|_]; [contradiction|].
  unfold read_option. cbn [heap with_access]. rewrite Ho.
  unfold persist, on_string, efi_set_variable, bind, ret, emit. rewrite Hk, Hin, Hf.
  f_equal. destruct m as [h rt ps t a].
  unfold at_image_load, handoff_writes, write_of, size_with_nul, m1, with_event, with_access.
  cbn. rewrite <- !app_assoc. reflexivity.
Qed.

Ltac run_chain_load :=
  unfold chain_load, FileDevicePath, AllocateZeroPool, LoadImage, StartImage, DisplayErrorText,
    Print, Stall, FreePool, emit, bind, ret, after_chain_load, device_path_of;
  cbn [heap with_heap with_event load store trace distributionListRoot
       preset_options_array payload_accesses].

Lemma chain_load_load_failure (m : machine) :
  EFI_ERROR (LoadImage_status fw) = true ->
  chain_load m =
  (Val EFI_LOAD_ERROR,
   after_chain_load m CellFreed
     [EvLoadImage (device_path_of m);
      EvDisplayErrorText "Error loading image: ";
      EvPrint "%r\n" [ArgR (LoadImage_status fw)];
      EvStall 3000000]).
Proof.
  intros Hload. run_chain_load. rewrite Hload.
  cbn [heap with_heap with_event load store trace distributionListRoot
       preset_options_array payload_accesses].
  rewrite lookup_mid, insert_mid. unfold with_heap, with_event. cbn.
  rewrite <- !app_assoc. reflexivity.
Qed.

Lemma chain_load_start_failure (m : machine) (err : EFI_STATUS) :
  EFI_ERROR (LoadImage_status fw) = false ->
  StartImage_status fw = Some err ->
  EFI_ERROR err = true ->
  chain_load m =
  (Val EFI_LOAD_ERROR,
   after_chain_load m CellFreed
     [EvLoadImage (device_path_of m);
      EvClearScreen;
      EvStartImage;
      EvDisplayErrorText "Error starting image: ";
      EvPrint "%r\n" [ArgR err];
      EvStall 3000000]).
Proof.
  intros Hload Hstart Herr. run_chain_load. rewrite Hload, Hstart.
  cbn [heap with_heap with_event load store trace distributionListRoot
       preset_options_array payload_accesses].
  rewrite Herr.
  cbn [heap with_heap with_event load store trace distributionListRoot
       preset_options_array payload_accesses].
  rewrite lookup_mid, insert_mid. unfold with_heap, with_event. cbn.
  rewrite <- !app_assoc. reflexivity.
Qed.

Lemma chain_load_returns (m : machine) (err : EFI_STATUS) :
  EFI_ERROR (LoadImage_status fw) = false ->
  StartImage_status fw = Some err ->
  EFI_ERROR err = false ->
  chain_load m =
  (Val EFI_SUCCESS,
   after_chain_load m CellDevicePath
     [EvLoadImage (device_path_of m); EvClearScreen; EvStartImage; EvStall 3000000]).
Proof.
  intros Hload Hstart Herr. run_chain_load. rewrite Hload, Hstart.
  cbn [heap with_heap with_event load store trace distributionListRoot
       preset_options_array payload_accesses].
  rewrite Herr. unfold with_event. cbn. rewrite <- !app_assoc. reflexivity.
Qed.

Lemma chain_load_handoff (m : machine) :
  EFI_ERROR (LoadImage_status fw) = false ->
  StartImage_status fw = None ->
  chain_load m =
  (Handoff,
   after_chain_load m CellDevicePath
     [EvLoadImage (device_path_of m); EvClearScreen; EvStartImage]).
Proof.
  intros Hload Hstart. run_chain_load. rewrite Hload, Hstart.
  unfold with_event. cbn. rewrite <- !app_assoc. reflexivity.
Qed.

(** Whatever the firmware answers, [chain_load] asks for the image load
    first, once, and writes no variable. *)
Lemma chain_load_trace (m : machine) :
  exists tl, trace (snd (chain_load m)) = trace m ++ EvLoadImage (device_path_of m) :: tl /\
             List.filter is_set_variable tl = [] /\ List.filter is_load_image tl = [].
Proof.
  destruct (EFI_ERROR (LoadImage_status fw)) eqn:Hload.
  - rewrite chain_load_load_failure by assumption. eexists. split; [reflexivity|]. split; reflexivity.
  - destruct (StartImage_status fw) as [err|] eqn:Hstart.
    + destruct (EFI_ERROR err) eqn:Herr.
      * erewrite chain_load_start_failure by eassumption.
        eexists. split; [reflexivity|]. split; reflexivity.
      * erewrite chain_load_returns by eassumption.
        eexists. split; [reflexivity|]. split; reflexivity.
    + rewrite chain_load_handoff by assumption. eexists. split; [reflexivity|]. split; reflexivity.
Qed.

Lemma size_with_nul_exact (buf : string) :
  Z.of_nat (strlena buf) + 1 < UINTN_modulus ->
  size_with_nul buf = Z.of_nat (strlena buf) + 1.
Proof.
  intros H. unfold size_with_nul, to_UINTN. rewrite Z.mul_1_l.
  apply Z.mod_small. lia.
Qed.

Lemma take_buffer_bytes (buf : string) :
  take (S (strlena buf)) (buffer_bytes buf)
  = String.list_ascii_of_string (strcpya buf) ++ [Ascii.zero].
Proof.
  unfold buffer_bytes. induction buf as [|c r IH]; simpl; [reflexivity|].
  destruct (is_nul c) eqn:E; simpl.
  - apply is_nul_true in E. subst c. by rewrite take_0.
  - f_equal. exact IH.
Qed.

Lemma stored_bytes_exact (buf : string) :
  Z.of_nat (strlena buf) + 1 < UINTN_modulus ->
  stored_bytes buf (size_with_nul buf)
  = String.list_ascii_of_string (strcpya buf) ++ [Ascii.zero].
Proof.
  intros H. unfold stored_bytes. rewrite (size_with_nul_exact buf H).
  replace (Z.to_nat (Z.of_nat (strlena buf) + 1)) with (S (strlena buf)) by lia.
  apply take_buffer_bytes.
Qed.

(** C5. A launch of a valid index whose option has its three paths writes
    exactly four firmware variables (extra kernel parameters, kernel path,
    initrd path, boot folder) and only then asks for the image load; each
    write hands over the string's bytes and the terminating NUL, that is
    the string length plus one bytes. *)
Theorem launch_writes_four_variables (params : list Z) (m : machine)
    (s : option LinuxBootOption) (l : list (option LinuxBootOption)) (i : nat)
    (o : LinuxBootOption) (kernel initrd folder : string) :
  rep (heap m) (distributionListRoot m) (s :: l) ->
  l !! i = Some (Some o) ->
  kernel_path o = Some kernel -> initrd_path o = Some initrd -> boot_folder o = Some folder ->
  Forall (fun buf => Z.of_nat (strlena buf) + 1 < UINTN_modulus)
         [sized_str params; kernel; initrd; folder] ->
  let res := BootLinuxWithOptions params (Z.of_nat i) m in
  let writes := handoff_writes params kernel initrd folder in
  exists tl,
    trace (snd res) = trace m ++ writes ++ EvLoadImage (device_path_of m) :: tl /\
    variable_writes (writes ++ EvLoadImage (device_path_of m) :: tl) = writes /\
    length writes = 4%nat /\
    Forall (fun buf =>
              size_with_nul buf = Z.of_nat (strlena buf) + 1 /\
              stored_bytes buf (size_with_nul buf)
              = String.list_ascii_of_string (strcpya buf) ++ [Ascii.zero])
           [sized_str params; kernel; initrd; folder].
Proof.
  intros Hrep Hi Hk Hin Hf Hsizes res writes.
  destruct (launch_reaches_image_load params m s l i o kernel initrd folder Hrep Hi Hk Hin Hf)
    as (q & Hrun).
  destruct (chain_load_trace (at_image_load m q writes)) as (tl & Htl & Hnow & _).
  subst res writes. exists tl. repeat split.
  - rewrite Hrun, Htl. unfold at_image_load, device_path_of. simpl.
    by rewrite <- app_assoc.
  - unfold variable_writes. rewrite List.filter_app. simpl. rewrite Hnow. reflexivity.
  - eapply Forall_impl; [exact Hsizes|]. simpl. intros buf Hbuf.
    split; [by apply size_with_nul_exact|by apply stored_bytes_exact].
Qed.

(** C10. In a launch that reaches the image load, the device path
    allocated for the second-stage loader is released when the launcher
    returns a failure (image load failure, image start failure) and is
    still allocated when the launch succeeds (the started image returns
    without error, or keeps control). *)
Theorem device_path_released_on_failure_only (params : list Z) (m : machine)
    (s : option LinuxBootOption) (l : list (option LinuxBootOption)) (i : nat)
    (o : LinuxBootOption) (kernel initrd folder : string) :
  rep (heap m) (distributionListRoot m) (s :: l) ->
  l !! i = Some (Some o) ->
  kernel_path o = Some kernel -> initrd_path o = Some initrd -> boot_folder o = Some folder ->
  let res := BootLinuxWithOptions params (Z.of_nat i) m in
  let path := device_path_of m in
  load (heap m) path = None /\
  (fst res = Val EFI_LOAD_ERROR <->
   EFI_ERROR (LoadImage_status fw) = true \/
   exists err, StartImage_status fw = Some err /\ EFI_ERROR err = true) /\
  match fst res with
  | Val status =>
      if EFI_ERROR status
      then load (heap (snd res)) path = Some CellFreed
      else load (heap (snd res)) path = Some CellDevicePath
  | Handoff => load (heap (snd res)) path = Some CellDevicePath
  | Trap => False
  end.
Proof.
  intros Hrep Hi Hk Hin Hf res path.
  destruct (launch_reaches_image_load params m s l i o kernel initrd folder Hrep Hi Hk Hin Hf)
    as (q & Hrun).
  split.
  { unfold path, device_path_of. simpl. apply lookup_ge_None. lia. }
  unfold res. rewrite Hrun. clear Hrun.
  assert (forall c evs,
             load (heap (after_chain_load
                           (at_image_load m q (handoff_writes params kernel initrd folder)) c evs))
                  path = Some c) as Hcell.
  { intros c evs. unfold path, device_path_of. simpl. apply lookup_mid. }
  destruct (EFI_ERROR (LoadImage_status fw)) eqn:Hload.
  - rewrite chain_load_load_failure by assumption. cbn [fst snd]. split; [|apply Hcell].
    split; auto.
  - destruct (StartImage_status fw) as [err|] eqn:Hstart.
    + destruct (EFI_ERROR err) eqn:Herr.
      * erewrite chain_load_start_failure by eassumption. cbn [fst snd].
        split; [|apply Hcell]. split; eauto.
      * erewrite chain_load_returns by eassumption. cbn [fst snd].
        split; [|apply Hcell]. split; [discriminate|].
        intros [?|(err' & Herr' & ?)]; [discriminate|]. congruence.
    + rewrite chain_load_handoff by assumption. cbn [fst snd].
      split; [|apply Hcell]. split; [discriminate|].
      intros [?|(err' & Herr' & ?)]; discriminate.
Qed.

Lemma launch_out_of_range_run (params : list Z) (m : machine) (s : option LinuxBootOption)
    (l : list (option LinuxBootOption)) (distribution : Z) :
  rep (heap m) (distributionListRoot m) (s :: l) ->
  Z.of_nat (length l) <= distribution ->
  BootLinuxWithOptions params distribution m =
  (Trap, with_event (write_of Enterprise_LinuxBootOptions (sized_str params)) m).
Proof.
  intros Hrep Hi.
  set (m1 := with_event (write_of Enterprise_LinuxBootOptions (sized_str params)) m).
  assert (rep (heap m1) (distributionListRoot m1) (s :: l)) as Hrep1 by (by destruct m).
  unfold BootLinuxWithOptions, persist at 1, on_string, efi_set_variable, bind, ret, emit.
  cbv beta iota. fold (sized_str params). fold (size_with_nul (sized_str params)).
  fold (write_of Enterprise_LinuxBootOptions (sized_str params)). fold m1.
  rewrite (find_distribution_past m1 s l distribution Hrep1 Hi).
  reflexivity.
Qed.

(** C1 (as amended). For a store of length L and an index at or beyond L,
    the launcher writes exactly one firmware variable, the extra kernel
    parameters, which it writes before it resolves the index; it writes
    none of the kernel path, initrd path and boot folder variables, does
    not allocate and does not ask for the image load. *)
Theorem launch_out_of_range (params : list Z) (m : machine) (s : option LinuxBootOption)
    (l : list (option LinuxBootOption)) (distribution : Z) :
  rep (heap m) (distributionListRoot m) (s :: l) ->
  Z.of_nat (length l) <= distribution ->
  let res := BootLinuxWithOptions params distribution m in
  variable_writes (trace (snd res))
  = variable_writes (trace m) ++ [write_of Enterprise_LinuxBootOptions (sized_str params)] /\
  List.filter is_load_image (trace (snd res)) = List.filter is_load_image (trace m) /\
  heap (snd res) = heap m.
Proof.
  intros Hrep Hi res. unfold res.
  rewrite (launch_out_of_range_run params m s l distribution Hrep Hi).
  destruct m as [h rt ps t a]. unfold variable_writes. cbn [snd trace with_event heap].
  rewrite !List.filter_app. simpl. rewrite app_nil_r. auto.
Qed.

(** X19. On an image load failure and on an image start failure of an
    entry that has its three paths, the launcher shows the error with
    the firmware status code, stalls for three seconds and returns
    [EFI_LOAD_ERROR], having asked for the load (and the start) once and
    not again. *)
Theorem load_and_start_failures_reported (params : list Z) (m : machine)
    (s : option LinuxBootOption) (l : list (option LinuxBootOption)) (i : nat)
    (o : LinuxBootOption) (kernel initrd folder : string) :
  rep (heap m) (distributionListRoot m) (s :: l) ->
  l !! i = Some (Some o) ->
  kernel_path o = Some kernel -> initrd_path o = Some initrd -> boot_folder o = Some folder ->
  let res := BootLinuxWithOptions params (Z.of_nat i) m in
  let path := device_path_of m in
  (EFI_ERROR (LoadImage_status fw) = true ->
   fst res = Val EFI_LOAD_ERROR /\
   trace (snd res) =
   trace m ++ handoff_writes params kernel initrd folder ++
   [EvLoadImage path;
    EvDisplayErrorText "Error loading image: ";
    EvPrint "%r\n" [ArgR (LoadImage_status fw)];
    EvStall 3000000]) /\
  (forall err,
      EFI_ERROR (LoadImage_status fw) = false ->
      StartImage_status fw = Some err -> EFI_ERROR err = true ->
      fst res = Val EFI_LOAD_ERROR /\
      trace (snd res) =
      trace m ++ handoff_writes params kernel initrd folder ++
      [EvLoadImage path; EvClearScreen; EvStartImage;
       EvDisplayErrorText "Error starting image: ";
       EvPrint "%r\n" [ArgR err];
       EvStall 3000000]).
Proof.
  intros Hrep Hi Hk Hin Hf res path. subst res path.
  destruct (launch_reaches_image_load params m s l i o kernel initrd folder Hrep Hi Hk Hin Hf)
    as (q & Hrun).
  rewrite Hrun. split.
  - intros Hload. rewrite chain_load_load_failure by assumption.
    split; [reflexivity|]. simpl. by rewrite <- app_assoc.
  - intros err Hload Hstart Herr. erewrite chain_load_start_failure by eassumption.
    split; [reflexivity|]. simpl. by rewrite <- app_assoc.
Qed.

(** *** The Boot Option Store builder *)

Lemma payload_at_functional (h : pool) (q : ptr) (x y : option LinuxBootOption) :
  payload_at h q x -> payload_at h q y -> x = y.
Proof.
  destruct x as [o|], y as [o'|]; simpl; try tauto; try congruence.
  intros [_ H] [_ H']. congruence.
Qed.

Lemma rep_functional (h : pool) (l1 : list (option LinuxBootOption)) :
  forall (p : ptr) (l2 : list (option LinuxBootOption)), rep h p l1 -> rep h p l2 -> l1 = l2.
Proof.
  induction l1 as [|x l1 IH]; intros p [|y l2]; simpl.
  - reflexivity.
  - intros -> (d & Hd & _). discriminate.
  - intros (d & Hd & _) ->. discriminate.
  - intros (d & Hd & Hx & Hl) (d' & Hd' & Hy & Hl').
    assert (d' = d) as -> by congruence.
    f_equal; [by eapply payload_at_functional|by eapply IH].
Qed.

Lemma is_store_functional (h : pool) (root : ptr) (os1 os2 : list LinuxBootOption) :
  is_store h root os1 -> is_store h root os2 -> os1 = os2.
Proof.
  unfold is_store. intros H1 H2.
  pose proof (rep_functional _ _ _ _ H1 H2) as Heq. injection Heq as Heq.
  clear H1 H2. revert os2 Heq. induction os1 as [|o os1 IH]; intros [|o' os2]; simpl; try discriminate.
  - reflexivity.
  - intros Heq. injection Heq as -> Heq. f_equal. by apply IH.
Qed.




(** C3. For a configuration whose directives all come after an [entry]
    directive and whose families all resolve, the store is a sentinel
    head without payload followed by one node per [entry] directive, in
    file order, each with the name given by its directive and the fields
    the processing rules give it; index 0 of the launcher is the node
    right after the sentinel and index [i] is the node of the [i]-th
    entry. *)
Theorem well_formed_config_builds_store (file : string) (m : machine) :
  let pairs := config_pairs (snd (FileRead fw file)) in
  entry_first pairs = true ->
  families_supported pairs = true ->
  exists m' os sentinel,
    ReadConfigurationFile file m = (Val tt, m') /\
    is_store (heap m') (distributionListRoot m') os /\
    fst (spec_build pairs None) = Built os /\
    length os = length (entry_names pairs) /\
    map name os = map Some (entry_names pairs) /\
    load (heap m') (distributionListRoot m') = Some (CellDistro sentinel) /\
    bootOption sentinel = NULL /\
    find_distribution 0 m' = (Val (next sentinel), m') /\
    forall i o, os !! i = Some o ->
      exists q d, find_distribution (Z.of_nat i) m' = (Val q, m') /\
                  load (heap m') q = Some (CellDistro d) /\
                  load (heap m') (bootOption d) = Some (CellOption o).
Proof.
  intros pairs Hfirst Hsup.
  destruct (spec_build_built pairs None Hsup (fun _ => Hfirst)) as (os & Hv & Hnames).
  pose proof (ReadConfigurationFile_refines file m) as Href. cbv zeta in Href.
  fold pairs in Href. rewrite Hv in Href.
  destruct Href as (_ & _ & _ & Hres & Hroot & _ & Hstore).
  destruct (ReadConfigurationFile file m) as [out m']. cbn [fst snd] in *. subst out.
  rewrite <- Hroot in Hstore.
  pose proof Hstore as (sentinel & Hsent & Hnull & Hrest).
  exists m', os, sentinel. simpl in Hnames, Hnull. repeat split; try assumption.
  - rewrite <- (length_map name os), Hnames, length_map. reflexivity.
  - unfold find_distribution, bind, get_root. cbv beta iota.
    by rewrite (get_next_at _ sentinel m' Hsent).
  - intros i o Hi.
    destruct (find_distribution_rep m' None (map Some os) i (Some o) Hstore)
      as (q & d & Hfind & Hq & _ & Ho).
    { by rewrite list_lookup_fmap, Hi. }
    exists q, d. auto.
Qed.

(** C8. Two runs of the parser on the same file, from any two machines
    (pool contents, globals and traces may differ), end the same way and
    show the same messages; when they return, the stores they leave hold
    the same options in the same order, and both are invalidated or
    neither is. *)
Theorem parse_is_deterministic (file : string) (m1 m2 : machine) :
  let res1 := ReadConfigurationFile file m1 in
  let res2 := ReadConfigurationFile file m2 in
  fst res1 = fst res2 /\
  (exists evs, trace (snd res1) = trace m1 ++ evs /\ trace (snd res2) = trace m2 ++ evs) /\
  (distributionListRoot (snd res1) = NULL <-> distributionListRoot (snd res2) = NULL) /\
  (fst res1 = Val tt -> distributionListRoot (snd res1) <> NULL ->
   exists os,
     is_store (heap (snd res1)) (distributionListRoot (snd res1)) os /\
     is_store (heap (snd res2)) (distributionListRoot (snd res2)) os /\
     forall os1 os2,
       is_store (heap (snd res1)) (distributionListRoot (snd res1)) os1 ->
       is_store (heap (snd res2)) (distributionListRoot (snd res2)) os2 ->
       os1 = os2).
Proof.
  intros res1 res2.
  pose proof (ReadConfigurationFile_refines file m1) as H1.
  pose proof (ReadConfigurationFile_refines file m2) as H2.
  cbv zeta in H1, H2. fold res1 in H1. fold res2 in H2.
  destruct H1 as (Ht1 & _ & _ & Hv1). destruct H2 as (Ht2 & _ & _ & Hv2).
  destruct (fst (spec_build (config_pairs (snd (FileRead fw file))) None)) as [os|f|].
  - destruct Hv1 as (Ho1 & Hr1 & _ & Hs1). destruct Hv2 as (Ho2 & Hr2 & _ & Hs2).
    rewrite <- Hr1 in Hs1. rewrite <- Hr2 in Hs2.
    split; [congruence|]. split; [eauto|]. split.
    + rewrite Hr1, Hr2. split; discriminate.
    + intros _ _. exists os. split; [exact Hs1|]. split; [exact Hs2|].
      intros os1 os2 Hos1 Hos2.
      rewrite (is_store_functional _ _ _ _ Hos1 Hs1).
      by rewrite (is_store_functional _ _ _ _ Hos2 Hs2).
  - destruct Hv1 as (Ho1 & Hr1). destruct Hv2 as (Ho2 & Hr2).
    split; [congruence|]. split; [eauto|]. split; [by rewrite Hr1, Hr2|].
    intros _ Hne. contradiction.
  - destruct Hv1 as (Ho1 & Hr1). destruct Hv2 as (Ho2 & Hr2).
    split; [congruence|]. split; [eauto|]. split.
    + rewrite Hr1, Hr2. split; discriminate.
    + intros Hval. congruence.
Qed.

(** C9. When every [family], [kernel], [initrd] or [root] directive has an
    [entry] directive before it, the builder returns without ever
    dereferencing a null payload, and no access to a [bootOption] field
    that it makes is to the sentinel head: the node it allocates first, at
    the address after the pool it starts from, which is the store root it
    leaves unless it invalidates the store. *)
Theorem sentinel_payload_never_accessed (file : string) (m : machine) :
  entry_first (config_pairs (snd (FileRead fw file))) = true ->
  let res := ReadConfigurationFile file m in
  let sentinel := S (length (heap m)) in
  fst res = Val tt /\
  (distributionListRoot (snd res) = sentinel \/ distributionListRoot (snd res) = NULL) /\
  exists accessed,
    payload_accesses (snd res) = payload_accesses m ++ accessed /\
    ~ In sentinel accessed.
Proof.
  intros Hfirst res sentinel.
  pose proof (ReadConfigurationFile_refines file m) as Href. cbv zeta in Href.
  fold res in Href. destruct Href as (_ & _ & (lg & Hlg & Hall) & Hv).
  pose proof (spec_build_active _ None (fun _ => Hfirst)) as Hactive.
  assert (fst res = Val tt) as Hval.
  { destruct (fst (spec_build (config_pairs (snd (FileRead fw file))) None));
      [tauto|tauto|contradiction]. }
  split; [exact Hval|]. split.
  { destruct (fst (spec_build (config_pairs (snd (FileRead fw file))) None));
      [left|right|contradiction]; tauto. }
  exists lg. split; [exact Hlg|].
  intros Hin. assert (fst res <> Trap) as Hne by (rewrite Hval; discriminate).
  specialize (Hall Hne). rewrite Forall_forall in Hall.
  apply list_elem_of_In in Hin. specialize (Hall _ Hin). unfold sentinel in Hall. lia.
Qed.

(** *** Overrides *)

Lemma last_write_head (d : directive) (rest : list (string * string)) :
  is_override d = true ->
  forall (o : LinuxBootOption) (os : list LinuxBootOption),
    last_write d rest = true ->
    fst (spec_build rest (Some o)) = Built os ->
    exists o' os', os = o' :: os' /\ overridden_field d o' = overridden_field d o.
Proof.
  intros Hd. induction rest as [|[k v] rest IH]; intros o os Hlast Hb; simpl in *.
  - injection Hb as <-. eauto.
  - destruct (classify k) eqn:Hk; simpl in *.
    + destruct (fst (spec_build rest (Some (new_option v)))); try discriminate.
      injection Hb as <-. eauto.
    + discriminate.
    + apply andb_true_iff in Hlast as [Hne Hlast].
      destruct (IH _ _ Hlast Hb) as (o' & os' & -> & Hfield).
      exists o', os'. split; [reflexivity|]. rewrite Hfield. by destruct d.
    + apply andb_true_iff in Hlast as [Hne Hlast].
      destruct (IH _ _ Hlast Hb) as (o' & os' & -> & Hfield).
      exists o', os'. split; [reflexivity|]. rewrite Hfield. by destruct d.
    + apply andb_true_iff in Hlast as [Hne Hlast].
      destruct (IH _ _ Hlast Hb) as (o' & os' & -> & Hfield).
      exists o', os'. split; [reflexivity|]. rewrite Hfield. by destruct d.
    + apply andb_true_iff in Hlast as [Hne Hlast]. by apply IH.
Qed.

Lemma override_position (key value : string) (rest : list (string * string))
    (pre : list (string * string)) :
  is_override (classify key) = true ->
  last_write (classify key) rest = true ->
  forall (cur : option LinuxBootOption) (os : list LinuxBootOption),
    fst (spec_build (pre ++ (key, value) :: rest) cur) = Built os ->
    exists o,
      os !! (length (option_list cur) + length (entry_names pre) - 1)%nat = Some o /\
      overridden_field (classify key) o = Some (strcpya value).
Proof.
  intros Hd Hlast. induction pre as [|[k v] pre IH]; intros cur os Hb; simpl in Hb.
  - destruct (classify key) eqn:Hk; try discriminate; destruct cur as [o|]; try discriminate;
      match type of Hlast with
      | last_write ?d rest = true =>
          destruct (last_write_head d rest Hd _ _ Hlast Hb) as (o' & os' & -> & Hf)
      end;
      exists o'; (split; [reflexivity|]); rewrite Hf; reflexivity.
  - simpl entry_names.
    destruct (classify k) eqn:Hk'; simpl in Hb.
    + destruct (fst (spec_build (pre ++ (key, value) :: rest) (Some (new_option v))))
        as [os'| |] eqn:Hinner; try discriminate.
      injection Hb as <-.
      destruct (IH _ _ Hinner) as (o & Ho & Hf). exists o. split; [|exact Hf].
      simpl in Ho. rewrite Nat.sub_0_r in Ho.
      rewrite lookup_app_r by (simpl; lia).
      rewrite <- Ho. f_equal. simpl. lia.
    + destruct cur as [o0|]; [|discriminate].
      destruct (family_supported v); [|discriminate]. by apply (IH _ _ Hb).
    + destruct cur as [o0|]; [|discriminate]. by apply (IH _ _ Hb).
    + destruct cur as [o0|]; [|discriminate]. by apply (IH _ _ Hb).
    + destruct cur as [o0|]; [|discriminate]. by apply (IH _ _ Hb).
    + assert (fst (spec_build (pre ++ (key, value) :: rest) cur) = Built os) as Hb'
        by (by destruct cur).
      by apply (IH _ _ Hb').
Qed.

(** C4. A [kernel], [initrd] or [root] directive overrides the field of
    the active entry whatever set it before, a [family] directive
    included: when no later directive of the same entry writes that field
    again, the entry in the final store holds the value given by the
    directive. *)
Theorem manual_override_wins (file : string) (m : machine)
    (pre rest : list (string * string)) (key value : string) :
  let pairs := config_pairs (snd (FileRead fw file)) in
  pairs = pre ++ (key, value) :: rest ->
  is_override (classify key) = true ->
  last_write (classify key) rest = true ->
  entry_first pairs = true ->
  families_supported pairs = true ->
  exists m' os o,
    ReadConfigurationFile file m = (Val tt, m') /\
    is_store (heap m') (distributionListRoot m') os /\
    os !! (length (entry_names pre) - 1)%nat = Some o /\
    overridden_field (classify key) o = Some (strcpya value).
Proof.
  intros pairs Hpairs Hd Hlast Hfirst Hsup.
  destruct (spec_build_built pairs None Hsup (fun _ => Hfirst)) as (os & Hv & _).
  pose proof (ReadConfigurationFile_refines file m) as Href. cbv zeta in Href.
  fold pairs in Href. rewrite Hv in Href.
  destruct Href as (_ & _ & _ & Hres & Hroot & _ & Hstore).
  destruct (ReadConfigurationFile file m) as [out m']. cbn [fst snd] in *. subst out.
  rewrite <- Hroot in Hstore. rewrite Hpairs in Hv.
  destruct (override_position key value rest pre Hd Hlast None os Hv) as (o & Ho & Hf).
  exists m', os, o. auto.
Qed.

(** ** Further properties of the builder *)

(** *** Keys *)

Lemma char_code_inj (a b : ascii) : char_code a = char_code b -> a = b.
Proof.
  unfold char_code. intros H.
  rewrite <- (Ascii.ascii_N_embedding a), <- (Ascii.ascii_N_embedding b).
  f_equal. lia.
Qed.

Lemma strcmpa_nil (s2 : string) :
  strcmpa "" s2 = 0 - char_code (deref_char s2).
Proof. reflexivity. Qed.

Lemma strcmpa_cons (c1 : ascii) (r1 s2 : string) :
  strcmpa (String c1 r1) s2 =
  if is_nul c1 then 0 - char_code (deref_char s2)
  else if Ascii.eqb c1 (deref_char s2)
       then strcmpa r1 (match s2 with EmptyString => EmptyString | String _ r2 => r2 end)
       else char_code c1 - char_code (deref_char s2).
Proof. reflexivity. Qed.

Lemma strcpya_empty (s : string) : strcpya s = "" <-> deref_char s = Ascii.zero.
Proof.
  destruct s as [|c r]; simpl; [split; reflexivity|].
  destruct (is_nul c) eqn:E.
  - apply is_nul_true in E. split; intros _; [exact E|reflexivity].
  - split; [discriminate|]. intros H. apply is_nul_true in H. congruence.
Qed.

(** [strcmpa] returns zero exactly on equal C strings. *)
Lemma strcmpa_zero (s1 : string) :
  forall s2, strcmpa s1 s2 = 0 <-> strcpya s1 = strcpya s2.
Proof.
  assert (forall s2, 0 - char_code (deref_char s2) = 0 <-> "" = strcpya s2) as Hend.
  { intros s2. transitivity (char_code (deref_char s2) = 0); [lia|].
    rewrite char_code_zero, <- strcpya_empty. split; congruence. }
  induction s1 as [|c1 r1 IH]; intros s2.
  - rewrite strcmpa_nil. apply Hend.
  - rewrite strcmpa_cons. cbn [strcpya]. destruct (is_nul c1) eqn:E1; [apply Hend|].
    assert (c1 <> Ascii.zero) as Hc1 by (rewrite <- is_nul_true; congruence).
    destruct (Ascii.eqb_spec c1 (deref_char s2)) as [Heq|Hne].
    + destruct s2 as [|c2 r2]; cbn [deref_char] in Heq; [contradiction|]. subst c2.
      cbn [strcpya]. rewrite E1, IH. split; [congruence|]. intros H. by injection H.
    + split.
      * intros H. assert (char_code c1 = char_code (deref_char s2)) as Hc by lia.
        apply char_code_inj in Hc. contradiction.
      * destruct s2 as [|c2 r2]; cbn [strcpya deref_char] in *; [discriminate|].
        destruct (is_nul c2); [discriminate|]. intros H. injection H as H _. contradiction.
Qed.

(** The keys the loop treats as unrecognised are those whose C string is
    none of the five keywords, compared as [strcmpa] does: byte for byte. *)
Lemma classify_other (key : string) :
  classify key = DOther <->
  ~ In (strcpya key) ["entry"; "family"; "kernel"; "initrd"; "root"].
Proof using Type.
  unfold classify.
  assert (forall kw, strcpya kw = kw ->
            (strcmpa kw key =? 0) = true <-> strcpya key = kw) as Hkw.
  { intros kw Hcopy. rewrite Z.eqb_eq, strcmpa_zero, Hcopy. split; congruence. }
  pose proof (Hkw "entry" eq_refl) as H1. pose proof (Hkw "family" eq_refl) as H2.
  pose proof (Hkw "kernel" eq_refl) as H3. pose proof (Hkw "initrd" eq_refl) as H4.
  pose proof (Hkw "root" eq_refl) as H5.
  destruct (strcmpa "entry" key =? 0);
    [split; [discriminate|]; intros Hn; exfalso; apply Hn;
     rewrite (proj1 H1 eq_refl); simpl; auto 10|].
  destruct (strcmpa "family" key =? 0);
    [split; [discriminate|]; intros Hn; exfalso; apply Hn;
     rewrite (proj1 H2 eq_refl); simpl; auto 10|].
  destruct (strcmpa "kernel" key =? 0);
    [split; [discriminate|]; intros Hn; exfalso; apply Hn;
     rewrite (proj1 H3 eq_refl); simpl; auto 10|].
  destruct (strcmpa "initrd" key =? 0);
    [split; [discriminate|]; intros Hn; exfalso; apply Hn;
     rewrite (proj1 H4 eq_refl); simpl; auto 10|].
  destruct (strcmpa "root" key =? 0);
    [split; [discriminate|]; intros Hn; exfalso; apply Hn;
     rewrite (proj1 H5 eq_refl); simpl; auto 10|].
  split; [intros _ Hin|reflexivity]. simpl in Hin.
  destruct Hin as [H|[H|[H|[H|[H|[]]]]]]; symmetry in H;
    [apply H1 in H|apply H2 in H|apply H3 in H|apply H4 in H|apply H5 in H];
    discriminate.
Qed.

(** The message for a key that is none of the five keywords. *)
Definition report_unrecognised (key : string) : event :=
  EvPrint "Unrecognized configuration option: %a.\n" [ArgA key].

(** The keys of the pairs that are none of the five keywords, in order. *)
Fixpoint unrecognised (pairs : list (string * string)) : list string :=
  match pairs with
  | [] => []
  | (key, _) :: rest =>
      match classify key with
      | DOther => key :: unrecognised rest
      | _ => unrecognised rest
      end
  end.

Definition recognised (p : string * string) : bool :=
  negb (directive_eqb (classify (fst p)) DOther).

Definition is_freed (c : cell) : bool :=
  match c with
  | CellFreed => true
  | _ => false
  end.

(** The number of pool cells that were handed back with [FreePool]. *)
Definition freed_cells (h : pool) : nat := length (List.filter is_freed h).

(** X1. A key is matched against the five keywords as a C string, byte for
    byte: no case folding, no trimming.  For a key that is none of them
    the loop only prints the message that names the key and goes on to
    the next pair with the same cursor; pool memory, the store root and
    the options are left as they were. *)
Theorem unknown_key_only_reported (key value : string) (rest : list (string * string))
    (conductor : ptr) (m : machine) :
  ~ In (strcpya key) ["entry"; "family"; "kernel"; "initrd"; "root"] ->
  config_loop ((key, value) :: rest) conductor m
  = config_loop rest conductor (with_event (report_unrecognised key) m).
Proof.
  intros Hkey. apply classify_other in Hkey.
  rewrite config_loop_cons, Hkey. reflexivity.
Qed.

(** *** Directives before the first entry *)

(** The keys that are no keywords at the head of the pairs, up to the
    first keyword. *)
Fixpoint leading_unrecognised (pairs : list (string * string)) : list string :=
  match pairs with
  | [] => []
  | (key, _) :: rest =>
      match classify key with
      | DOther => key :: leading_unrecognised rest
      | _ => []
      end
  end.

Lemma spec_build_no_entry_shown (pairs : list (string * string)) :
  entry_first pairs = false ->
  snd (spec_build pairs None) = map report_unrecognised (leading_unrecognised pairs).
Proof.
  induction pairs as [|[key value] rest IH]; simpl; [discriminate|].
  destruct (classify key); simpl; try discriminate; try reflexivity.
  intros Hfirst. f_equal. by apply IH.
Qed.

Lemma spec_build_no_entry (pairs : list (string * string)) :
  entry_first pairs = false -> fst (spec_build pairs None) = NoActiveEntry.
Proof.
  induction pairs as [|[key value] rest IH]; simpl; [discriminate|].
  destruct (classify key); simpl; try discriminate; try reflexivity. exact IH.
Qed.

(** X2. The builder faults (it reads the payload of the sentinel head,
    a null pointer) exactly when a [family], [kernel], [initrd] or [root]
    directive comes before every [entry] directive; otherwise it returns.
    When it faults the store root is left at the sentinel head it
    allocated, not null, and nothing shown names the directive: what was
    shown is the read error, if any, and the messages for the keys that
    are no keywords in front of the directive. *)
Theorem directive_before_entry_faults (file : string) (m : machine) :
  let read := FileRead fw file in
  let pairs := config_pairs (snd read) in
  let res := ReadConfigurationFile file m in
  (fst res = Trap <-> entry_first pairs = false) /\
  (fst res = Val tt <-> entry_first pairs = true) /\
  (fst res = Trap ->
   distributionListRoot (snd res) = S (length (heap m)) /\
   trace (snd res)
   = trace m ++ read_error (fst read)
       ++ map report_unrecognised (leading_unrecognised pairs)).
Proof.
  intros read pairs res.
  pose proof (ReadConfigurationFile_refines file m) as Href. cbv zeta in Href.
  fold read pairs res in Href. destruct Href as (Ht & _ & _ & Hv).
  destruct (entry_first pairs) eqn:Hfirst.
  - pose proof (spec_build_active pairs None (fun _ => Hfirst)) as Hactive.
    assert (fst res = Val tt) as Hval.
    { destruct (fst (spec_build pairs None)); [tauto|tauto|contradiction]. }
    rewrite Hval. repeat split; try discriminate; reflexivity.
  - pose proof (spec_build_no_entry pairs Hfirst) as Hnone.
    rewrite Hnone in Hv. destruct Hv as [Htrap Hroot]. rewrite Htrap.
    repeat split; try discriminate; try reflexivity; try assumption.
    rewrite Ht. do 2 f_equal. by apply spec_build_no_entry_shown.
Qed.

(** *** What a build shows *)

Lemma spec_build_diagnostics (pairs : list (string * string)) :
  forall cur os,
    fst (spec_build pairs cur) = Built os ->
    snd (spec_build pairs cur) = map report_unrecognised (unrecognised pairs).
Proof.
  induction pairs as [|[key value] rest IH]; intros cur os Hb; simpl in *; [reflexivity|].
  destruct (classify key) eqn:Hk; simpl in *.
  - destruct (fst (spec_build rest (Some (new_option value)))) eqn:Hinner; try discriminate.
    by eapply IH.
  - destruct cur as [o|]; [|discriminate].
    destruct (family_supported value); [|discriminate]. by eapply IH.
  - destruct cur as [o|]; [|discriminate]. by eapply IH.
  - destruct cur as [o|]; [|discriminate]. by eapply IH.
  - destruct cur as [o|]; [|discriminate]. by eapply IH.
  - f_equal. eapply IH. by destruct cur.
Qed.

(** The verdict of the rules, read off the outcome of the builder. *)
Lemma built_verdict (file : string) (m : machine) :
  let res := ReadConfigurationFile file m in
  fst res = Val tt -> distributionListRoot (snd res) <> NULL ->
  exists os, fst (spec_build (config_pairs (snd (FileRead fw file))) None) = Built os.
Proof.
  intros res Hval Hroot.
  pose proof (ReadConfigurationFile_refines file m) as Href. cbv zeta in Href.
  fold res in Href. destruct Href as (_ & _ & _ & Hv).
  destruct (fst (spec_build (config_pairs (snd (FileRead fw file))) None)) as [os|f|].
  - by exists os.
  - destruct Hv as [_ Hnull]. contradiction.
  - destruct Hv as [Htrap _]. congruence.
Qed.

(** X3. Whenever the builder returns with a store (the root is not null),
    what it has shown is the read error, if the file read as zero bytes,
    and then one message for each key that is none of the five keywords,
    in file order: nothing else. *)
Theorem built_store_diagnostics (file : string) (m : machine) :
  let read := FileRead fw file in
  let res := ReadConfigurationFile file m in
  fst res = Val tt ->
  distributionListRoot (snd res) <> NULL ->
  trace (snd res)
  = trace m ++ read_error (fst read)
      ++ map report_unrecognised (unrecognised (config_pairs (snd read))).
Proof.
  intros read res Hval Hroot.
  destruct (built_verdict file m Hval Hroot) as [os Hos].
  pose proof (ReadConfigurationFile_refines file m) as Href. cbv zeta in Href.
  fold read res in Href. destruct Href as (Ht & _).
  rewrite Ht. do 2 f_equal. by eapply spec_build_diagnostics.
Qed.

(** *** Keys that are not keywords have no effect on the store *)

Lemma spec_build_filter (pairs : list (string * string)) :
  forall cur,
    fst (spec_build (List.filter recognised pairs) cur) = fst (spec_build pairs cur).
Proof.
  induction pairs as [|[key value] rest IH]; intros cur; [reflexivity|].
  cbn [List.filter]. unfold recognised at 1. cbn [fst].
  destruct (classify key) eqn:Hk; cbn [directive_eqb negb];
    cbn [spec_build]; rewrite Hk; cbn [fst snd say]; try apply IH;
    try (destruct cur as [o|]; [apply IH|reflexivity]).
  - by rewrite IH.
  - destruct cur as [o|]; [|reflexivity].
    destruct (family_supported value); [apply IH|reflexivity].
Qed.

(** X4. Pairs whose key is none of the five keywords do not change what
    is built: a file and the same file without those pairs end the same
    way, both leave the root null or neither does, and when the builder
    returns, the stores hold the same options. *)
Theorem unknown_keys_do_not_change_store (file1 file2 : string) (m1 m2 : machine) :
  config_pairs (snd (FileRead fw file2))
  = List.filter recognised (config_pairs (snd (FileRead fw file1))) ->
  let res1 := ReadConfigurationFile file1 m1 in
  let res2 := ReadConfigurationFile file2 m2 in
  fst res1 = fst res2 /\
  (distributionListRoot (snd res1) = NULL <-> distributionListRoot (snd res2) = NULL) /\
  (fst res1 = Val tt ->
   forall os,
     is_store (heap (snd res1)) (distributionListRoot (snd res1)) os <->
     is_store (heap (snd res2)) (distributionListRoot (snd res2)) os).
Proof.
  intros Hpairs res1 res2.
  pose proof (ReadConfigurationFile_refines file1 m1) as H1.
  pose proof (ReadConfigurationFile_refines file2 m2) as H2.
  cbv zeta in H1, H2. fold res1 in H1. fold res2 in H2.
  rewrite Hpairs, spec_build_filter in H2.
  destruct H1 as (_ & _ & _ & Hv1). destruct H2 as (_ & _ & _ & Hv2).
  destruct (fst (spec_build (config_pairs (snd (FileRead fw file1))) None)) as [os0|f|].
  - destruct Hv1 as (Ho1 & Hr1 & _ & Hs1). destruct Hv2 as (Ho2 & Hr2 & _ & Hs2).
    rewrite <- Hr1 in Hs1. rewrite <- Hr2 in Hs2.
    split; [congruence|]. split; [rewrite Hr1, Hr2; split; discriminate|].
    intros _ os. split; intros Hos.
    + by rewrite (is_store_functional _ _ _ _ Hos Hs1).
    + by rewrite (is_store_functional _ _ _ _ Hos Hs2).
  - destruct Hv1 as (Ho1 & Hr1). destruct Hv2 as (Ho2 & Hr2).
    split; [congruence|]. split; [by rewrite Hr1, Hr2|].
    intros _ os. rewrite Hr1, Hr2. unfold is_store. simpl.
    split; intros (d & Hd & _); discriminate.
  - destruct Hv1 as (Ho1 & Hr1). destruct Hv2 as (Ho2 & Hr2).
    split; [congruence|]. split; [rewrite Hr1, Hr2; split; discriminate|].
    intros Hval. congruence.
Qed.

(** *** A family directive after manual directives *)

(** With nothing but keys that are no keywords up to the next [entry]
    directive, the active option is stored as it is. *)
Lemma spec_build_head (rest : list (string * string)) :
  forall (o : LinuxBootOption) (os : list LinuxBootOption),
    entry_first rest = true ->
    fst (spec_build rest (Some o)) = Built os ->
    exists os', os = o :: os'.
Proof.
  induction rest as [|[k v] rest IH]; intros o os Hrest Hb; simpl in *.
  - injection Hb as <-. eauto.
  - destruct (classify k); simpl in *; try discriminate.
    + destruct (fst (spec_build rest (Some (new_option v)))); try discriminate.
      injection Hb as <-. eauto.
    + by apply IH.
Qed.

(** The options of the pairs [pre] come first; the rest is built from the
    entry that is active after [pre]. *)
Lemma spec_build_split (pre tail : list (string * string)) :
  forall (cur : option LinuxBootOption) (os : list LinuxBootOption),
    fst (spec_build (pre ++ tail) cur) = Built os ->
    exists cur' os1 os2,
      os = os1 ++ os2 /\
      fst (spec_build tail cur') = Built os2 /\
      (length os1 + length (option_list cur')
       = length (option_list cur) + length (entry_names pre))%nat.
Proof.
  induction pre as [|[k v] pre IH]; intros cur os Hb.
  - exists cur, [], os. simpl. repeat split; [exact Hb|lia].
  - simpl in Hb. simpl entry_names.
    destruct (classify k) eqn:Hk; simpl in Hb.
    + destruct (fst (spec_build (pre ++ tail) (Some (new_option v)))) as [os'| |] eqn:Hinner;
        try discriminate.
      injection Hb as <-.
      destruct (IH _ _ Hinner) as (cur' & os1 & os2 & -> & Htail & Hlen).
      exists cur', (option_list cur ++ os1), os2.
      rewrite <- app_assoc. repeat split; [exact Htail|].
      rewrite length_app. simpl in *. lia.
    + destruct cur as [o0|]; [|discriminate].
      destruct (family_supported v); [|discriminate].
      destruct (IH _ _ Hb) as (cur' & os1 & os2 & -> & Htail & Hlen). eauto 6.
    + destruct cur as [o0|]; [|discriminate].
      destruct (IH _ _ Hb) as (cur' & os1 & os2 & -> & Htail & Hlen). eauto 6.
    + destruct cur as [o0|]; [|discriminate].
      destruct (IH _ _ Hb) as (cur' & os1 & os2 & -> & Htail & Hlen). eauto 6.
    + destruct cur as [o0|]; [|discriminate].
      destruct (IH _ _ Hb) as (cur' & os1 & os2 & -> & Htail & Hlen). eauto 6.
    + assert (fst (spec_build (pre ++ tail) cur) = Built os) as Hb' by (by destruct cur).
      destruct (IH _ _ Hb') as (cur' & os1 & os2 & -> & Htail & Hlen). eauto 6.
Qed.

(** The entry that is active when a [family] directive is met, after the
    directive and up to the next [entry] directive. *)
Lemma family_entry_option (pairs pre rest : list (string * string)) (key value : string) :
  pairs = pre ++ (key, value) :: rest ->
  classify key = DFamily ->
  entry_first rest = true ->
  entry_first pairs = true ->
  families_supported pairs = true ->
  exists os o0,
    fst (spec_build pairs None) = Built os /\
    os !! (length (entry_names pre) - 1)%nat = Some (resolve_family value o0).
Proof.
  intros Hpairs Hk Hrest Hfirst Hsup.
  destruct (spec_build_built pairs None Hsup (fun _ => Hfirst)) as (os & Hv & _).
  exists os. pose proof Hv as Hb. rewrite Hpairs in Hb.
  destruct (spec_build_split pre _ None os Hb) as (cur' & os1 & os2 & -> & Htail & Hlen).
  simpl in Htail. rewrite Hk in Htail.
  destruct cur' as [o0|]; [|discriminate].
  destruct (family_supported value); [|discriminate].
  destruct (spec_build_head rest _ _ Hrest Htail) as (os' & ->).
  exists o0. split; [exact Hv|].
  simpl in Hlen. replace (length (entry_names pre) - 1)%nat with (length os1) by lia.
  apply list_lookup_middle. reflexivity.
Qed.

(** An [entry] directive with nothing but keys that are no keywords up
    to the next one leaves an option that has its name only. *)
Lemma bare_entry_option (pairs pre rest : list (string * string)) (key value : string) :
  pairs = pre ++ (key, value) :: rest ->
  classify key = DEntry ->
  entry_first rest = true ->
  entry_first pairs = true ->
  families_supported pairs = true ->
  exists os,
    fst (spec_build pairs None) = Built os /\
    os !! length (entry_names pre) = Some (new_option value).
Proof.
  intros Hpairs Hk Hrest Hfirst Hsup.
  destruct (spec_build_built pairs None Hsup (fun _ => Hfirst)) as (os & Hv & _).
  exists os. split; [exact Hv|]. rewrite Hpairs in Hv.
  destruct (spec_build_split pre _ None os Hv) as (cur' & os1 & os2 & -> & Htail & Hlen).
  simpl in Htail. rewrite Hk in Htail. simpl in Htail.
  destruct (fst (spec_build rest (Some (new_option value)))) as [os3| |] eqn:Hinner;
    try discriminate.
  injection Htail as <-.
  destruct (spec_build_head rest _ _ Hrest Hinner) as (os' & ->).
  simpl in Hlen. rewrite app_assoc.
  replace (length (entry_names pre)) with (length (os1 ++ option_list cur'))
    by (rewrite length_app; lia).
  apply list_lookup_middle. reflexivity.
Qed.

(** The store that the builder leaves when the rules give [os]. *)
Lemma built_store (file : string) (m : machine) (os : list LinuxBootOption) :
  fst (spec_build (config_pairs (snd (FileRead fw file))) None) = Built os ->
  exists m',
    ReadConfigurationFile file m = (Val tt, m') /\
    is_store (heap m') (distributionListRoot m') os.
Proof.
  intros Hv.
  pose proof (ReadConfigurationFile_refines file m) as Href. cbv zeta in Href.
  rewrite Hv in Href. destruct Href as (_ & _ & _ & Hres & Hroot & _ & Hstore).
  destruct (ReadConfigurationFile file m) as [out m']. cbn [fst snd] in *. subst out.
  rewrite <- Hroot in Hstore. by exists m'.
Qed.

(** X5. A [family] directive replaces all three paths of the active
    entry, whatever [kernel], [initrd] or [root] directives of that entry
    came before it: when only keys that are no keywords follow it up to
    the next [entry] directive, the entry in the final store holds the
    family name and the kernel path, initrd path and boot folder of the
    registry for that family. *)
Theorem family_replaces_manual_paths (file : string) (m : machine)
    (pre rest : list (string * string)) (key value : string) :
  let pairs := config_pairs (snd (FileRead fw file)) in
  pairs = pre ++ (key, value) :: rest ->
  classify key = DFamily ->
  entry_first rest = true ->
  entry_first pairs = true ->
  families_supported pairs = true ->
  exists m' os o,
    ReadConfigurationFile file m = (Val tt, m') /\
    is_store (heap m') (distributionListRoot m') os /\
    os !! (length (entry_names pre) - 1)%nat = Some o /\
    distro_family o = Some (strcpya value) /\
    kernel_path o = Some (strcpya (kernel_of value)) /\
    initrd_path o = Some (strcpya (initrd_of value)) /\
    boot_folder o = Some (strcpya (folder_of value)).
Proof.
  intros pairs Hpairs Hk Hrest Hfirst Hsup.
  destruct (family_entry_option pairs pre rest key value Hpairs Hk Hrest Hfirst Hsup)
    as (os & o0 & Hv & Ho).
  destruct (built_store file m os Hv) as (m' & Hrun & Hstore).
  exists m', os, (resolve_family value o0). repeat split; assumption.
Qed.

(** *** Pool memory used by the builder *)

Lemma freed_cells_app (h1 h2 : pool) :
  freed_cells (h1 ++ h2) = (freed_cells h1 + freed_cells h2)%nat.
Proof. unfold freed_cells. by rewrite List.filter_app, length_app. Qed.

Lemma freed_cells_node_shape (n : nat) (cur : option LinuxBootOption) (nx : ptr) :
  freed_cells (node_shape n cur nx) = 0%nat.
Proof. by destruct cur. Qed.

Lemma family_branch_pool (v : string) (pre : pool) (o : LinuxBootOption) (m : machine) :
  heap m = pre ++ node_shape (length pre) (Some o) NULL ->
  let m1 := snd (family_branch (S (length pre)) v m) in
  length (heap m1) = length (heap m) /\
  freed_cells (heap m1)
  = (freed_cells (heap m) + if family_supported v then 0 else 1)%nat.
Proof.
  intros Hm.
  unfold family_branch, family_supported, resolve_family, kernel_of, initrd_of, folder_of.
  destruct (KernelLocationForDistributionName (strcpya v)) as [kernel folder].
  cbn [fst snd]. unfold bind.
  erewrite copy_to_field_active by exact Hm. cbv beta iota.
  do 3 (erewrite copy_to_field_active by reflexivity; cbv beta iota).
  erewrite field_of_active by reflexivity. cbv beta iota.
  cbn [kernel_path set_boot_folder set_initrd_path set_kernel_path set_distro_family on_string ret].
  fold (is_empty (strcpya kernel)). rewrite is_empty_strcpya.
  assert (forall o1 : LinuxBootOption,
            length (pre ++ node_shape (length pre) (Some o1) NULL) = length (heap m) /\
            freed_cells (pre ++ node_shape (length pre) (Some o1) NULL)
            = (freed_cells (heap m) + 0)%nat) as Hsame.
  { intros o1. rewrite Hm, !length_app, !freed_cells_app. unfold freed_cells. simpl.
    split; lia. }
  assert (forall q : ptr,
            length (pre ++ [CellDistro (mkBootableLinuxDistro q NULL); CellFreed])
            = length (heap m) /\
            freed_cells (pre ++ [CellDistro (mkBootableLinuxDistro q NULL); CellFreed])
            = (freed_cells (heap m) + 1)%nat) as Hfreed.
  { intros q. rewrite Hm, !length_app, !freed_cells_app. unfold freed_cells. simpl.
    split; lia. }
  destruct (is_empty kernel) eqn:Ek; cbn [negb andb].
  - erewrite reject_family_active by reflexivity. destruct m. cbn. apply Hfreed.
  - erewrite field_of_active by reflexivity. cbv beta iota.
    cbn [initrd_path set_boot_folder set_initrd_path set_kernel_path set_distro_family on_string ret].
    fold (is_empty (strcpya (InitRDLocationForDistributionName (strcpya v)))).
    rewrite is_empty_strcpya.
    destruct (is_empty (InitRDLocationForDistributionName (strcpya v))) eqn:Ei; cbn [negb].
    + erewrite reject_family_active by reflexivity. destruct m. cbn. apply Hfreed.
    + destruct m. cbn. apply Hsame.
Qed.

(** The pool after a rejected family: the payload of the active node is
    freed, and the node still points at it. *)
Lemma family_branch_rejected (v : string) (pre : pool) (o : LinuxBootOption) (m : machine) :
  heap m = pre ++ node_shape (length pre) (Some o) NULL ->
  family_supported v = false ->
  heap (snd (family_branch (S (length pre)) v m))
  = pre ++ [CellDistro (mkBootableLinuxDistro (S (S (length pre))) NULL); CellFreed].
Proof.
  intros Hm.
  unfold family_branch, family_supported, resolve_family, kernel_of, initrd_of, folder_of.
  destruct (KernelLocationForDistributionName (strcpya v)) as [kernel folder].
  cbn [fst snd]. unfold bind.
  erewrite copy_to_field_active by exact Hm. cbv beta iota.
  do 3 (erewrite copy_to_field_active by reflexivity; cbv beta iota).
  erewrite field_of_active by reflexivity. cbv beta iota.
  cbn [kernel_path set_boot_folder set_initrd_path set_kernel_path set_distro_family on_string ret].
  fold (is_empty (strcpya kernel)). rewrite is_empty_strcpya.
  destruct (is_empty kernel) eqn:Ek; cbn [negb andb].
  - intros _. erewrite reject_family_active by reflexivity. by destruct m.
  - erewrite field_of_active by reflexivity. cbv beta iota.
    cbn [initrd_path set_boot_folder set_initrd_path set_kernel_path set_distro_family on_string ret].
    fold (is_empty (strcpya (InitRDLocationForDistributionName (strcpya v)))).
    rewrite is_empty_strcpya.
    destruct (is_empty (InitRDLocationForDistributionName (strcpya v))) eqn:Ei; cbn [negb];
      [|discriminate].
    intros _. erewrite reject_family_active by reflexivity. by destruct m.
Qed.

(** What the loop has allocated and freed when it stops: [cur] is the
    payload of the conductor, [m] the machine before. *)
Definition pool_post (v : verdict) (cur : option LinuxBootOption) (m : machine)
    (res : outcome unit * machine) : Prop :=
  match v with
  | Built os =>
      (length (heap (snd res)) + 2 * length (option_list cur)
       = length (heap m) + 2 * length os)%nat /\
      freed_cells (heap (snd res)) = freed_cells (heap m)
  | Unsupported _ =>
      freed_cells (heap (snd res)) = S (freed_cells (heap m)) /\
      (length (heap m) <= length (heap (snd res)))%nat /\
      (cur = None -> (length (heap m) + 2 <= length (heap (snd res)))%nat) /\
      exists low,
        heap (snd res)
        = low ++ [CellDistro (mkBootableLinuxDistro (S (S (length low))) NULL); CellFreed]
  | NoActiveEntry => True
  end.

Ltac one_option :=
  repeat match goal with
         | H : context [length (option_list (Some ?x))] |- _ =>
             change (length (option_list (Some x))) with 1%nat in H
         | |- context [length (option_list (Some ?x))] =>
             change (length (option_list (Some x))) with 1%nat
         end.

Lemma config_loop_pool (pairs : list (string * string)) :
  forall (cur : option LinuxBootOption) (m : machine) (pre : pool),
    heap m = pre ++ node_shape (length pre) cur NULL ->
    pool_post (fst (spec_build pairs cur)) cur m (config_loop pairs (S (length pre)) m).
Proof.
  induction pairs as [|[key value] rest IH]; intros cur m pre Hm.
  - simpl. split; reflexivity.
  - rewrite config_loop_cons. simpl spec_build.
    destruct (classify key) eqn:Hk.
    + (* entry *)
      unfold bind. rewrite (entry_branch_spec value pre cur m Hm). cbv beta iota.
      set (new := S (length (heap m))).
      set (pre' := pre ++ node_shape (length pre) cur new).
      assert (length (heap m) = length pre') as Hlen.
      { unfold pre'. rewrite Hm, !length_app. f_equal. apply length_node_shape. }
      assert (freed_cells pre' = freed_cells (heap m)) as Hfr.
      { unfold pre'. rewrite Hm, !freed_cells_app, !freed_cells_node_shape. reflexivity. }
      assert (new = S (length pre')) as Hnew by (unfold new; by rewrite Hlen).
      rewrite Hlen, Hnew.
      match goal with |- context [config_loop rest _ ?M] => set (m1 := M) end.
      assert (heap m1 = pre' ++ node_shape (length pre') (Some (new_option value)) NULL)
        as Hm1 by reflexivity.
      specialize (IH (Some (new_option value)) m1 pre' Hm1).
      cbn [fst]. unfold pool_post in *.
      assert (length (heap m1) = length (heap m) + 2)%nat as Hl1.
      { rewrite Hm1, length_app, <- Hlen. simpl. lia. }
      assert (freed_cells (heap m1) = freed_cells (heap m)) as Hf1.
      { rewrite Hm1, freed_cells_app, Hfr. simpl. unfold freed_cells. simpl. lia. }
      destruct (fst (spec_build rest (Some (new_option value)))) as [os| |]; cbn [keep].
      * destruct IH as [Hl Hf]. rewrite length_app. one_option. split; lia.
      * destruct IH as (Hf & Hl & _ & Hshape).
        split; [lia|]. split; [lia|]. split; [intros _; lia|exact Hshape].
      * exact I.
    + (* family *)
      destruct cur as [o|]; unfold bind; [|exact I].
      destruct (family_branch_active value pre o m Hm) as (m1 & k & Hrun & _ & _ & Hrest).
      pose proof (family_branch_pool value pre o m Hm) as Hpool. cbv zeta in Hpool.
      pose proof (family_branch_rejected value pre o m Hm) as Hshape.
      rewrite Hrun in *. cbn [snd] in Hpool, Hshape. destruct Hpool as [Hl1 Hf1].
      destruct (family_supported value); cbn [negb]; cbv beta iota.
      * destruct Hrest as (Hheap & _).
        specialize (IH _ m1 pre Hheap). unfold pool_post in *.
        destruct (fst (spec_build rest (Some (resolve_family value o)))) as [os| |].
        -- destruct IH as [Hl Hf]. one_option. split; lia.
        -- destruct IH as (Hf & Hl & _ & Hlow).
           split; [lia|]. split; [lia|]. split; [discriminate|exact Hlow].
        -- exact I.
      * unfold ret. cbn [fst snd pool_post].
        split; [lia|]. split; [lia|]. split; [discriminate|].
        exists pre. by apply Hshape.
    + (* kernel *)
      destruct cur as [o|]; unfold bind; [|exact I].
      rewrite (copy_to_field_active _ value pre o NULL m Hm). cbv beta iota.
      match goal with |- context [config_loop rest _ ?M] => set (m1 := M) end.
      assert (length (heap m1) = length (heap m) /\ freed_cells (heap m1) = freed_cells (heap m))
        as [Hl1 Hf1].
      { assert (exists o', heap m1 = pre ++ node_shape (length pre) (Some o') NULL)
          as [o' ->] by (eexists; unfold m1; destruct m; reflexivity).
        rewrite Hm, !length_app, !freed_cells_app, !freed_cells_node_shape.
        split; reflexivity. }
      specialize (IH _ m1 pre eq_refl). unfold pool_post in *.
      match goal with |- match fst (spec_build rest ?c) with _ => _ end =>
        destruct (fst (spec_build rest c)) as [os| |] end.
      * destruct IH as [Hl Hf]. one_option. split; lia.
      * destruct IH as (Hf & Hl & _ & Hshape).
        split; [lia|]. split; [lia|]. split; [discriminate|exact Hshape].
      * exact I.
    + (* initrd *)
      destruct cur as [o|]; unfold bind; [|exact I].
      rewrite (copy_to_field_active _ value pre o NULL m Hm). cbv beta iota.
      match goal with |- context [config_loop rest _ ?M] => set (m1 := M) end.
      assert (length (heap m1) = length (heap m) /\ freed_cells (heap m1) = freed_cells (heap m))
        as [Hl1 Hf1].
      { assert (exists o', heap m1 = pre ++ node_shape (length pre) (Some o') NULL)
          as [o' ->] by (eexists; unfold m1; destruct m; reflexivity).
        rewrite Hm, !length_app, !freed_cells_app, !freed_cells_node_shape.
        split; reflexivity. }
      specialize (IH _ m1 pre eq_refl). unfold pool_post in *.
      match goal with |- match fst (spec_build rest ?c) with _ => _ end =>
        destruct (fst (spec_build rest c)) as [os| |] end.
      * destruct IH as [Hl Hf]. one_option. split; lia.
      * destruct IH as (Hf & Hl & _ & Hshape).
        split; [lia|]. split; [lia|]. split; [discriminate|exact Hshape].
      * exact I.
    + (* root *)
      destruct cur as [o|]; unfold bind; [|exact I].
      rewrite (copy_to_field_active _ value pre o NULL m Hm). cbv beta iota.
      match goal with |- context [config_loop rest _ ?M] => set (m1 := M) end.
      assert (length (heap m1) = length (heap m) /\ freed_cells (heap m1) = freed_cells (heap m))
        as [Hl1 Hf1].
      { assert (exists o', heap m1 = pre ++ node_shape (length pre) (Some o') NULL)
          as [o' ->] by (eexists; unfold m1; destruct m; reflexivity).
        rewrite Hm, !length_app, !freed_cells_app, !freed_cells_node_shape.
        split; reflexivity. }
      specialize (IH _ m1 pre eq_refl). unfold pool_post in *.
      match goal with |- match fst (spec_build rest ?c) with _ => _ end =>
        destruct (fst (spec_build rest c)) as [os| |] end.
      * destruct IH as [Hl Hf]. one_option. split; lia.
      * destruct IH as (Hf & Hl & _ & Hshape).
        split; [lia|]. split; [lia|]. split; [discriminate|exact Hshape].
      * exact I.
    + (* another key *)
      unfold bind, Print, emit. cbv beta iota. cbn [say fst].
      assert (heap (with_event (EvPrint "Unrecognized configuration option: %a.\n" [ArgA key]) m)
              = pre ++ node_shape (length pre) cur NULL) as Hm1 by (destruct m; exact Hm).
      specialize (IH cur _ pre Hm1). unfold pool_post in *.
      destruct (fst (spec_build rest cur)); destruct m; exact IH.
Qed.

Lemma ReadConfigurationFile_pool (file : string) (m : machine) :
  let res := ReadConfigurationFile file m in
  match fst (spec_build (config_pairs (snd (FileRead fw file))) None) with
  | Built os =>
      length (heap (snd res)) = (length (heap m) + 1 + 2 * length os)%nat /\
      freed_cells (heap (snd res)) = freed_cells (heap m)
  | Unsupported _ =>
      freed_cells (heap (snd res)) = S (freed_cells (heap m)) /\
      (length (heap m) + 3 <= length (heap (snd res)))%nat /\
      exists low,
        heap (snd res)
        = low ++ [CellDistro (mkBootableLinuxDistro (S (S (length low))) NULL); CellFreed]
  | NoActiveEntry => True
  end.
Proof.
  unfold ReadConfigurationFile.
  destruct (FileRead fw file) as [read_bytes contents]. cbn [fst snd].
  set (pairs := config_pairs contents).
  unfold bind, AllocateZeroPool, put_root, get_root. cbv beta iota.
  cbn [distributionListRoot with_root with_heap].
  assert (forall m1 : machine,
            heap m1 = heap m ++ [CellDistro zero_distro] ->
            pool_post (fst (spec_build pairs None)) None m1
              (config_loop pairs (S (length (heap m))) m1)) as Hloop.
  { intros m1 Hh. by apply (config_loop_pool pairs None m1 (heap m)). }
  assert (forall m1 : machine,
            heap m1 = heap m ++ [CellDistro zero_distro] ->
            length (heap m1) = (length (heap m) + 1)%nat /\
            freed_cells (heap m1) = freed_cells (heap m)) as Hsent.
  { intros m1 ->. rewrite length_app, freed_cells_app. simpl. unfold freed_cells. simpl.
    split; lia. }
  destruct (read_bytes =? 0).
  - unfold DisplayErrorText, emit. cbv beta iota.
    match goal with |- context [config_loop pairs _ ?m1] =>
      specialize (Hloop m1); specialize (Hsent m1) end.
    destruct m as [h rt ps t a].
    specialize (Hloop eq_refl). destruct (Hsent eq_refl) as [Hl Hf].
    unfold pool_post in Hloop.
    destruct (fst (spec_build pairs None)); [| |exact I].
    + destruct Hloop as [Hl' Hf']. simpl in *. split; lia.
    + destruct Hloop as (Hf' & _ & Hl' & Hshape). specialize (Hl' eq_refl).
      split; [simpl in *; lia|]. split; [simpl in *; lia|exact Hshape].
  - unfold ret. cbv beta iota.
    match goal with |- context [config_loop pairs _ ?m1] =>
      specialize (Hloop m1); specialize (Hsent m1) end.
    destruct m as [h rt ps t a].
    specialize (Hloop eq_refl). destruct (Hsent eq_refl) as [Hl Hf].
    unfold pool_post in Hloop.
    destruct (fst (spec_build pairs None)); [| |exact I].
    + destruct Hloop as [Hl' Hf']. simpl in *. split; lia.
    + destruct Hloop as (Hf' & _ & Hl' & Hshape). specialize (Hl' eq_refl).
      split; [simpl in *; lia|]. split; [simpl in *; lia|exact Hshape].
Qed.

Lemma spec_build_length (pairs : list (string * string)) :
  forall cur os,
    fst (spec_build pairs cur) = Built os ->
    length os = (length (option_list cur) + length (entry_names pairs))%nat.
Proof.
  induction pairs as [|[k v] rest IH]; intros cur os Hb; simpl in *.
  - injection Hb as <-. lia.
  - destruct (classify k); simpl in *.
    + destruct (fst (spec_build rest (Some (new_option v)))) eqn:Hin; try discriminate.
      injection Hb as <-. rewrite length_app, (IH _ _ Hin). simpl. lia.
    + destruct cur; [|discriminate]. destruct (family_supported v); [|discriminate].
      by rewrite (IH _ _ Hb).
    + destruct cur; [|discriminate]. by rewrite (IH _ _ Hb).
    + destruct cur; [|discriminate]. by rewrite (IH _ _ Hb).
    + destruct cur; [|discriminate]. by rewrite (IH _ _ Hb).
    + apply IH. by destruct cur.
Qed.

(** X6. Whenever the builder returns with a store, the nodes and payloads
    it has allocated are exactly one node for the sentinel head and, for
    each [entry] directive, one node and one payload, and it has freed
    nothing: the pool holds the cells it held before, then those.  (The
    string copies are held in the options; they are not cells.) *)
Theorem built_store_pool_size (file : string) (m : machine) :
  let pairs := config_pairs (snd (FileRead fw file)) in
  let res := ReadConfigurationFile file m in
  fst res = Val tt ->
  distributionListRoot (snd res) <> NULL ->
  length (heap (snd res)) = (length (heap m) + 1 + 2 * length (entry_names pairs))%nat /\
  freed_cells (heap (snd res)) = freed_cells (heap m) /\
  exists ext, heap (snd res) = heap m ++ ext.
Proof.
  intros pairs res Hval Hroot.
  destruct (built_verdict file m Hval Hroot) as [os Hos]. fold pairs in Hos.
  pose proof (ReadConfigurationFile_pool file m) as Hpool. cbv zeta in Hpool.
  fold pairs res in Hpool. rewrite Hos in Hpool. destruct Hpool as [Hl Hf].
  pose proof (ReadConfigurationFile_refines file m) as Href. cbv zeta in Href.
  fold pairs res in Href. rewrite Hos in Href.
  destruct Href as (_ & _ & _ & _ & _ & Hext & _).
  rewrite (spec_build_length pairs None os Hos) in Hl. simpl in Hl.
  repeat split; [lia|exact Hf|exact Hext].
Qed.

(** X7. Whenever the builder returns with the store root null (it met a
    family with an empty kernel or initrd path), it has allocated at
    least three cells (a sentinel head, a node and a payload) and has
    freed exactly one, the last cell of the pool: the payload of the
    rejected entry, whose node, right before it, still points at it.  At
    least two more cells than before are still allocated, with a null
    root that no longer leads to them. *)
Theorem invalidated_store_leaks (file : string) (m : machine) :
  let res := ReadConfigurationFile file m in
  fst res = Val tt ->
  distributionListRoot (snd res) = NULL ->
  freed_cells (heap (snd res)) = S (freed_cells (heap m)) /\
  (length (heap m) + 3 <= length (heap (snd res)))%nat /\
  (length (heap m) - freed_cells (heap m) + 2
   <= length (heap (snd res)) - freed_cells (heap (snd res)))%nat /\
  exists low node,
    heap (snd res) = low ++ [CellDistro node; CellFreed] /\
    next node = NULL /\
    load (heap (snd res)) (bootOption node) = Some CellFreed.
Proof.
  intros res Hval Hroot.
  pose proof (ReadConfigurationFile_pool file m) as Hpool. cbv zeta in Hpool.
  fold res in Hpool.
  pose proof (ReadConfigurationFile_refines file m) as Href. cbv zeta in Href.
  fold res in Href. destruct Href as (_ & _ & _ & Hv).
  destruct (fst (spec_build (config_pairs (snd (FileRead fw file))) None)) as [os|f|].
  - destruct Hv as (_ & Hr & _). rewrite Hr in Hroot. discriminate.
  - destruct Hpool as (Hf & Hl & low & Hshape).
    split; [exact Hf|]. split; [exact Hl|]. split.
    + assert (freed_cells (heap m) <= length (heap m))%nat
        by (unfold freed_cells; apply List.filter_length_le).
      lia.
    + eexists low, _. split; [exact Hshape|]. split; [reflexivity|].
      rewrite Hshape. cbn [bootOption load]. apply lookup_mid1.
  - destruct Hv as [Htrap _]. congruence.
Qed.

(** ** Further properties of the launcher *)

(** *** What the launcher leaves alone *)

(** [m'] differs from [m] at most in what was shown since and in the log
    of payload accesses. *)
Definition same_store (m m' : machine) : Prop :=
  heap m' = heap m /\
  distributionListRoot m' = distributionListRoot m /\
  preset_options_array m' = preset_options_array m.

Definition keeps_store {A} (c : M A) : Prop := forall m, same_store m (snd (c m)).

(** As [same_store], but the pool may have grown by one cell. *)
Definition grown_by_one (m m' : machine) : Prop :=
  (heap m' = heap m \/ exists c, heap m' = heap m ++ [c]) /\
  distributionListRoot m' = distributionListRoot m /\
  preset_options_array m' = preset_options_array m.

Definition grows_by_one {A} (c : M A) : Prop := forall m, grown_by_one m (snd (c m)).

Lemma same_store_refl (m : machine) : same_store m m.
Proof. by repeat split. Qed.

Lemma keeps_store_bind {A B} (c : M A) (k : A -> M B) :
  keeps_store c -> (forall a, keeps_store (k a)) -> keeps_store (bind c k).
Proof.
  intros Hc Hk m. unfold bind. specialize (Hc m).
  destruct (c m) as [[a| |] m1]; cbn [snd] in *; try exact Hc.
  specialize (Hk a m1). destruct Hc as (H1 & H2 & H3), Hk as (K1 & K2 & K3).
  repeat split; congruence.
Qed.

Lemma grows_by_one_bind {A B} (c : M A) (k : A -> M B) :
  keeps_store c -> (forall a, grows_by_one (k a)) -> grows_by_one (bind c k).
Proof.
  intros Hc Hk m. unfold bind. specialize (Hc m).
  destruct (c m) as [[a| |] m1]; cbn [snd] in *;
    [|destruct Hc as (H1 & H2 & H3); repeat split; auto..].
  specialize (Hk a m1). destruct Hc as (H1 & H2 & H3), Hk as (K1 & K2 & K3).
  rewrite H1 in K1. repeat split; [exact K1|congruence..].
Qed.

Lemma grows_by_one_keeps {A} (c : M A) : keeps_store c -> grows_by_one c.
Proof. intros Hc m. destruct (Hc m) as (H1 & H2 & H3). repeat split; auto. Qed.

Lemma keeps_store_ret {A} (a : A) : keeps_store (ret a).
Proof. intros m. apply same_store_refl. Qed.

Lemma keeps_store_emit (e : event) : keeps_store (emit e).
Proof. intros m. by destruct m. Qed.

Lemma keeps_store_read_distro (p : ptr) : keeps_store (read_distro p).
Proof.
  intros m. unfold read_distro.
  destruct (load (heap m) p) as [[]|]; apply same_store_refl.
Qed.

Lemma keeps_store_read_option (p : ptr) : keeps_store (read_option p).
Proof.
  intros m. unfold read_option.
  destruct (load (heap m) p) as [[]|]; apply same_store_refl.
Qed.

Lemma keeps_store_get_next (p : ptr) : keeps_store (get_next p).
Proof.
  apply keeps_store_bind; [apply keeps_store_read_distro|]. intros d. apply keeps_store_ret.
Qed.

Lemma keeps_store_get_bootOption (p : ptr) : keeps_store (get_bootOption p).
Proof.
  apply keeps_store_bind; [apply keeps_store_read_distro|]. intros d m. by destruct m.
Qed.

Lemma keeps_store_persist (var : variable_name) (s : option string) :
  keeps_store (persist var s).
Proof.
  unfold persist. destruct s as [s|]; simpl.
  - apply keeps_store_bind; [apply keeps_store_ret|]. intros len. apply keeps_store_emit.
  - intros m. apply same_store_refl.
Qed.

Lemma keeps_store_advance (n : nat) : forall p, keeps_store (advance n p).
Proof.
  induction n as [|n IH]; intros p; simpl; [apply keeps_store_ret|].
  destruct (p =? NULL)%nat; [apply keeps_store_ret|].
  apply keeps_store_bind; [apply keeps_store_get_next|]. exact IH.
Qed.

Lemma keeps_store_find_distribution (distribution : Z) :
  keeps_store (find_distribution distribution).
Proof.
  unfold find_distribution.
  apply keeps_store_bind; [intros m; apply same_store_refl|]. intros root.
  apply keeps_store_bind; [apply keeps_store_get_next|]. intros first.
  apply keeps_store_advance.
Qed.

(** The four ways [chain_load] ends. *)
Lemma chain_load_cases (m : machine) :
  exists out c evs,
    chain_load m = (out, after_chain_load m c evs) /\ out <> Trap /\
    (c = CellFreed <-> out = Val EFI_LOAD_ERROR).
Proof.
  assert (EFI_SUCCESS <> EFI_LOAD_ERROR) as Hne by discriminate.
  destruct (EFI_ERROR (LoadImage_status fw)) eqn:Hload.
  - rewrite chain_load_load_failure by assumption.
    eexists _, _, _. split; [reflexivity|]. split; [discriminate|]. split; reflexivity.
  - destruct (StartImage_status fw) as [err|] eqn:Hstart.
    + destruct (EFI_ERROR err) eqn:Herr.
      * erewrite chain_load_start_failure by eassumption.
        eexists _, _, _. split; [reflexivity|]. split; [discriminate|]. split; reflexivity.
      * erewrite chain_load_returns by eassumption.
        eexists _, _, _. split; [reflexivity|]. split; [discriminate|].
        split; [discriminate|]. intros H. injection H as H. contradiction.
    + rewrite chain_load_handoff by assumption.
      eexists _, _, _. split; [reflexivity|]. split; [discriminate|].
      split; discriminate.
Qed.

Lemma grows_by_one_chain_load : grows_by_one chain_load.
Proof.
  intros m. destruct (chain_load_cases m) as (out & c & evs & -> & _).
  destruct m. repeat split. right. by exists c.
Qed.

Lemma grows_by_one_launch (params : list Z) (distribution : Z) :
  grows_by_one (BootLinuxWithOptions params distribution).
Proof.
  unfold BootLinuxWithOptions.
  apply grows_by_one_bind; [apply keeps_store_persist|]. intros _.
  apply grows_by_one_bind; [apply keeps_store_find_distribution|]. intros conductor.
  apply grows_by_one_bind; [apply keeps_store_get_bootOption|]. intros boot_params.
  destruct (boot_params =? NULL)%nat.
  - apply grows_by_one_keeps.
    apply keeps_store_bind; [apply keeps_store_emit|]. intros _. apply keeps_store_ret.
  - apply grows_by_one_bind; [apply keeps_store_read_option|]. intros o.
    do 3 (apply grows_by_one_bind; [apply keeps_store_persist|]; intros _).
    apply grows_by_one_chain_load.
Qed.

(** X8. However it ends and whatever the index, a launch leaves the store
    as it was: the store root and the preset options are unchanged, every
    pool cell keeps its contents, and at most one cell is added, the
    device path.  A store that was there before the launch is there
    after it, with the same options. *)
Theorem launch_leaves_store_intact (params : list Z) (distribution : Z) (m : machine) :
  let res := BootLinuxWithOptions params distribution m in
  distributionListRoot (snd res) = distributionListRoot m /\
  preset_options_array (snd res) = preset_options_array m /\
  (heap (snd res) = heap m \/ exists c, heap (snd res) = heap m ++ [c]) /\
  (forall p c, load (heap m) p = Some c -> load (heap (snd res)) p = Some c) /\
  (forall l, rep (heap m) (distributionListRoot m) l ->
             rep (heap (snd res)) (distributionListRoot (snd res)) l).
Proof.
  intros res. destruct (grows_by_one_launch params distribution m) as (Hh & Hr & Hp).
  fold res in Hh, Hr, Hp. split; [exact Hr|]. split; [exact Hp|]. split; [exact Hh|].
  split.
  - intros p c Hload. destruct Hh as [->|[c' ->]]; [exact Hload|by apply load_app].
  - intros l Hrep. rewrite Hr. destruct Hh as [->|[c' ->]]; [exact Hrep|by apply rep_app].
Qed.

(** *** Entries without all three paths *)

(** The writes for the paths of [o] that the launcher gets to: it stops
    at the first path that was never set. *)
Definition path_writes (o : LinuxBootOption) : list event :=
  match kernel_path o with
  | None => []
  | Some kernel =>
      write_of Enterprise_LinuxKernelPath kernel ::
      match initrd_path o with
      | None => []
      | Some initrd =>
          write_of Enterprise_InitRDPath initrd ::
          match boot_folder o with
          | None => []
          | Some folder => [write_of Enterprise_BootFolder folder]
          end
      end
  end.

Definition has_all_paths (o : LinuxBootOption) : bool :=
  match kernel_path o, initrd_path o, boot_folder o with
  | Some _, Some _, Some _ => true
  | _, _, _ => false
  end.

Lemma launch_missing_path_run (params : list Z) (m : machine) (s : option LinuxBootOption)
    (l : list (option LinuxBootOption)) (i : nat) (o : LinuxBootOption) :
  rep (heap m) (distributionListRoot m) (s :: l) ->
  l !! i = Some (Some o) ->
  has_all_paths o = false ->
  exists q,
    BootLinuxWithOptions params (Z.of_nat i) m
    = (Trap, at_image_load m q
               (write_of Enterprise_LinuxBootOptions (sized_str params) :: path_writes o)).
Proof.
  intros Hrep Hi Hpaths.
  set (m1 := with_event (write_of Enterprise_LinuxBootOptions (sized_str params)) m).
  assert (rep (heap m1) (distributionListRoot m1) (s :: l)) as Hrep1 by (by destruct m).
  destruct (find_distribution_rep m1 s l i (Some o) Hrep1 Hi) as (q & d & Hfind & Hq & Hnn & Ho).
  exists q. unfold BootLinuxWithOptions, persist at 1, on_string, efi_set_variable, bind, ret, emit.
  cbv beta iota. fold (sized_str params). fold (size_with_nul (sized_str params)).
  fold (write_of Enterprise_LinuxBootOptions (sized_str params)). fold m1.
  rewrite Hfind. unfold get_bootOption, read_distro, bind, ret. rewrite Hq.
  destruct (Nat.eqb_spec (bootOption d) NULL) as [|_]; [contradiction|].
  unfold read_option. cbn [heap with_access]. rewrite Ho.
  unfold has_all_paths in Hpaths. unfold path_writes.
  unfold persist, on_string, efi_set_variable, bind, ret, emit, trap.
  destruct (kernel_path o) as [kernel|]; [destruct (initrd_path o) as [initrd|];
    [destruct (boot_folder o) as [folder|]; [discriminate|]|]|];
    f_equal; destruct m as [h rt ps t a];
    unfold at_image_load, write_of, size_with_nul, m1, with_event, with_access;
    cbn; rewrite <- ?app_assoc; reflexivity.
Qed.

(** X9. Launching an entry whose kernel path, initrd path or boot folder
    was never set faults: the launcher takes the length of the missing
    string through a null pointer.  By then it has written the variable
    of the extra parameters and those of the paths that come before the
    missing one, in the order kernel, initrd, boot folder; it has shown
    nothing, allocated nothing and has not asked for the image load. *)
Theorem launch_missing_path_faults (params : list Z) (m : machine)
    (s : option LinuxBootOption) (l : list (option LinuxBootOption)) (i : nat)
    (o : LinuxBootOption) :
  rep (heap m) (distributionListRoot m) (s :: l) ->
  l !! i = Some (Some o) ->
  kernel_path o = None \/ initrd_path o = None \/ boot_folder o = None ->
  let res := BootLinuxWithOptions params (Z.of_nat i) m in
  fst res = Trap /\
  trace (snd res)
  = trace m ++ write_of Enterprise_LinuxBootOptions (sized_str params) :: path_writes o /\
  (length (path_writes o) < 3)%nat /\
  heap (snd res) = heap m.
Proof.
  intros Hrep Hi Hnone res.
  assert (has_all_paths o = false) as Hpaths.
  { unfold has_all_paths. destruct Hnone as [->|[->| ->]]; [reflexivity| |].
    - by destruct (kernel_path o).
    - by destruct (kernel_path o), (initrd_path o). }
  destruct (launch_missing_path_run params m s l i o Hrep Hi Hpaths) as [q Hrun].
  unfold res. rewrite Hrun. destruct m. cbn. repeat split.
  unfold has_all_paths in Hpaths. unfold path_writes.
  destruct (kernel_path o), (initrd_path o), (boot_folder o); simpl; try lia; discriminate.
Qed.

(** *** The index *)

(** The loop compares a signed counter that starts at zero with the
    index: all that matters of the index is how far it is above zero. *)
Lemma BootLinuxWithOptions_index (params : list Z) (distribution : Z) (m : machine) :
  BootLinuxWithOptions params distribution m
  = BootLinuxWithOptions params (Z.of_nat (Z.to_nat distribution)) m.
Proof. unfold BootLinuxWithOptions, find_distribution. by rewrite Nat2Z.id. Qed.

Lemma chain_load_no_fault (m : machine) : fst (chain_load m) <> Trap.
Proof. destruct (chain_load_cases m) as (out & c & evs & -> & Hne & _). exact Hne. Qed.

(** X10. A negative index launches the first entry: the walk over the
    store makes no step, and the variables written are those of the node
    right after the sentinel head. *)
Theorem negative_index_launches_first_entry (params : list Z) (m : machine)
    (s : option LinuxBootOption) (l : list (option LinuxBootOption))
    (o : LinuxBootOption) (kernel initrd folder : string) (distribution : Z) :
  rep (heap m) (distributionListRoot m) (s :: Some o :: l) ->
  kernel_path o = Some kernel -> initrd_path o = Some initrd -> boot_folder o = Some folder ->
  distribution < 0 ->
  let res := BootLinuxWithOptions params distribution m in
  res = BootLinuxWithOptions params 0 m /\
  fst res <> Trap /\
  exists tl,
    trace (snd res)
    = trace m ++ handoff_writes params kernel initrd folder
        ++ EvLoadImage (device_path_of m) :: tl.
Proof.
  intros Hrep Hk Hi Hf Hneg res. unfold res.
  rewrite BootLinuxWithOptions_index, Z2Nat.nonpos by lia. split; [reflexivity|].
  destruct (launch_reaches_image_load params m s (Some o :: l) 0 o kernel initrd folder
              Hrep eq_refl Hk Hi Hf) as [q Hrun].
  change (Z.of_nat 0) with 0 in *. rewrite Hrun. split; [apply chain_load_no_fault|].
  match goal with |- context [chain_load ?M] => destruct (chain_load_trace M) as (tl & Ht & _) end.
  exists tl. rewrite Ht. destruct m. cbn. by rewrite <- app_assoc.
Qed.

(** *** From the configuration file to the launch *)

(** The launch of entry [i] of a store. *)
Lemma launch_store_entry (params : list Z) (m : machine) (os : list LinuxBootOption)
    (i : nat) (o : LinuxBootOption) :
  is_store (heap m) (distributionListRoot m) os ->
  os !! i = Some o ->
  let res := BootLinuxWithOptions params (Z.of_nat i) m in
  if has_all_paths o
  then fst res <> Trap /\
       exists tl,
         trace (snd res)
         = trace m ++ (write_of Enterprise_LinuxBootOptions (sized_str params) :: path_writes o)
             ++ EvLoadImage (device_path_of m) :: tl /\
         variable_writes tl = []
  else fst res = Trap /\
       trace (snd res)
       = trace m ++ write_of Enterprise_LinuxBootOptions (sized_str params) :: path_writes o.
Proof.
  intros Hstore Hi res.
  assert (map Some os !! i = Some (Some o)) as Hi' by (by rewrite list_lookup_fmap, Hi).
  destruct (has_all_paths o) eqn:Hpaths.
  - unfold has_all_paths in Hpaths. unfold path_writes.
    destruct (kernel_path o) as [kernel|] eqn:Hk; [|discriminate].
    destruct (initrd_path o) as [initrd|] eqn:Hin; [|discriminate].
    destruct (boot_folder o) as [folder|] eqn:Hf; [|discriminate].
    destruct (launch_reaches_image_load params m None (map Some os) i o kernel initrd folder
                Hstore Hi' Hk Hin Hf) as [q Hrun].
    unfold res. rewrite Hrun. split; [apply chain_load_no_fault|].
    match goal with |- context [chain_load ?M] =>
      destruct (chain_load_trace M) as (tl & Ht & Hw & _) end.
    exists tl. split; [|exact Hw]. rewrite Ht. destruct m. cbn. by rewrite <- app_assoc.
  - destruct (launch_missing_path_run params m None (map Some os) i o Hstore Hi' Hpaths)
      as [q Hrun].
    unfold res. rewrite Hrun. by destruct m.
Qed.

(** X11. From the file to the firmware variables: for an entry that gets
    its paths from a [family] directive (only keys that are no keywords
    follow the directive up to the next [entry]), in a configuration that
    builds a store, launching that entry right after the build writes the
    extra parameters and then the kernel path, the initrd path and the
    boot folder that the registry gives for the family, asks for the
    image load, and does not fault. *)
Theorem family_entry_launches (params : list Z) (file : string) (m : machine)
    (pre rest : list (string * string)) (key value : string) :
  let pairs := config_pairs (snd (FileRead fw file)) in
  pairs = pre ++ (key, value) :: rest ->
  classify key = DFamily ->
  entry_first rest = true ->
  entry_first pairs = true ->
  families_supported pairs = true ->
  let parsed := snd (ReadConfigurationFile file m) in
  let res := BootLinuxWithOptions params (Z.of_nat (length (entry_names pre) - 1)) parsed in
  fst res <> Trap /\
  exists tl,
    trace (snd res)
    = trace parsed
        ++ handoff_writes params (strcpya (kernel_of value)) (strcpya (initrd_of value))
             (strcpya (folder_of value))
        ++ EvLoadImage (device_path_of parsed) :: tl /\
    variable_writes tl = [].
Proof.
  intros pairs Hpairs Hk Hrest Hfirst Hsup parsed res.
  destruct (family_entry_option pairs pre rest key value Hpairs Hk Hrest Hfirst Hsup)
    as (os & o0 & Hv & Ho).
  destruct (built_store file m os Hv) as (m' & Hrun & Hstore).
  assert (parsed = m') as -> by (unfold parsed; by rewrite Hrun).
  pose proof (launch_store_entry params m' os _ _ Hstore Ho) as Hlaunch.
  cbv zeta in Hlaunch. fold res in Hlaunch. exact Hlaunch.
Qed.

(** X12. An entry that is given no path at all (its [entry] directive is
    followed by keys that are no keywords only, up to the next [entry]
    directive or the end) is stored all the same, and launching it right
    after the build faults on the missing kernel path, with the variable
    of the extra parameters written and nothing else done. *)
Theorem bare_entry_launch_faults (params : list Z) (file : string) (m : machine)
    (pre rest : list (string * string)) (key value : string) :
  let pairs := config_pairs (snd (FileRead fw file)) in
  pairs = pre ++ (key, value) :: rest ->
  classify key = DEntry ->
  entry_first rest = true ->
  entry_first pairs = true ->
  families_supported pairs = true ->
  let built := ReadConfigurationFile file m in
  let res := BootLinuxWithOptions params (Z.of_nat (length (entry_names pre))) (snd built) in
  fst built = Val tt /\
  distributionListRoot (snd built) <> NULL /\
  fst res = Trap /\
  trace (snd res)
  = trace (snd built) ++ [write_of Enterprise_LinuxBootOptions (sized_str params)] /\
  heap (snd res) = heap (snd built).
Proof.
  intros pairs Hpairs Hk Hrest Hfirst Hsup built res.
  destruct (bare_entry_option pairs pre rest key value Hpairs Hk Hrest Hfirst Hsup)
    as (os & Hv & Ho).
  destruct (built_store file m os Hv) as (m' & Hrun & Hstore).
  assert (built = (Val tt, m')) as Hbuilt by exact Hrun.
  unfold res. rewrite Hbuilt. cbn [fst snd]. split; [reflexivity|]. split.
  { destruct Hstore as (d & Hd & _). by eapply load_not_NULL. }
  pose proof (launch_store_entry params m' os _ _ Hstore Ho) as Hlaunch.
  cbv zeta in Hlaunch. change (has_all_paths (new_option value)) with false in Hlaunch.
  destruct Hlaunch as [Htrap Ht]. split; [exact Htrap|]. split; [exact Ht|].
  destruct (grows_by_one_launch params (Z.of_nat (length (entry_names pre))) m')
    as ([Hh|[c Hh]] & _); [exact Hh|].
  destruct (launch_missing_path_run params m' None (map Some os) (length (entry_names pre))
              (new_option value) Hstore) as [q Hq]; [by rewrite list_lookup_fmap, Ho|reflexivity|].
  rewrite Hq. reflexivity.
Qed.

(** *** Configurations without entries *)

(** With no [entry] directive and nothing that needs one, the rules give
    the empty list of options. *)
Lemma no_entries_build_empty (pairs : list (string * string)) :
  entry_first pairs = true ->
  entry_names pairs = [] ->
  fst (spec_build pairs None) = Built [] /\
  snd (spec_build pairs None) = map report_unrecognised (unrecognised pairs).
Proof.
  induction pairs as [|[key value] rest IH]; simpl; [auto|].
  destruct (classify key); simpl; try discriminate.
  intros Hfirst Hnames. destruct (IH Hfirst Hnames) as [-> ->]. auto.
Qed.

(** On a store of zero entries the node after the head is null, and the
    launcher reads its payload whatever the index. *)
Lemma launch_empty_store_faults (params : list Z) (m : machine) (distribution : Z) :
  is_store (heap m) (distributionListRoot m) [] ->
  fst (BootLinuxWithOptions params distribution m) = Trap /\
  trace (snd (BootLinuxWithOptions params distribution m))
  = trace m ++ [write_of Enterprise_LinuxBootOptions (sized_str params)].
Proof.
  intros Hstore. rewrite BootLinuxWithOptions_index.
  rewrite (launch_out_of_range_run params m None [] _ Hstore) by (simpl; lia).
  by destruct m.
Qed.

(** C7. An index at or beyond the number of entries of the store that the
    builder made is the "option not found" case of the launcher, and it
    is not reported: the walk stops on the null node after the last
    entry and the launcher reads the payload of that node.  The launch
    faults with the variable of the extra parameters written and nothing
    shown: no error text, no status code, no delay, and no return to the
    caller. *)
Theorem index_not_found_faults (params : list Z) (file : string) (m : machine)
    (distribution : Z) :
  let pairs := config_pairs (snd (FileRead fw file)) in
  entry_first pairs = true ->
  families_supported pairs = true ->
  Z.of_nat (length (entry_names pairs)) <= distribution ->
  let built := ReadConfigurationFile file m in
  let res := BootLinuxWithOptions params distribution (snd built) in
  fst built = Val tt /\
  fst res = Trap /\
  trace (snd res)
  = trace (snd built) ++ [write_of Enterprise_LinuxBootOptions (sized_str params)].
Proof.
  intros pairs Hfirst Hsup Hindex built res.
  destruct (spec_build_built pairs None Hsup (fun _ => Hfirst)) as (os & Hv & _).
  pose proof (spec_build_length pairs None os Hv) as Hlen. simpl in Hlen.
  destruct (built_store file m os Hv) as (m' & Hrun & Hstore).
  assert (built = (Val tt, m')) as Hbuilt by exact Hrun.
  unfold res. rewrite Hbuilt. cbn [fst snd]. split; [reflexivity|].
  rewrite (launch_out_of_range_run params m' None (map Some os) distribution Hstore)
    by (rewrite length_map; lia).
  by destruct m'.
Qed.

(** ** Further properties of start-up *)

(** Whether the rules give a store for the pairs. *)
Definition builds (pairs : list (string * string)) : bool :=
  match fst (spec_build pairs None) with
  | Built _ => true
  | _ => false
  end.

(** What [efi_main] shows for the configuration file: [found] tells
    whether the file exists. *)
Definition configuration_events (found : bool) : list event :=
  if found then
    read_error (fst (FileRead fw config_file))
      ++ snd (spec_build (config_pairs (snd (FileRead fw config_file))) None)
      ++ (match fst (spec_build (config_pairs (snd (FileRead fw config_file))) None) with
          | Unsupported _ => [EvDisplayErrorText "Error: configuration file parsing error.\n"]
          | _ => []
          end)
  else [EvDisplayErrorText "Error: can't find configuration file.\n"].

(** What [efi_main] shows when a required file is missing. *)
Definition missing_file_events (found : bool) (msg : string) : list event :=
  if found then [] else [EvDisplayErrorText msg].

Definition persistence_events (offered : bool) : list event :=
  if offered
  then [EvDisplayColoredText "Found a persistence file! You can enable persistence by selecting it in the Modify Boot Settings screen.\n"]
  else [].

Definition final_events (can_continue : bool) : list event :=
  if can_continue then [EvDisplayMenu]
  else [EvDisplayErrorText "Cannot continue because core files are missing or damaged.\nRestarting...\n";
        EvStall 1000000].

Lemma spec_build_verdict (pairs : list (string * string)) :
  match fst (spec_build pairs None) with
  | Built _ => entry_first pairs = true /\ families_supported pairs = true
  | Unsupported _ => entry_first pairs = true /\ families_supported pairs = false
  | NoActiveEntry => entry_first pairs = false
  end.
Proof.
  destruct (entry_first pairs) eqn:Hfirst.
  - destruct (families_supported pairs) eqn:Hsup.
    + destruct (spec_build_built pairs None Hsup (fun _ => Hfirst)) as (os & -> & _). auto.
    + destruct (spec_build_unsupported pairs None Hsup (fun _ => Hfirst))
        as (key & family & -> & _). auto.
  - by rewrite spec_build_no_entry.
Qed.

Lemma builds_iff (pairs : list (string * string)) :
  builds pairs = true <-> entry_first pairs = true /\ families_supported pairs = true.
Proof.
  unfold builds. pose proof (spec_build_verdict pairs) as Hv.
  destruct (fst (spec_build pairs None)); split; try tauto; try discriminate.
  - intros [_ H]. destruct Hv. congruence.
  - intros [H _]. congruence.
Qed.

Definition is_print (e : event) : bool :=
  match e with
  | EvPrint _ _ => true
  | _ => false
  end.

(** The rules only say things with [Print]. *)
Lemma spec_build_prints (pairs : list (string * string)) :
  forall cur e, In e (snd (spec_build pairs cur)) -> is_print e = true.
Proof.
  induction pairs as [|[k v] rest IH]; intros cur e; simpl; [tauto|].
  destruct (classify k), cur as [o|]; simpl; try apply IH; try tauto;
    try (intros [<-|H]; [reflexivity|by eapply IH]).
  destruct (family_supported v); [apply IH|]. simpl. intros [<-|[]]. reflexivity.
Qed.

Lemma configuration_events_error (found : bool) (msg : string) :
  In (EvDisplayErrorText msg) (configuration_events found) ->
  msg = "Error: can't find configuration file.\n" /\ found = false \/
  msg = "Error: Couldn't read configuration information.\n" /\ found = true \/
  msg = "Error: configuration file parsing error.\n" /\ found = true.
Proof.
  unfold configuration_events, read_error. destruct found.
  - rewrite !in_app_iff. intros [H|[H|H]].
    + destruct (fst (FileRead fw config_file) =? 0); simpl in H; [|tauto].
      destruct H as [H|[]]. injection H as <-. auto.
    + apply spec_build_prints in H. discriminate.
    + destruct (fst (spec_build (config_pairs (snd (FileRead fw config_file))) None));
        simpl in H; try tauto.
      destruct H as [H|[]]. injection H as <-. auto.
  - simpl. intros [H|[]]. injection H as <-. auto.
Qed.

Lemma configuration_events_other (found : bool) (e : event) :
  In e (configuration_events found) ->
  is_print e = true \/ exists msg, e = EvDisplayErrorText msg.
Proof.
  unfold configuration_events, read_error. destruct found.
  - rewrite !in_app_iff. intros [H|[H|H]].
    + destruct (fst (FileRead fw config_file) =? 0); simpl in H; [|tauto].
      destruct H as [<-|[]]. eauto.
    + left. by eapply spec_build_prints.
    + destruct (fst (spec_build (config_pairs (snd (FileRead fw config_file))) None));
        simpl in H; try tauto.
      destruct H as [<-|[]]. eauto.
  - simpl. intros [<-|[]]. eauto.
Qed.

(** How a run of [efi_main] ends, as far as [main.c] decides it. *)
Inductive ending :=
| Returns (status : EFI_STATUS)  (* [efi_main] returns [status] *)
| Faults                         (* it dereferences an invalid pointer *)
| CallsMenu.                     (* it calls [DisplayMenu], and returns
                                    [EFI_SUCCESS] if the menu returns *)

Section StartupRun.

Variable PRESET_OPTIONS_SIZE : nat.
Variable banner : string.
Variables VERSION_MAJOR VERSION_MINOR VERSION_PATCH : Z.

(** [ends m e m']: from the machine [m], and whatever the menu does once
    it is called, [efi_main] ends as [e] says with the machine [m']; for
    [CallsMenu], [m'] is the machine the menu starts from and the run goes
    on as the menu does. *)
Definition ends (m : machine) (e : ending) (m' : machine) : Prop :=
  forall menu : M unit,
    efi_main PRESET_OPTIONS_SIZE banner VERSION_MAJOR VERSION_MINOR VERSION_PATCH menu m
    = match e with
      | Returns status => (Val status, m')
      | Faults => (Trap, m')
      | CallsMenu => (menu ;; ret EFI_SUCCESS) m'
      end.

(** A run has one ending and one machine at its ending. *)
Lemma ends_functional (m : machine) (e1 e2 : ending) (m1 m2 : machine) :
  ends m e1 m1 -> ends m e2 m2 -> e1 = e2 /\ m1 = m2.
Proof.
  intros H1 H2.
  pose proof (H1 (ret tt)) as Hr1. pose proof (H2 (ret tt)) as Hr2.
  pose proof (H1 trap) as Ht1. pose proof (H2 trap) as Ht2.
  rewrite Hr1 in Hr2. rewrite Ht1 in Ht2. clear H1 H2 Hr1 Ht1.
  destruct e1, e2; unfold bind, ret, trap in *; cbn in *;
    try discriminate; split; congruence.
Qed.

(** The run of [efi_main] once it has the loaded image and the root
    directory. *)
Lemma efi_main_run (m : machine) :
  EFI_ERROR (HandleProtocol_status fw) = false ->
  LibOpenRoot_ok fw = true ->
  let pairs := config_pairs (snd (FileRead fw config_file)) in
  let found := FileExists fw config_file in
  let can_continue :=
    found && builds pairs && FileExists fw "\efi\boot\boot.efi"
      && FileExists fw "\efi\boot\boot.iso" in
  let offered := FileExists fw "\casper-rw" && can_continue in
  let welcome :=
    [EvClearScreen;
     EvPrint banner [ArgD VERSION_MAJOR; ArgD VERSION_MINOR; ArgD VERSION_PATCH]] in
  if found && negb (entry_first pairs) then
    exists m',
      ends m Faults m' /\
      preset_options_array m' = replicate PRESET_OPTIONS_SIZE false /\
      trace m' = trace m ++ welcome ++ configuration_events true
  else
    exists m',
      ends m (if can_continue then CallsMenu else Returns EFI_LOAD_ERROR) m' /\
      preset_options_array m'
      = (if offered then <[4%nat:=true]> (replicate PRESET_OPTIONS_SIZE false)
         else replicate PRESET_OPTIONS_SIZE false) /\
      trace m'
      = trace m ++ welcome ++ configuration_events found
          ++ missing_file_events (FileExists fw "\efi\boot\boot.efi")
               "Error: can't find GRUB bootloader!.\n"
          ++ missing_file_events (FileExists fw "\efi\boot\boot.iso")
               "Error: can't find ISO file to boot!.\n"
          ++ persistence_events offered
          ++ final_events can_continue /\
      (found = true ->
       match fst (spec_build pairs None) with
       | Built os => is_store (heap m') (distributionListRoot m') os
       | Unsupported _ => distributionListRoot m' = NULL
       | NoActiveEntry => True
       end).
Proof.
  intros Hhandle Hroot pairs found can_continue offered welcome.
  subst can_continue offered found. unfold ends, configuration_events.
  destruct (FileExists fw config_file) eqn:Hfile; cbn [negb andb].
  - set (m0 := with_event
                 (EvPrint banner [ArgD VERSION_MAJOR; ArgD VERSION_MINOR; ArgD VERSION_PATCH])
                 (with_event EvClearScreen
                    (with_presets (replicate PRESET_OPTIONS_SIZE false) m))).
    assert (forall menu,
              efi_main PRESET_OPTIONS_SIZE banner VERSION_MAJOR VERSION_MINOR VERSION_PATCH
                menu m
              = match ReadConfigurationFile config_file m0 with
                | (Val _, m1) =>
                    (can_continue <-
                       (if (distributionListRoot m1 =? NULL)%nat
                        then DisplayErrorText "Error: configuration file parsing error.\n" ;;
                             ret false
                        else ret true) ;;
                     can_continue <- require_file "\efi\boot\boot.efi"
                                       "Error: can't find GRUB bootloader!.\n" can_continue ;;
                     can_continue <- require_file "\efi\boot\boot.iso"
                                       "Error: can't find ISO file to boot!.\n" can_continue ;;
                     (if FileExists fw "\casper-rw" && (can_continue : bool) then
                        DisplayColoredText "Found a persistence file! You can enable persistence by selecting it in the Modify Boot Settings screen.\n" ;;
                        (fun m => (Val tt, with_presets (<[4%nat:=true]> (preset_options_array m)) m))
                      else ret tt) ;;
                     if can_continue then
                       DisplayMenu menu ;;
                       ret EFI_SUCCESS
                     else
                       DisplayErrorText "Cannot continue because core files are missing or damaged.\nRestarting...\n" ;;
                       Stall (1000 * 1000) ;;
                       ret EFI_LOAD_ERROR) m1
                | (Trap, m1) => (Trap, m1)
                | (Handoff, m1) => (Handoff, m1)
                end) as Hstep.
    { intros menu. unfold efi_main. rewrite Hhandle, Hroot. cbn [negb].
      unfold check_configuration. rewrite Hfile. cbn [negb].
      unfold bind at 1 2 3 4 5, Print, emit, ret at 1. cbv beta iota. fold m0.
      destruct (ReadConfigurationFile config_file m0) as [[[]| |] m1]; reflexivity. }
    pose proof (ReadConfigurationFile_refines config_file m0) as Href. cbv zeta in Href.
    fold pairs in Href. fold pairs.
    pose proof (spec_build_verdict pairs) as Hverdict. unfold builds.
    destruct Href as (Ht & Hps & _ & Hv).
    assert (trace (snd (ReadConfigurationFile config_file m0))
            = trace m ++ welcome ++ read_error (fst (FileRead fw config_file))
                ++ snd (spec_build pairs None)) as Ht'.
    { rewrite Ht. unfold m0. destruct m. simpl. by rewrite <- !app_assoc. }
    assert (preset_options_array (snd (ReadConfigurationFile config_file m0))
            = replicate PRESET_OPTIONS_SIZE false) as Hps'.
    { rewrite Hps. unfold m0. by destruct m. }
    clear Ht Hps.
    destruct (ReadConfigurationFile config_file m0) as [out m1].
    cbn [fst snd] in *.
    destruct (fst (spec_build pairs None)) as [os|f|].
    + destruct Hverdict as [-> _]. destruct Hv as (-> & Hr & _ & Hstore). cbn [negb].
      rewrite <- Hr in Hstore.
      destruct m1 as [h1 r1 ps1 t1 a1]. cbn [trace preset_options_array heap
        distributionListRoot] in *. subst t1 ps1.
      destruct (FileExists fw "\efi\boot\boot.efi") eqn:Hefi,
        (FileExists fw "\efi\boot\boot.iso") eqn:Hiso,
        (FileExists fw "\casper-rw") eqn:Hcasper; cbn [negb andb];
        (eexists; split;
         [intros menu; rewrite Hstep, Hr; cbn [Nat.eqb NULL];
          unfold require_file, DisplayMenu, bind, DisplayErrorText, DisplayColoredText, Stall,
            emit, ret; rewrite Hefi, Hiso; cbn [negb andb]; cbv beta iota; reflexivity|]);
        unfold missing_file_events, persistence_events, final_events, with_event, with_presets;
        cbn [trace preset_options_array heap distributionListRoot];
        rewrite <- ?app_assoc; cbn [app]; rewrite ?app_nil_r;
        (split; [reflexivity|]); (split; [reflexivity|]); intros _; exact Hstore.
    + destruct Hverdict as [-> _]. destruct Hv as (-> & Hr). cbn [negb].
      destruct m1 as [h1 r1 ps1 t1 a1]. cbn [trace preset_options_array heap
        distributionListRoot] in *. subst t1 ps1 r1.
      destruct (FileExists fw "\efi\boot\boot.efi") eqn:Hefi,
        (FileExists fw "\efi\boot\boot.iso") eqn:Hiso;
        cbn [negb andb]; rewrite ?andb_false_r;
        (eexists; split;
         [intros menu; rewrite Hstep; cbn [Nat.eqb NULL distributionListRoot];
          unfold require_file, DisplayMenu, bind, DisplayErrorText, DisplayColoredText, Stall,
            emit, ret; rewrite Hefi, Hiso; cbn [negb andb]; rewrite ?andb_false_r;
          cbv beta iota; reflexivity|]);
        unfold missing_file_events, persistence_events, final_events, with_event, with_presets;
        cbn [trace preset_options_array heap distributionListRoot];
        rewrite <- ?app_assoc; cbn [app]; rewrite ?app_nil_r;
        (split; [reflexivity|]); (split; [reflexivity|]); intros _; reflexivity.
    + rewrite Hverdict. destruct Hv as (-> & Hr). cbn [negb].
      exists m1. split; [intros menu; by rewrite Hstep|].
      split; [exact Hps'|]. rewrite Ht'. cbn [fst snd]. by rewrite app_nil_r.
  - destruct m as [h r ps t a].
    destruct (FileExists fw "\efi\boot\boot.efi") eqn:Hefi,
      (FileExists fw "\efi\boot\boot.iso") eqn:Hiso;
      cbn [negb andb]; rewrite ?andb_false_r;
      (eexists; split;
       [intros menu; unfold efi_main; rewrite Hhandle, Hroot; cbn [negb];
        unfold check_configuration; rewrite Hfile; cbn [negb];
        unfold require_file, bind, Print, DisplayErrorText, DisplayColoredText, Stall,
          emit, ret; rewrite Hefi, Hiso; cbn [negb andb]; rewrite ?andb_false_r;
        cbv beta iota; reflexivity|]);
      unfold missing_file_events, persistence_events, final_events, with_event, with_presets;
      cbn [trace preset_options_array heap distributionListRoot];
      rewrite <- ?app_assoc; cbn [app];
      (split; [reflexivity|]); (split; [reflexivity|]); discriminate.
Qed.

Lemma no_menu_before_end (found efi iso offered : bool) (msg1 msg2 : string)
    (welcome_fmt : string) (args : list print_arg) :
  ~ In EvDisplayMenu
      ([EvClearScreen; EvPrint welcome_fmt args] ++ configuration_events found
         ++ missing_file_events efi msg1 ++ missing_file_events iso msg2
         ++ persistence_events offered).
Proof.
  rewrite !in_app_iff. intros [H|[H|[H|[H|H]]]].
  - simpl in H. intuition discriminate.
  - apply configuration_events_other in H as [H|[msg H]]; discriminate.
  - destruct efi; simpl in H; intuition discriminate.
  - destruct iso; simpl in H; intuition discriminate.
  - destruct offered; simpl in H; intuition discriminate.
Qed.
Lemma error_in_startup_events (found efi iso offered can_continue : bool)
    (msg welcome_fmt : string) (args : list print_arg) :
  msg <> "Error: Couldn't read configuration information.\n" ->
  msg <> "Error: configuration file parsing error.\n" ->
  msg <> "Cannot continue because core files are missing or damaged.\nRestarting...\n" ->
  In (EvDisplayErrorText msg)
     ([EvClearScreen; EvPrint welcome_fmt args] ++ configuration_events found
        ++ missing_file_events efi "Error: can't find GRUB bootloader!.\n"
        ++ missing_file_events iso "Error: can't find ISO file to boot!.\n"
        ++ persistence_events offered ++ final_events can_continue) <->
  found = false /\ msg = "Error: can't find configuration file.\n" \/
  efi = false /\ msg = "Error: can't find GRUB bootloader!.\n" \/
  iso = false /\ msg = "Error: can't find ISO file to boot!.\n".
Proof.
  intros Hread Hparse Hend. rewrite !in_app_iff. split.
  - intros [H|[H|[H|[H|[H|H]]]]].
    + simpl in H. intuition discriminate.
    + apply configuration_events_error in H as [[-> ->]|[[-> _]|[-> _]]];
        [auto|contradiction|contradiction].
    + destruct efi; simpl in H; [tauto|]. destruct H as [H|[]]. injection H as <-. auto.
    + destruct iso; simpl in H; [tauto|]. destruct H as [H|[]]. injection H as <-. auto.
    + destruct offered; simpl in H; intuition discriminate.
    + destruct can_continue; simpl in H; [intuition discriminate|].
      destruct H as [H|[H|[]]]; [|discriminate]. injection H as <-. contradiction.
  - intros [[-> ->]|[[-> ->]|[-> ->]]].
    + right. left. simpl. tauto.
    + do 2 right. left. simpl. tauto.
    + do 3 right. left. simpl. tauto.
Qed.

(** X13. Once the display is set up, [efi_main] calls [DisplayMenu]
    exactly when the loaded image and the root directory are found, the
    configuration file, the boot loader and the ISO file exist, and the
    configuration builds a store (every directive after an [entry]
    directive, every family with both paths).  In every other case it
    ends without calling the menu: it faults, or it returns an error
    status.  It returns [EFI_SUCCESS] only after the menu has returned. *)
Theorem startup_reaches_menu_iff (m : machine) :
  let pairs := config_pairs (snd (FileRead fw config_file)) in
  exists e m' evs,
    ends m e m' /\
    trace m' = trace m ++ evs /\
    (e = CallsMenu <->
     EFI_ERROR (HandleProtocol_status fw) = false /\
     LibOpenRoot_ok fw = true /\
     FileExists fw config_file = true /\
     entry_first pairs = true /\
     families_supported pairs = true /\
     FileExists fw "\efi\boot\boot.efi" = true /\
     FileExists fw "\efi\boot\boot.iso" = true) /\
    (In EvDisplayMenu evs <-> e = CallsMenu) /\
    (e = CallsMenu \/ e = Faults \/
     exists status, e = Returns status /\ EFI_ERROR status = true).
Proof.
  intros pairs.
  destruct (EFI_ERROR (HandleProtocol_status fw)) eqn:Hhandle.
  { exists (Returns (HandleProtocol_status fw)),
      (with_event (EvStall (3 * 1000 * 1000))
         (with_event (EvPrint "Error: could not find loaded image: %d\n"
                        [ArgD (HandleProtocol_status fw)]) m)),
      [EvPrint "Error: could not find loaded image: %d\n" [ArgD (HandleProtocol_status fw)];
       EvStall (3 * 1000 * 1000)].
    split; [intros menu; unfold efi_main; by rewrite Hhandle|].
    split; [destruct m; cbn; by rewrite <- app_assoc|].
    split; [split; [discriminate|intros [H _]; discriminate]|].
    split; [split; [intros [H|[H|[]]]; discriminate|discriminate]|].
    right. right. eauto. }
  destruct (LibOpenRoot_ok fw) eqn:Hroot; cycle 1.
  { exists (Returns EFI_LOAD_ERROR),
      (with_event (EvStall (3 * 1000 * 1000))
         (with_event (EvDisplayErrorText "Unable to open root directory.\n") m)),
      [EvDisplayErrorText "Unable to open root directory.\n"; EvStall (3 * 1000 * 1000)].
    split; [intros menu; unfold efi_main; by rewrite Hhandle, Hroot|].
    split; [destruct m; cbn; by rewrite <- app_assoc|].
    split; [split; [discriminate|intros (_ & H & _); discriminate]|].
    split; [split; [intros [H|[H|[]]]; discriminate|discriminate]|].
    right. right. exists EFI_LOAD_ERROR. split; reflexivity. }
  pose proof (efi_main_run m Hhandle Hroot) as Hrun. cbv zeta in Hrun. fold pairs in Hrun.
  set (can_continue := FileExists fw config_file && builds pairs
                         && FileExists fw "\efi\boot\boot.efi"
                         && FileExists fw "\efi\boot\boot.iso") in *.
  assert (can_continue = true <->
          FileExists fw config_file = true /\ entry_first pairs = true /\
          families_supported pairs = true /\
          FileExists fw "\efi\boot\boot.efi" = true /\
          FileExists fw "\efi\boot\boot.iso" = true) as Hcan.
  { unfold can_continue. rewrite !andb_true_iff, builds_iff. tauto. }
  destruct (FileExists fw config_file && negb (entry_first pairs)) eqn:Hfault.
  - apply andb_true_iff in Hfault as [Hfile Hfirst]. apply negb_true_iff in Hfirst.
    destruct Hrun as (m' & Hends & _ & Ht).
    exists Faults, m'. eexists. split; [exact Hends|]. split; [exact Ht|].
    split; [split; [discriminate|intros (_ & _ & _ & H & _); congruence]|].
    split; [|auto].
    split; [|discriminate]. intros H. exfalso.
    apply (no_menu_before_end true true true false "" "" banner
             [ArgD VERSION_MAJOR; ArgD VERSION_MINOR; ArgD VERSION_PATCH]).
    simpl missing_file_events. simpl persistence_events.
    rewrite !app_nil_r. exact H.
  - destruct Hrun as (m' & Hends & _ & Ht & _).
    exists (if can_continue then CallsMenu else Returns EFI_LOAD_ERROR), m'.
    eexists. split; [exact Hends|]. split; [exact Ht|].
    assert ((if can_continue then CallsMenu else Returns EFI_LOAD_ERROR) = CallsMenu
            <-> can_continue = true) as Hval.
    { destruct can_continue; split; try reflexivity; discriminate. }
    split; [rewrite Hval, Hcan; tauto|]. split.
    + rewrite Hval. rewrite !app_assoc, in_app_iff, <- !app_assoc. split.
      * intros [H|H]; [exfalso; revert H; apply no_menu_before_end|].
        destruct can_continue; [reflexivity|]. simpl in H. intuition discriminate.
      * intros ->. right. simpl. tauto.
    + destruct can_continue; [auto|]. right. right.
      exists EFI_LOAD_ERROR. split; reflexivity.
Qed.

(** X14. Start-up checks all three required files and reports each one
    that is missing, not only the first: with the loaded image and the
    root directory at hand, and no directive before the first entry in a
    configuration file that exists, the error for the configuration
    file, for the boot loader and for the ISO file is shown exactly when
    that file does not exist; and when one is missing, start-up says that
    it cannot continue, stalls for a second and returns
    [EFI_LOAD_ERROR], whatever the menu would do. *)
Theorem missing_files_all_reported (m : machine) :
  EFI_ERROR (HandleProtocol_status fw) = false ->
  LibOpenRoot_ok fw = true ->
  (FileExists fw config_file = true ->
   entry_first (config_pairs (snd (FileRead fw config_file))) = true) ->
  exists e m' evs,
    ends m e m' /\
    trace m' = trace m ++ evs /\
    (In (EvDisplayErrorText "Error: can't find configuration file.\n") evs <->
     FileExists fw config_file = false) /\
    (In (EvDisplayErrorText "Error: can't find GRUB bootloader!.\n") evs <->
     FileExists fw "\efi\boot\boot.efi" = false) /\
    (In (EvDisplayErrorText "Error: can't find ISO file to boot!.\n") evs <->
     FileExists fw "\efi\boot\boot.iso" = false) /\
    (FileExists fw config_file = false \/ FileExists fw "\efi\boot\boot.efi" = false \/
     FileExists fw "\efi\boot\boot.iso" = false ->
     e = Returns EFI_LOAD_ERROR /\
     last evs = Some (EvStall 1000000)).
Proof.
  intros Hhandle Hroot Hfirst.
  pose proof (efi_main_run m Hhandle Hroot) as Hrun. cbv zeta in Hrun.
  assert (FileExists fw config_file
          && negb (entry_first (config_pairs (snd (FileRead fw config_file)))) = false)
    as Hfault.
  { destruct (FileExists fw config_file); [|reflexivity]. by rewrite Hfirst. }
  rewrite Hfault in Hrun. destruct Hrun as (m' & Hends & _ & Ht & _).
  eexists _, m', _. split; [exact Hends|]. split; [exact Ht|].
  rewrite !error_in_startup_events by discriminate.
  repeat split; try (intros [[? H]|[[? H]|[? H]]]; [assumption || discriminate H..]);
    try (intros ->; tauto).
  - destruct H as [->|[->| ->]]; rewrite ?andb_false_r; reflexivity.
  - destruct H as [->|[->| ->]]; rewrite ?andb_false_r; cbn [andb final_events];
      rewrite !app_assoc, last_app; reflexivity.
Qed.

(** X15. The preset options as the menu receives them, or as start-up
    leaves them when it ends without the menu: every option is cleared,
    and then the one at index 4, the persistence option, is set exactly
    when the persistence file exists and start-up goes on to call the
    menu; no other option is set by start-up. *)
Theorem persistence_preset_iff (m : machine) :
  EFI_ERROR (HandleProtocol_status fw) = false ->
  LibOpenRoot_ok fw = true ->
  (4 < PRESET_OPTIONS_SIZE)%nat ->
  exists e m',
    ends m e m' /\
    length (preset_options_array m') = PRESET_OPTIONS_SIZE /\
    (forall i, i <> 4%nat -> (i < PRESET_OPTIONS_SIZE)%nat ->
               preset_options_array m' !! i = Some false) /\
    (preset_options_array m' !! 4%nat = Some true <->
     FileExists fw "\casper-rw" = true /\ e = CallsMenu).
Proof.
  intros Hhandle Hroot Hsize.
  pose proof (efi_main_run m Hhandle Hroot) as Hrun. cbv zeta in Hrun.
  destruct (FileExists fw config_file
            && negb (entry_first (config_pairs (snd (FileRead fw config_file))))).
  - destruct Hrun as (m' & Hends & Hps & _). exists Faults, m'.
    split; [exact Hends|]. rewrite Hps, length_replicate. split; [reflexivity|]. split.
    + intros i _ Hi. by apply lookup_replicate_2.
    + rewrite lookup_replicate_2 by lia. split; [discriminate|]. intros [_ H]. discriminate.
  - destruct Hrun as (m' & Hends & Hps & _). eexists _, m'. split; [exact Hends|].
    rewrite Hps. clear Hps Hends.
    match goal with |- context [FileExists fw "\casper-rw" && ?c] => generalize c end.
    intros can_continue.
    destruct (FileExists fw "\casper-rw"), can_continue; cbn [andb];
      rewrite ?length_insert, length_replicate; (split; [reflexivity|]); split;
      try (intros i Hne4 Hi; rewrite ?list_lookup_insert_ne by congruence;
           by apply lookup_replicate_2);
      rewrite ?list_lookup_insert_eq by (rewrite length_replicate; lia);
      rewrite ?lookup_replicate_2 by lia;
      split; try discriminate; try tauto;
      intros [H1 H2]; discriminate.
Qed.

(** C6. A configuration file that exists and yields no [entry] directive
    (an empty or unreadable buffer, or keys that are no keywords only)
    does not stop start-up: with the boot loader and the ISO file
    present, [efi_main] shows at most the read error, does not say that
    it cannot continue, and calls [DisplayMenu] with a store of zero
    entries; and on that store every launch, whatever the index, faults
    on the null node after the head. *)
Theorem zero_entries_reach_menu (m : machine) :
  EFI_ERROR (HandleProtocol_status fw) = false ->
  LibOpenRoot_ok fw = true ->
  FileExists fw config_file = true ->
  FileExists fw "\efi\boot\boot.efi" = true ->
  FileExists fw "\efi\boot\boot.iso" = true ->
  let pairs := config_pairs (snd (FileRead fw config_file)) in
  entry_first pairs = true ->
  entry_names pairs = [] ->
  exists m' evs,
    ends m CallsMenu m' /\
    trace m' = trace m ++ evs /\
    last evs = Some EvDisplayMenu /\
    (fst (FileRead fw config_file) = 0 ->
     In (EvDisplayErrorText "Error: Couldn't read configuration information.\n") evs) /\
    ~ In (EvDisplayErrorText
            "Cannot continue because core files are missing or damaged.\nRestarting...\n")
         evs /\
    is_store (heap m') (distributionListRoot m') [] /\
    forall params distribution,
      fst (BootLinuxWithOptions params distribution m') = Trap.
Proof.
  intros Hhandle Hroot Hfile Hefi Hiso pairs Hfirst Hnames.
  pose proof (efi_main_run m Hhandle Hroot) as Hrun. cbv zeta in Hrun. fold pairs in Hrun.
  destruct (no_entries_build_empty pairs Hfirst Hnames) as [Hv Hdiag].
  assert (builds pairs = true) as Hb by (unfold builds; by rewrite Hv).
  rewrite Hfile, Hefi, Hiso, Hfirst, Hb, Hv in Hrun. cbn [negb andb] in Hrun.
  rewrite andb_true_r in Hrun.
  destruct Hrun as (m' & Hends & _ & Ht & Hstore). specialize (Hstore eq_refl).
  exists m'. eexists. split; [exact Hends|]. split; [exact Ht|].
  split; [|split; [|split; [|split; [exact Hstore|]]]].
  - cbn [final_events]. rewrite !app_assoc, last_app. reflexivity.
  - intros Hzero. rewrite !in_app_iff. right. left.
    unfold configuration_events, read_error. rewrite Hzero. simpl. tauto.
  - rewrite !in_app_iff. intros [H|[H|[H|[H|[H|H]]]]].
    + simpl in H. intuition discriminate.
    + apply configuration_events_error in H as [[H _]|[[H _]|[H _]]]; discriminate.
    + destruct H.
    + destruct H.
    + destruct (FileExists fw "\casper-rw"); simpl in H; intuition discriminate.
    + simpl in H. intuition discriminate.
  - intros params distribution. by rewrite (proj1 (launch_empty_store_faults params m' distribution Hstore)).
Qed.

(** X18. A configuration that exists and is abandoned at an unsupported
    family halts start-up: with the loaded image and the root directory
    at hand, the parsing error is shown (and the read error, when the
    file read as zero bytes), [efi_main] says that it cannot continue,
    stalls for a second and returns [EFI_LOAD_ERROR] with a null store
    root, and the menu is not called. *)
Theorem unsupported_family_halts_startup (m : machine) :
  EFI_ERROR (HandleProtocol_status fw) = false ->
  LibOpenRoot_ok fw = true ->
  FileExists fw config_file = true ->
  let pairs := config_pairs (snd (FileRead fw config_file)) in
  entry_first pairs = true ->
  families_supported pairs = false ->
  exists m' evs,
    ends m (Returns EFI_LOAD_ERROR) m' /\
    trace m' = trace m ++ evs /\
    distributionListRoot m' = NULL /\
    (fst (FileRead fw config_file) = 0 ->
     In (EvDisplayErrorText "Error: Couldn't read configuration information.\n") evs) /\
    In (EvDisplayErrorText "Error: configuration file parsing error.\n") evs /\
    In (EvDisplayErrorText
          "Cannot continue because core files are missing or damaged.\nRestarting...\n") evs /\
    last evs = Some (EvStall 1000000) /\
    ~ In EvDisplayMenu evs.
Proof.
  intros Hhandle Hroot Hfile pairs Hfirst Hsup.
  pose proof (efi_main_run m Hhandle Hroot) as Hrun. cbv zeta in Hrun. fold pairs in Hrun.
  destruct (spec_build_unsupported pairs None Hsup (fun _ => Hfirst))
    as (key & family & Hv & _).
  assert (builds pairs = false) as Hb by (unfold builds; by rewrite Hv).
  rewrite Hfile, Hfirst, Hb, Hv in Hrun. cbn [negb andb] in Hrun.
  rewrite andb_false_r in Hrun.
  destruct Hrun as (m' & Hends & _ & Ht & Hnull). specialize (Hnull eq_refl).
  exists m'. eexists. split; [exact Hends|]. split; [exact Ht|]. split; [exact Hnull|].
  split; [|split; [|split; [|split]]].
  - intros Hzero. rewrite !in_app_iff. right. left.
    unfold configuration_events, read_error. rewrite Hzero, !in_app_iff. left. simpl. tauto.
  - rewrite !in_app_iff. right. left.
    unfold configuration_events. fold pairs. rewrite Hv, !in_app_iff. right. right.
    simpl. tauto.
  - rewrite !in_app_iff. do 5 right. simpl. tauto.
  - cbn [final_events]. rewrite !app_assoc, last_app. reflexivity.
  - rewrite !app_assoc, in_app_iff, <- !app_assoc. intros [H|H].
    + revert H. apply no_menu_before_end.
    + simpl in H. intuition discriminate.
Qed.

End StartupRun.

End Enterprise.

(** ** The scenarios of the design, run on the model *)

(** [ReadConfigurationFile] with the sample registry, on a file that the
    tokenizer splits into [pairs] and that read as [read_bytes] bytes. *)
Definition parse_sample (read_bytes : Z) (pairs : list (string * string)) : M unit :=
  ReadConfigurationFile sample_KernelLocation sample_InitRDLocation (fun _ => pairs)
    (sample_firmware read_bytes EFI_SUCCESS EFI_SUCCESS) config_file.

(** The machine after the two-entry scenario. *)
Definition sample_store : machine := snd (parse_sample 80 sample_pairs initial_machine).

Definition option_A : LinuxBootOption :=
  mkLinuxBootOption (Some "A") None (Some "/a/vmlinuz") (Some "/a/initrd.img") (Some "/a").
Definition option_B : LinuxBootOption :=
  mkLinuxBootOption (Some "B") (Some "ubuntu") (Some "/casper/vmlinuz")
    (Some "/casper/initrd.lz") (Some "casper").

(** [BootLinuxWithOptions] with the sample conversion, no extra kernel
    parameters, on a firmware that answers [load] and [start]. *)
Definition launch_sample (load start : EFI_STATUS) (distribution : Z) : M EFI_STATUS :=
  BootLinuxWithOptions sample_UTF16toASCII (sample_firmware 80 load start) [] distribution.

(** [ends], for [efi_main] on a volume with every file, whose
    configuration file read as [read_bytes] bytes and splits into
    [pairs]. *)
Definition startup_sample (read_bytes : Z) (pairs : list (string * string))
    : machine -> ending -> machine -> Prop :=
  ends sample_KernelLocation sample_InitRDLocation (fun _ => pairs)
    (sample_firmware read_bytes EFI_SUCCESS EFI_SUCCESS) 5%nat "Enterprise" 0 1 0.

Ltac solve_rep := cbv; repeat first [reflexivity | discriminate | eexists | split].

Example two_entry_scenario :
  fst (parse_sample 80 sample_pairs initial_machine) = Val tt /\
  trace sample_store = [] /\
  is_store (heap sample_store) (distributionListRoot sample_store) [option_A; option_B].
Proof. split; [reflexivity|]. split; [reflexivity|]. solve_rep. Qed.

Example unknown_family_scenario :
  let res := parse_sample 80 [("entry", "Test"); ("family", "unknownos")] initial_machine in
  fst res = Val tt /\
  distributionListRoot (snd res) = NULL /\
  trace (snd res) = [EvPrint "Distribution family %a is not supported.\n" [ArgA "unknownos"]].
Proof. repeat split. Qed.

Example launch_first_entry_scenario :
  trace (snd (launch_sample EFI_SUCCESS EFI_SUCCESS 0 sample_store)) =
  [EvSetVariable Enterprise_LinuxBootOptions "" 1 false;
   EvSetVariable Enterprise_LinuxKernelPath "/a/vmlinuz" 11 false;
   EvSetVariable Enterprise_InitRDPath "/a/initrd.img" 14 false;
   EvSetVariable Enterprise_BootFolder "/a" 3 false;
   EvLoadImage 6%nat; EvClearScreen; EvStartImage; EvStall 3000000].
Proof. reflexivity. Qed.

(** A valid entry, then an entry of an unknown family. *)
Definition unknown_family_pairs : list (string * string) :=
  [("entry", "A"); ("family", "ubuntu"); ("entry", "Test"); ("family", "unknownos")].

(** An entry resolved from its family, then given a kernel by hand. *)
Definition override_pairs : list (string * string) :=
  [("entry", "U"); ("family", "ubuntu"); ("kernel", "/custom/vmlinuz"); ("entry", "B")].

(** A file without any [entry] directive. *)
Definition no_entry_pairs : list (string * string) := [("timeout", "5")].

(** C1, refuted as stated: on the two-entry store, index 2 is out of
    range; the launcher has then already written the extra kernel
    parameters, and it stops on the null node instead of returning. *)
Lemma launch_out_of_range_counterexample :
  let res := launch_sample EFI_SUCCESS EFI_SUCCESS 2 sample_store in
  is_store (heap sample_store) (distributionListRoot sample_store) [option_A; option_B] /\
  fst res = Trap /\
  variable_writes (trace (snd res)) = [EvSetVariable Enterprise_LinuxBootOptions "" 1 false] /\
  ~ (fst res = Val EFI_LOAD_ERROR /\ variable_writes (trace (snd res)) = []).
Proof.
  split; [solve_rep|]. split; [reflexivity|]. split; [reflexivity|].
  intros [H _]. discriminate H.
Qed.

Lemma launch_out_of_range_witness :
  let res := launch_sample EFI_SUCCESS EFI_SUCCESS 2 sample_store in
  variable_writes (trace (snd res))
  = variable_writes (trace sample_store)
    ++ [write_of Enterprise_LinuxBootOptions (sized_str sample_UTF16toASCII [])] /\
  List.filter is_load_image (trace (snd res)) = List.filter is_load_image (trace sample_store) /\
  heap (snd res) = heap sample_store.
Proof.
  apply (launch_out_of_range sample_UTF16toASCII (sample_firmware 80 EFI_SUCCESS EFI_SUCCESS)
           [] sample_store None [Some option_A; Some option_B] 2).
  - solve_rep.
  - simpl. lia.
Defined.


Lemma well_formed_config_builds_store_witness :
  exists m' os sentinel,
    parse_sample 80 sample_pairs initial_machine = (Val tt, m') /\
    is_store (heap m') (distributionListRoot m') os /\
    fst (spec_build sample_KernelLocation sample_InitRDLocation sample_pairs None) = Built os /\
    length os = length (entry_names sample_pairs) /\
    map name os = map Some (entry_names sample_pairs) /\
    load (heap m') (distributionListRoot m') = Some (CellDistro sentinel) /\
    bootOption sentinel = NULL /\
    find_distribution 0 m' = (Val (next sentinel), m') /\
    forall i o, os !! i = Some o ->
      exists q d, find_distribution (Z.of_nat i) m' = (Val q, m') /\
                  load (heap m') q = Some (CellDistro d) /\
                  load (heap m') (bootOption d) = Some (CellOption o).
Proof.
  apply (well_formed_config_builds_store sample_KernelLocation sample_InitRDLocation
           (fun _ => sample_pairs) (sample_firmware 80 EFI_SUCCESS EFI_SUCCESS)
           config_file initial_machine).
  - reflexivity.
  - reflexivity.
Defined.

Lemma manual_override_wins_witness :
  exists m' os o,
    parse_sample 80 override_pairs initial_machine = (Val tt, m') /\
    is_store (heap m') (distributionListRoot m') os /\
    os !! 0%nat = Some o /\
    kernel_path o = Some "/custom/vmlinuz".
Proof.
  apply (manual_override_wins sample_KernelLocation sample_InitRDLocation
           (fun _ => override_pairs) (sample_firmware 80 EFI_SUCCESS EFI_SUCCESS)
           config_file initial_machine
           [("entry", "U"); ("family", "ubuntu")] [("entry", "B")] "kernel" "/custom/vmlinuz").
  - reflexivity.
  - reflexivity.
  - reflexivity.
  - reflexivity.
  - reflexivity.
Defined.

Lemma launch_writes_four_variables_witness :
  let res := launch_sample EFI_SUCCESS EFI_SUCCESS 1 sample_store in
  let writes :=
    handoff_writes sample_UTF16toASCII [] "/casper/vmlinuz" "/casper/initrd.lz" "casper" in
  exists tl,
    trace (snd res) = trace sample_store ++ writes ++ EvLoadImage (device_path_of sample_store) :: tl /\
    variable_writes (writes ++ EvLoadImage (device_path_of sample_store) :: tl) = writes /\
    length writes = 4%nat /\
    Forall (fun buf =>
              size_with_nul buf = Z.of_nat (strlena buf) + 1 /\
              stored_bytes buf (size_with_nul buf)
              = String.list_ascii_of_string (strcpya buf) ++ [Ascii.zero])
           [sized_str sample_UTF16toASCII []; "/casper/vmlinuz"; "/casper/initrd.lz"; "casper"].
Proof.
  apply (launch_writes_four_variables sample_UTF16toASCII
           (sample_firmware 80 EFI_SUCCESS EFI_SUCCESS) [] sample_store
           None [Some option_A; Some option_B] 1 option_B).
  - solve_rep.
  - reflexivity.
  - reflexivity.
  - reflexivity.
  - reflexivity.
  - repeat constructor.
Defined.


Lemma zero_entries_reach_menu_witness :
  (exists m' evs,
     startup_sample 0 [] initial_machine CallsMenu m' /\
     trace m' = trace initial_machine ++ evs /\
     last evs = Some EvDisplayMenu /\
     (fst (FileRead (sample_firmware 0 EFI_SUCCESS EFI_SUCCESS) config_file) = 0 ->
      In (EvDisplayErrorText "Error: Couldn't read configuration information.\n") evs) /\
     ~ In (EvDisplayErrorText
             "Cannot continue because core files are missing or damaged.\nRestarting...\n")
          evs /\
     is_store (heap m') (distributionListRoot m') [] /\
     forall params distribution,
       fst (BootLinuxWithOptions sample_UTF16toASCII
              (sample_firmware 0 EFI_SUCCESS EFI_SUCCESS) params distribution m') = Trap) /\
  (exists m' evs,
     startup_sample 80 no_entry_pairs initial_machine CallsMenu m' /\
     trace m' = trace initial_machine ++ evs /\
     last evs = Some EvDisplayMenu /\
     (fst (FileRead (sample_firmware 80 EFI_SUCCESS EFI_SUCCESS) config_file) = 0 ->
      In (EvDisplayErrorText "Error: Couldn't read configuration information.\n") evs) /\
     ~ In (EvDisplayErrorText
             "Cannot continue because core files are missing or damaged.\nRestarting...\n")
          evs /\
     is_store (heap m') (distributionListRoot m') [] /\
     forall params distribution,
       fst (BootLinuxWithOptions sample_UTF16toASCII
              (sample_firmware 80 EFI_SUCCESS EFI_SUCCESS) params distribution m') = Trap).
Proof.
  split.
  - apply (zero_entries_reach_menu sample_KernelLocation sample_InitRDLocation
             (fun _ => []) sample_UTF16toASCII (sample_firmware 0 EFI_SUCCESS EFI_SUCCESS)
             5%nat "Enterprise" 0 1 0 initial_machine).
    + reflexivity.
    + reflexivity.
    + reflexivity.
    + reflexivity.
    + reflexivity.
    + reflexivity.
    + reflexivity.
  - apply (zero_entries_reach_menu sample_KernelLocation sample_InitRDLocation
             (fun _ => no_entry_pairs) sample_UTF16toASCII
             (sample_firmware 80 EFI_SUCCESS EFI_SUCCESS)
             5%nat "Enterprise" 0 1 0 initial_machine).
    + reflexivity.
    + reflexivity.
    + reflexivity.
    + reflexivity.
    + reflexivity.
    + reflexivity.
    + reflexivity.
Defined.

Lemma index_not_found_faults_witness :
  let built := parse_sample 80 sample_pairs initial_machine in
  let res := launch_sample EFI_SUCCESS EFI_SUCCESS 2 (snd built) in
  fst built = Val tt /\
  fst res = Trap /\
  trace (snd res)
  = trace (snd built)
      ++ [write_of Enterprise_LinuxBootOptions (sized_str sample_UTF16toASCII [])].
Proof.
  apply (index_not_found_faults sample_KernelLocation sample_InitRDLocation
           (fun _ => sample_pairs) sample_UTF16toASCII
           (sample_firmware 80 EFI_SUCCESS EFI_SUCCESS) [] config_file initial_machine 2).
  - reflexivity.
  - reflexivity.
  - simpl. lia.
Defined.

Lemma sentinel_payload_never_accessed_witness :
  let res := parse_sample 80 sample_pairs initial_machine in
  let sentinel := S (length (heap initial_machine)) in
  fst res = Val tt /\
  (distributionListRoot (snd res) = sentinel \/ distributionListRoot (snd res) = NULL) /\
  exists accessed,
    payload_accesses (snd res) = payload_accesses initial_machine ++ accessed /\
    ~ In sentinel accessed.
Proof.
  apply (sentinel_payload_never_accessed sample_KernelLocation sample_InitRDLocation
           (fun _ => sample_pairs) (sample_firmware 80 EFI_SUCCESS EFI_SUCCESS)
           config_file initial_machine).
  reflexivity.
Defined.

Lemma device_path_released_on_failure_only_witness :
  let res := launch_sample EFI_LOAD_ERROR EFI_SUCCESS 0 sample_store in
  let path := device_path_of sample_store in
  load (heap sample_store) path = None /\
  (fst res = Val EFI_LOAD_ERROR <->
   EFI_ERROR (LoadImage_status (sample_firmware 80 EFI_LOAD_ERROR EFI_SUCCESS)) = true \/
   exists err, StartImage_status (sample_firmware 80 EFI_LOAD_ERROR EFI_SUCCESS) = Some err /\
               EFI_ERROR err = true) /\
  match fst res with
  | Val status =>
      if EFI_ERROR status
      then load (heap (snd res)) path = Some CellFreed
      else load (heap (snd res)) path = Some CellDevicePath
  | Handoff => load (heap (snd res)) path = Some CellDevicePath
  | Trap => False
  end.
Proof.
  apply (device_path_released_on_failure_only sample_UTF16toASCII
           (sample_firmware 80 EFI_LOAD_ERROR EFI_SUCCESS) [] sample_store
           None [Some option_A; Some option_B] 0 option_A
           "/a/vmlinuz" "/a/initrd.img" "/a").
  - solve_rep.
  - reflexivity.
  - reflexivity.
  - reflexivity.
  - reflexivity.
Defined.


(** * The display set-up

    [console_text_mode] and [SetupDisplay], which [efi_main] calls before
    anything else, and the three globals of [main.c] that they use. *)

(** What the program asks of the console, and what it prints meanwhile. *)
Inductive console_event :=
| CoQueryMode (mode : Z)
| CoSetMode (mode : Z)
| CoSetScreenText
| CoPrint (fmt : string) (args : list print_arg).

(** What the console answers. *)
Record Console := mkConsole {
  (** [ConOut->QueryMode(ConOut, mode, &a, &b)]: the status, and the values
      stored through the two output parameters, if any *)
  QueryMode : Z -> EFI_STATUS * option (Z * Z);
  (** status of [ConOut->SetMode(ConOut, mode)] *)
  SetMode_status : Z -> EFI_STATUS;
  (** status of [LibLocateProtocol] for the console control protocol *)
  LibLocateProtocol_status : EFI_STATUS;
  (** status of [ConsoleControl->SetMode] for the text screen *)
  ConsoleControl_SetMode_status : EFI_STATUS
}.

(** The globals [numberOfDisplayRows], [numberOfDisplayColoumns] and
    [highestModeNumberAvailable], and the console events so far, oldest
    first. *)
Record display := mkDisplay {
  numberOfDisplayRows : Z;
  numberOfDisplayColoumns : Z;
  highestModeNumberAvailable : Z;
  console_log : list console_event
}.

(** The globals when the program starts. *)
Definition initial_display : display := mkDisplay 0 0 0 [].

Section Display.

Variable con : Console.

Definition console_text_mode (d : display) : EFI_STATUS * display :=
  let err := LibLocateProtocol_status con in
  if EFI_ERROR err then (err, d)
  else (ConsoleControl_SetMode_status con,
        mkDisplay (numberOfDisplayRows d) (numberOfDisplayColoumns d)
          (highestModeNumberAvailable d) (console_log d ++ [CoSetScreenText])).

(** One turn of the [do ... while] loop: the status of the query and the
    globals after the increment. *)
Definition query_step (d : display) : EFI_STATUS * display :=
  let mode := highestModeNumberAvailable d in
  let '(err, stored) := QueryMode con mode in
  let '(rows, coloumns) :=
    match stored with
    | Some p => p
    | None => (numberOfDisplayRows d, numberOfDisplayColoumns d)
    end in
  (err,
   mkDisplay rows coloumns (to_UINTN (mode + 1))
     (console_log d
        ++ [CoQueryMode mode;
            CoPrint "Detected mode %d: %d x %d.\n" [ArgD mode; ArgD rows; ArgD coloumns]])).

(** The [do ... while (err == EFI_SUCCESS)] loop, for at most [fuel]
    turns; [None] when the loop is still running after them. *)
Fixpoint query_loop (fuel : nat) (d : display) : option display :=
  match fuel with
  | O => None
  | S fuel' =>
      let '(err, d') := query_step d in
      if err =? EFI_SUCCESS then query_loop fuel' d' else Some d'
  end.

Definition SetupDisplay (fuel : nat) (d : display) : option (EFI_STATUS * display) :=
  match query_loop fuel d with
  | None => None
  | Some d' =>
      let mode := to_UINTN (highestModeNumberAvailable d' - 1) in
      Some (SetMode_status con mode,
            mkDisplay (numberOfDisplayRows d') (numberOfDisplayColoumns d')
              (highestModeNumberAvailable d')
              (console_log d'
                 ++ [CoPrint "Setting display to be in mode %d.\n" [ArgD mode];
                     CoSetMode mode]))
  end.

(** The first lines of [efi_main]: both status codes are dropped. *)
Definition setup_console (fuel : nat) (d : display) : option display :=
  match SetupDisplay fuel (snd (console_text_mode d)) with
  | None => None
  | Some (_, d') => Some d'
  end.

(** The values the two globals hold after the queries for the [n] modes
    from [mode] on, when they held [cur] before. *)
Fixpoint stored_size (mode : Z) (n : nat) (cur : Z * Z) : Z * Z :=
  match n with
  | O => cur
  | S n' =>
      stored_size (mode + 1) n'
        (match snd (QueryMode con mode) with
         | Some p => p
         | None => cur
         end)
  end.

(** The events of the queries for the [n] modes from [mode] on. *)
Fixpoint query_events (mode : Z) (n : nat) (cur : Z * Z) : list console_event :=
  match n with
  | O => []
  | S n' =>
      let size := match snd (QueryMode con mode) with
                  | Some p => p
                  | None => cur
                  end in
      [CoQueryMode mode;
       CoPrint "Detected mode %d: %d x %d.\n" [ArgD mode; ArgD (fst size); ArgD (snd size)]]
        ++ query_events (mode + 1) n' size
  end.

Definition is_query (e : console_event) : bool :=
  match e with
  | CoQueryMode _ => true
  | _ => false
  end.

Definition is_set_mode (e : console_event) : bool :=
  match e with
  | CoSetMode _ => true
  | _ => false
  end.

Lemma query_loop_run (c : nat) :
  forall (d : display),
    0 <= highestModeNumberAvailable d ->
    highestModeNumberAvailable d + Z.of_nat c + 1 < UINTN_modulus ->
    (forall k : nat, (k < c)%nat ->
       fst (QueryMode con (highestModeNumberAvailable d + Z.of_nat k)) = EFI_SUCCESS) ->
    fst (QueryMode con (highestModeNumberAvailable d + Z.of_nat c)) <> EFI_SUCCESS ->
    forall fuel : nat, (c < fuel)%nat ->
      let size := stored_size (highestModeNumberAvailable d) (S c)
                    (numberOfDisplayRows d, numberOfDisplayColoumns d) in
      query_loop fuel d
      = Some (mkDisplay (fst size) (snd size)
                (highestModeNumberAvailable d + Z.of_nat c + 1)
                (console_log d
                   ++ query_events (highestModeNumberAvailable d) (S c)
                        (numberOfDisplayRows d, numberOfDisplayColoumns d))).
Proof.
  induction c as [|c IH]; intros d Hlo Hhi Hok Hfail fuel Hfuel;
    (destruct fuel as [|fuel]; [lia|]); cbn [query_loop]; unfold query_step.
  - rewrite Z.add_0_r in Hfail.
    destruct (QueryMode con (highestModeNumberAvailable d)) as [err stored] eqn:Hq.
    cbn [fst snd] in Hfail.
    destruct (match stored with
              | Some p => p
              | None => (numberOfDisplayRows d, numberOfDisplayColoumns d)
              end) as [rows coloumns] eqn:Hsize.
    destruct (Z.eqb_spec err EFI_SUCCESS) as [|_]; [contradiction|].
    cbn [stored_size query_events]. rewrite Hq. cbn [snd]. rewrite Hsize. cbn [fst snd].
    rewrite app_nil_r. do 2 f_equal. unfold to_UINTN. rewrite Z.mod_small by lia. lia.
  - pose proof (Hok 0%nat ltac:(lia)) as Hfirst. rewrite Z.add_0_r in Hfirst.
    destruct (QueryMode con (highestModeNumberAvailable d)) as [err stored] eqn:Hq.
    cbn [fst snd] in Hfirst. subst err.
    destruct (match stored with
              | Some p => p
              | None => (numberOfDisplayRows d, numberOfDisplayColoumns d)
              end) as [rows coloumns] eqn:Hsize.
    cbn [Z.eqb EFI_SUCCESS].
    assert (to_UINTN (highestModeNumberAvailable d + 1) = highestModeNumberAvailable d + 1)
      as Hnext by (unfold to_UINTN; rewrite Z.mod_small; lia).
    rewrite Hnext.
    match goal with |- query_loop fuel ?D = _ => set (d1 := D) end.
    specialize (IH d1). cbn [highestModeNumberAvailable numberOfDisplayRows
      numberOfDisplayColoumns console_log d1] in IH.
    rewrite IH; try lia.
    + cbn [stored_size query_events]. rewrite Hq. cbn [snd]. rewrite Hsize. cbn [fst snd].
      rewrite <- !app_assoc. do 2 f_equal. lia.
    + intros k Hk. replace (highestModeNumberAvailable d + 1 + Z.of_nat k)
        with (highestModeNumberAvailable d + Z.of_nat (S k)) by lia.
      apply Hok. lia.
    + replace (highestModeNumberAvailable d + 1 + Z.of_nat c)
        with (highestModeNumberAvailable d + Z.of_nat (S c)) by lia.
      exact Hfail.
Qed.

Lemma query_events_queries (n : nat) :
  forall mode cur,
    List.filter is_query (query_events mode n cur)
    = map (fun k : nat => CoQueryMode (mode + Z.of_nat k)) (seq 0 n) /\
    List.filter is_set_mode (query_events mode n cur) = [].
Proof.
  induction n as [|n IH]; intros mode cur; [split; reflexivity|].
  cbn [query_events app List.filter is_query is_set_mode seq map].
  destruct (IH (mode + 1) (match snd (QueryMode con mode) with
                           | Some p => p
                           | None => cur
                           end)) as [-> ->].
  split; [|reflexivity]. rewrite Z.add_0_r. f_equal.
  rewrite <- seq_shift, map_map. apply map_ext. intros k. f_equal. lia.
Qed.

Lemma stored_size_last (n : nat) :
  forall mode cur p,
    snd (QueryMode con (mode + Z.of_nat n)) = Some p ->
    snd (QueryMode con (mode + Z.of_nat n + 1)) = None ->
    stored_size mode (S (S n)) cur = p.
Proof.
  induction n as [|n IH]; intros mode cur p Hp Hnone.
  - rewrite Z.add_0_r in *. cbn [stored_size]. by rewrite Hp, Hnone.
  - change (stored_size mode (S (S (S n))) cur)
      with (stored_size (mode + 1) (S (S n))
              (match snd (QueryMode con mode) with Some q => q | None => cur end)).
    apply IH.
    + replace (mode + 1 + Z.of_nat n) with (mode + Z.of_nat (S n)) by lia. exact Hp.
    + replace (mode + 1 + Z.of_nat n + 1) with (mode + Z.of_nat (S n) + 1) by lia.
      exact Hnone.
Qed.

(** X16. [SetupDisplay] on a console that accepts [c] mode numbers in a
    row from the current one and not the next: it returns once the loop
    has enough turns, having queried those [c + 1] mode numbers in
    order, each once.  The mode it then sets, once, is the last one it
    queried, that is the first one the console did not accept, and the
    status it returns is that of this [SetMode] call;
    [highestModeNumberAvailable] is left one above that mode.  When the
    rejected query stores nothing, the two size globals hold what the
    query before it stored: the size of the mode below the one set. *)
Theorem SetupDisplay_sets_last_queried_mode (d : display) (c fuel : nat) :
  let first := highestModeNumberAvailable d in
  let rejected := first + Z.of_nat c in
  0 <= first ->
  rejected + 1 < UINTN_modulus ->
  (forall k : nat, (k < c)%nat -> fst (QueryMode con (first + Z.of_nat k)) = EFI_SUCCESS) ->
  fst (QueryMode con rejected) <> EFI_SUCCESS ->
  (c < fuel)%nat ->
  exists d',
    SetupDisplay fuel d = Some (SetMode_status con rejected, d') /\
    highestModeNumberAvailable d' = rejected + 1 /\
    (exists evs,
       console_log d' = console_log d ++ evs /\
       List.filter is_query evs
       = map (fun k : nat => CoQueryMode (first + Z.of_nat k)) (seq 0 (S c)) /\
       List.filter is_set_mode evs = [CoSetMode rejected] /\
       last evs = Some (CoSetMode rejected)) /\
    (forall size,
       (0 < c)%nat ->
       snd (QueryMode con (rejected - 1)) = Some size ->
       snd (QueryMode con rejected) = None ->
       (numberOfDisplayRows d', numberOfDisplayColoumns d') = size).
Proof.
  intros first rejected Hlo Hhi Hok Hfail Hfuel. subst first rejected.
  unfold SetupDisplay.
  rewrite (query_loop_run c d Hlo Hhi Hok Hfail fuel Hfuel).
  cbn [highestModeNumberAvailable numberOfDisplayRows numberOfDisplayColoumns console_log].
  replace (to_UINTN (highestModeNumberAvailable d + Z.of_nat c + 1 - 1))
    with (highestModeNumberAvailable d + Z.of_nat c)
    by (unfold to_UINTN; rewrite Z.mod_small; lia).
  eexists. split; [reflexivity|].
  cbn [highestModeNumberAvailable numberOfDisplayRows numberOfDisplayColoumns console_log].
  split; [reflexivity|]. split.
  - eexists. split; [by rewrite <- app_assoc|].
    destruct (query_events_queries (S c) (highestModeNumberAvailable d)
                (numberOfDisplayRows d, numberOfDisplayColoumns d)) as [Hq Hs].
    rewrite !List.filter_app, Hq, Hs. cbn [List.filter is_query is_set_mode app].
    rewrite app_nil_r. split; [reflexivity|]. split; [reflexivity|].
    rewrite last_app. reflexivity.
  - intros size Hc Hsize Hnone. destruct c as [|c]; [lia|].
    rewrite <- surjective_pairing.
    apply stored_size_last.
    + rewrite <- Hsize. do 2 f_equal. lia.
    + rewrite <- Hnone. do 2 f_equal. lia.
Qed.

(** X17. On a console that accepts every mode number, the loop of
    [SetupDisplay] has no end: however many turns it is given, it is
    still running after them, and [efi_main] gets no further than its
    display set-up. *)
Theorem SetupDisplay_loops_when_all_modes_accepted (fuel : nat) (d : display) :
  (forall mode, fst (QueryMode con mode) = EFI_SUCCESS) ->
  SetupDisplay fuel d = None /\ setup_console fuel d = None.
Proof.
  intros Hall.
  assert (forall fuel d, query_loop fuel d = None) as Hloop.
  { clear fuel d. induction fuel as [|fuel IH]; intros d; [reflexivity|].
    cbn [query_loop]. unfold query_step.
    pose proof (Hall (highestModeNumberAvailable d)) as Hq.
    destruct (QueryMode con (highestModeNumberAvailable d)) as [err stored].
    cbn [fst] in Hq. subst err.
    destruct (match stored with
              | Some p => p
              | None => (numberOfDisplayRows d, numberOfDisplayColoumns d)
              end) as [rows coloumns].
    cbn [Z.eqb EFI_SUCCESS]. apply IH. }
  unfold setup_console, SetupDisplay. rewrite !Hloop. split; reflexivity.
Qed.

End Display.


(** * The further properties on concrete inputs *)

(** A configuration with two keys that are no keywords. *)
Definition noisy_pairs : list (string * string) :=
  [("timeout", "5"); ("entry", "A"); ("colour", "blue"); ("family", "ubuntu")].

(** An entry given a kernel by hand and then a family. *)
Definition family_last_pairs : list (string * string) :=
  [("entry", "U"); ("kernel", "/custom/vmlinuz"); ("family", "ubuntu")].

(** An entry with a kernel path only. *)
Definition kernel_only_pairs : list (string * string) :=
  [("entry", "A"); ("kernel", "/a/vmlinuz")].

Definition kernel_only_store : machine :=
  snd (parse_sample 80 kernel_only_pairs initial_machine).

Definition option_kernel_only : LinuxBootOption :=
  mkLinuxBootOption (Some "A") None (Some "/a/vmlinuz") None None.

(** A volume with two configuration files, each standing for its own
    contents, and the tokenizer that goes with it. *)
Definition two_file_firmware : Firmware :=
  mkFirmware EFI_SUCCESS true (fun _ => true) (fun name => (80, name))
    EFI_SUCCESS (Some EFI_SUCCESS).

Definition two_file_pairs (contents : string) : list (string * string) :=
  if String.eqb contents "noisy" then noisy_pairs
  else [("entry", "A"); ("family", "ubuntu")].

(** A volume that holds the configuration file and nothing else. *)
Definition bare_volume_firmware : Firmware :=
  mkFirmware EFI_SUCCESS true (fun name => String.eqb name config_file)
    (fun _ => (80, "")) EFI_SUCCESS (Some EFI_SUCCESS).

(** A console with the three modes 0, 1 and 2. *)
Definition three_mode_console : Console :=
  mkConsole (fun mode => if mode <? 3 then (EFI_SUCCESS, Some (80 + mode, 25 + mode))
                         else (2 ^ 63 + 3, None))
    (fun mode => if mode <? 3 then EFI_SUCCESS else 2 ^ 63 + 3)
    EFI_SUCCESS EFI_SUCCESS.

(** A console that accepts whatever mode number it is asked about. *)
Definition lenient_console : Console :=
  mkConsole (fun _ => (EFI_SUCCESS, Some (80, 25))) (fun _ => EFI_SUCCESS)
    EFI_SUCCESS EFI_SUCCESS.

Lemma unknown_key_only_reported_witness :
  config_loop sample_KernelLocation sample_InitRDLocation
    [("Kernel", "/a/vmlinuz")] 2%nat sample_store
  = config_loop sample_KernelLocation sample_InitRDLocation [] 2%nat
      (with_event (report_unrecognised "Kernel") sample_store).
Proof.
  apply (unknown_key_only_reported sample_KernelLocation sample_InitRDLocation
           "Kernel" "/a/vmlinuz" [] 2%nat sample_store).
  simpl. intros [H|[H|[H|[H|[H|[]]]]]]; discriminate.
Defined.

Lemma built_store_diagnostics_witness :
  let res := parse_sample 0 noisy_pairs initial_machine in
  trace (snd res)
  = trace initial_machine ++ read_error 0
      ++ map report_unrecognised ["timeout"; "colour"].
Proof.
  apply (built_store_diagnostics sample_KernelLocation sample_InitRDLocation
           (fun _ => noisy_pairs) (sample_firmware 0 EFI_SUCCESS EFI_SUCCESS)
           config_file initial_machine).
  - reflexivity.
  - discriminate.
Defined.

Lemma unknown_keys_do_not_change_store_witness :
  let res1 :=
    ReadConfigurationFile sample_KernelLocation sample_InitRDLocation two_file_pairs
      two_file_firmware "noisy" initial_machine in
  let res2 :=
    ReadConfigurationFile sample_KernelLocation sample_InitRDLocation two_file_pairs
      two_file_firmware "clean" sample_store in
  fst res1 = fst res2 /\
  (distributionListRoot (snd res1) = NULL <-> distributionListRoot (snd res2) = NULL) /\
  (fst res1 = Val tt ->
   forall os,
     is_store (heap (snd res1)) (distributionListRoot (snd res1)) os <->
     is_store (heap (snd res2)) (distributionListRoot (snd res2)) os).
Proof.
  apply (unknown_keys_do_not_change_store sample_KernelLocation sample_InitRDLocation
           two_file_pairs two_file_firmware "noisy" "clean" initial_machine sample_store).
  reflexivity.
Defined.

Lemma family_replaces_manual_paths_witness :
  exists m' os o,
    parse_sample 80 family_last_pairs initial_machine = (Val tt, m') /\
    is_store (heap m') (distributionListRoot m') os /\
    os !! 0%nat = Some o /\
    distro_family o = Some "ubuntu" /\
    kernel_path o = Some "/casper/vmlinuz" /\
    initrd_path o = Some "/casper/initrd.lz" /\
    boot_folder o = Some "casper".
Proof.
  apply (family_replaces_manual_paths sample_KernelLocation sample_InitRDLocation
           (fun _ => family_last_pairs) (sample_firmware 80 EFI_SUCCESS EFI_SUCCESS)
           config_file initial_machine
           [("entry", "U"); ("kernel", "/custom/vmlinuz")] [] "family" "ubuntu").
  - reflexivity.
  - reflexivity.
  - reflexivity.
  - reflexivity.
  - reflexivity.
Defined.

Lemma built_store_pool_size_witness :
  let res := parse_sample 80 sample_pairs initial_machine in
  length (heap (snd res)) = 5%nat /\
  freed_cells (heap (snd res)) = freed_cells (heap initial_machine) /\
  exists ext, heap (snd res) = heap initial_machine ++ ext.
Proof.
  apply (built_store_pool_size sample_KernelLocation sample_InitRDLocation
           (fun _ => sample_pairs) (sample_firmware 80 EFI_SUCCESS EFI_SUCCESS)
           config_file initial_machine).
  - reflexivity.
  - discriminate.
Defined.

Lemma invalidated_store_leaks_witness :
  let res := parse_sample 80 unknown_family_pairs initial_machine in
  freed_cells (heap (snd res)) = 1%nat /\
  (3 <= length (heap (snd res)))%nat /\
  (2 <= length (heap (snd res)) - freed_cells (heap (snd res)))%nat /\
  exists low node,
    heap (snd res) = low ++ [CellDistro node; CellFreed] /\
    next node = NULL /\
    load (heap (snd res)) (bootOption node) = Some CellFreed.
Proof.
  apply (invalidated_store_leaks sample_KernelLocation sample_InitRDLocation
           (fun _ => unknown_family_pairs) (sample_firmware 80 EFI_SUCCESS EFI_SUCCESS)
           config_file initial_machine).
  - reflexivity.
  - reflexivity.
Defined.

Lemma launch_missing_path_faults_witness :
  let res := launch_sample EFI_SUCCESS EFI_SUCCESS 0 kernel_only_store in
  fst res = Trap /\
  trace (snd res)
  = trace kernel_only_store
      ++ write_of Enterprise_LinuxBootOptions (sized_str sample_UTF16toASCII [])
           :: path_writes option_kernel_only /\
  (length (path_writes option_kernel_only) < 3)%nat /\
  heap (snd res) = heap kernel_only_store.
Proof.
  apply (launch_missing_path_faults sample_UTF16toASCII
           (sample_firmware 80 EFI_SUCCESS EFI_SUCCESS) [] kernel_only_store
           None [Some option_kernel_only] 0 option_kernel_only).
  - solve_rep.
  - reflexivity.
  - right. left. reflexivity.
Defined.

Lemma negative_index_launches_first_entry_witness :
  let res := launch_sample EFI_SUCCESS EFI_SUCCESS (-1) sample_store in
  res = launch_sample EFI_SUCCESS EFI_SUCCESS 0 sample_store /\
  fst res <> Trap /\
  exists tl,
    trace (snd res)
    = trace sample_store
        ++ handoff_writes sample_UTF16toASCII [] "/a/vmlinuz" "/a/initrd.img" "/a"
        ++ EvLoadImage (device_path_of sample_store) :: tl.
Proof.
  apply (negative_index_launches_first_entry sample_UTF16toASCII
           (sample_firmware 80 EFI_SUCCESS EFI_SUCCESS) [] sample_store
           None [Some option_B] option_A "/a/vmlinuz" "/a/initrd.img" "/a" (-1)).
  - solve_rep.
  - reflexivity.
  - reflexivity.
  - reflexivity.
  - lia.
Defined.

Lemma family_entry_launches_witness :
  let parsed := snd (parse_sample 80 sample_pairs initial_machine) in
  let res := launch_sample EFI_SUCCESS EFI_SUCCESS 1 parsed in
  fst res <> Trap /\
  exists tl,
    trace (snd res)
    = trace parsed
        ++ handoff_writes sample_UTF16toASCII [] "/casper/vmlinuz" "/casper/initrd.lz" "casper"
        ++ EvLoadImage (device_path_of parsed) :: tl /\
    variable_writes tl = [].
Proof.
  apply (family_entry_launches sample_KernelLocation sample_InitRDLocation
           (fun _ => sample_pairs) sample_UTF16toASCII
           (sample_firmware 80 EFI_SUCCESS EFI_SUCCESS) [] config_file initial_machine
           [("entry", "A"); ("kernel", "/a/vmlinuz"); ("initrd", "/a/initrd.img");
            ("root", "/a"); ("entry", "B")] [] "family" "ubuntu").
  - reflexivity.
  - reflexivity.
  - reflexivity.
  - reflexivity.
  - reflexivity.
Defined.

Lemma bare_entry_launch_faults_witness :
  let built := parse_sample 80 [("entry", "A")] initial_machine in
  let res := launch_sample EFI_SUCCESS EFI_SUCCESS 0 (snd built) in
  fst built = Val tt /\
  distributionListRoot (snd built) <> NULL /\
  fst res = Trap /\
  trace (snd res)
  = trace (snd built)
      ++ [write_of Enterprise_LinuxBootOptions (sized_str sample_UTF16toASCII [])] /\
  heap (snd res) = heap (snd built).
Proof.
  apply (bare_entry_launch_faults sample_KernelLocation sample_InitRDLocation
           (fun _ => [("entry", "A")]) sample_UTF16toASCII
           (sample_firmware 80 EFI_SUCCESS EFI_SUCCESS) [] config_file initial_machine
           [] [] "entry" "A").
  - reflexivity.
  - reflexivity.
  - reflexivity.
  - reflexivity.
  - reflexivity.
Defined.

Lemma missing_files_all_reported_witness :
  exists e m' evs,
    ends sample_KernelLocation sample_InitRDLocation (fun _ => sample_pairs)
      bare_volume_firmware 5%nat "Enterprise" 0 1 0 initial_machine e m' /\
    trace m' = trace initial_machine ++ evs /\
    (In (EvDisplayErrorText "Error: can't find configuration file.\n") evs <->
     FileExists bare_volume_firmware config_file = false) /\
    (In (EvDisplayErrorText "Error: can't find GRUB bootloader!.\n") evs <->
     FileExists bare_volume_firmware "\efi\boot\boot.efi" = false) /\
    (In (EvDisplayErrorText "Error: can't find ISO file to boot!.\n") evs <->
     FileExists bare_volume_firmware "\efi\boot\boot.iso" = false) /\
    (FileExists bare_volume_firmware config_file = false \/
     FileExists bare_volume_firmware "\efi\boot\boot.efi" = false \/
     FileExists bare_volume_firmware "\efi\boot\boot.iso" = false ->
     e = Returns EFI_LOAD_ERROR /\
     last evs = Some (EvStall 1000000)).
Proof.
  apply (missing_files_all_reported sample_KernelLocation sample_InitRDLocation
           (fun _ => sample_pairs) bare_volume_firmware 5%nat "Enterprise" 0 1 0
           initial_machine).
  - reflexivity.
  - reflexivity.
  - reflexivity.
Defined.

Lemma persistence_preset_iff_witness :
  exists e m',
    startup_sample 80 sample_pairs initial_machine e m' /\
    length (preset_options_array m') = 5%nat /\
    (forall i, i <> 4%nat -> (i < 5)%nat -> preset_options_array m' !! i = Some false) /\
    (preset_options_array m' !! 4%nat = Some true <->
     FileExists (sample_firmware 80 EFI_SUCCESS EFI_SUCCESS) "\casper-rw" = true /\
     e = CallsMenu).
Proof.
  apply (persistence_preset_iff sample_KernelLocation sample_InitRDLocation
           (fun _ => sample_pairs) (sample_firmware 80 EFI_SUCCESS EFI_SUCCESS)
           5%nat "Enterprise" 0 1 0 initial_machine).
  - reflexivity.
  - reflexivity.
  - lia.
Defined.

Lemma unsupported_family_halts_startup_witness :
  exists m' evs,
    startup_sample 0 unknown_family_pairs initial_machine (Returns EFI_LOAD_ERROR) m' /\
    trace m' = trace initial_machine ++ evs /\
    distributionListRoot m' = NULL /\
    (fst (FileRead (sample_firmware 0 EFI_SUCCESS EFI_SUCCESS) config_file) = 0 ->
     In (EvDisplayErrorText "Error: Couldn't read configuration information.\n") evs) /\
    In (EvDisplayErrorText "Error: configuration file parsing error.\n") evs /\
    In (EvDisplayErrorText
          "Cannot continue because core files are missing or damaged.\nRestarting...\n") evs /\
    last evs = Some (EvStall 1000000) /\
    ~ In EvDisplayMenu evs.
Proof.
  apply (unsupported_family_halts_startup sample_KernelLocation sample_InitRDLocation
           (fun _ => unknown_family_pairs) (sample_firmware 0 EFI_SUCCESS EFI_SUCCESS)
           5%nat "Enterprise" 0 1 0 initial_machine).
  - reflexivity.
  - reflexivity.
  - reflexivity.
  - reflexivity.
  - reflexivity.
Defined.

Lemma load_and_start_failures_reported_witness :
  (let res := launch_sample EFI_LOAD_ERROR EFI_SUCCESS 1 sample_store in
   fst res = Val EFI_LOAD_ERROR /\
   trace (snd res) =
   trace sample_store
   ++ handoff_writes sample_UTF16toASCII [] "/casper/vmlinuz" "/casper/initrd.lz" "casper"
   ++ [EvLoadImage (device_path_of sample_store);
       EvDisplayErrorText "Error loading image: ";
       EvPrint "%r\n" [ArgR EFI_LOAD_ERROR];
       EvStall 3000000]) /\
  (let res := launch_sample EFI_SUCCESS EFI_LOAD_ERROR 1 sample_store in
   fst res = Val EFI_LOAD_ERROR /\
   trace (snd res) =
   trace sample_store
   ++ handoff_writes sample_UTF16toASCII [] "/casper/vmlinuz" "/casper/initrd.lz" "casper"
   ++ [EvLoadImage (device_path_of sample_store); EvClearScreen; EvStartImage;
       EvDisplayErrorText "Error starting image: ";
       EvPrint "%r\n" [ArgR EFI_LOAD_ERROR];
       EvStall 3000000]).
Proof.
  split.
  - apply (proj1 (load_and_start_failures_reported sample_UTF16toASCII
             (sample_firmware 80 EFI_LOAD_ERROR EFI_SUCCESS) [] sample_store
             None [Some option_A; Some option_B] 1 option_B
             "/casper/vmlinuz" "/casper/initrd.lz" "casper"
             ltac:(solve_rep) eq_refl eq_refl eq_refl eq_refl)).
    reflexivity.
  - apply (proj2 (load_and_start_failures_reported sample_UTF16toASCII
             (sample_firmware 80 EFI_SUCCESS EFI_LOAD_ERROR) [] sample_store
             None [Some option_A; Some option_B] 1 option_B
             "/casper/vmlinuz" "/casper/initrd.lz" "casper"
             ltac:(solve_rep) eq_refl eq_refl eq_refl eq_refl) EFI_LOAD_ERROR).
    + reflexivity.
    + reflexivity.
    + reflexivity.
Defined.

Lemma SetupDisplay_sets_last_queried_mode_witness :
  exists d',
    SetupDisplay three_mode_console 10 initial_display
    = Some (SetMode_status three_mode_console 3, d') /\
    highestModeNumberAvailable d' = 4 /\
    (exists evs,
       console_log d' = console_log initial_display ++ evs /\
       List.filter is_query evs
       = [CoQueryMode 0; CoQueryMode 1; CoQueryMode 2; CoQueryMode 3] /\
       List.filter is_set_mode evs = [CoSetMode 3] /\
       last evs = Some (CoSetMode 3)) /\
    (forall size,
       (0 < 3)%nat ->
       snd (QueryMode three_mode_console 2) = Some size ->
       snd (QueryMode three_mode_console 3) = None ->
       (numberOfDisplayRows d', numberOfDisplayColoumns d') = size).
Proof.
  apply (SetupDisplay_sets_last_queried_mode three_mode_console initial_display 3 10).
  - simpl. lia.
  - reflexivity.
  - intros k Hk. destruct k as [|[|[|k]]]; [reflexivity..|lia].
  - discriminate.
  - lia.
Defined.

Lemma SetupDisplay_loops_when_all_modes_accepted_witness :
  SetupDisplay lenient_console 1000 initial_display = None /\
  setup_console lenient_console 1000 initial_display = None.
Proof.
  apply (SetupDisplay_loops_when_all_modes_accepted lenient_console 1000 initial_display).
  reflexivity.
Defined.
